(** * ULogger: protocol engines, query templates and counter reconciliation

    A shallow embedding of the core of the ULogger backend
    (backend/app/core/query_template.py and backend/app/loggers/...):
    the byte-stream framers, the mbox label parser and transformer, the
    mbox-counter wire protocol, the Modbus register decoder, the worker
    state field and the counter reconciliation of the mbox worker.

    Conventions.
    - Python [int] is [Z]; Python [float] is a binary64 [PrimFloat.float];
      [bytes] and [bytearray] are [list byte]; [str] is [string].
    - A call that may raise returns a [result]: [Ok v] or [Raise e], with
      the exception class (and message) kept in [e].
    - [dict] with string keys is a [gmap string _], [set] of strings a
      [gset string]. *)

From Stdlib Require Import ZArith List String Ascii Strings.Byte Lia.
From Stdlib Require Import PrimFloat FloatOps FloatAxioms Uint63.
From Stdlib Require OrderedTypeEx.
From stdpp Require Import gmap strings list fin_maps pretty sorting.

(** ** Python exceptions and results *)

Inductive exn : Type :=
  | ValueError (msg : string)
  | KeyError (msg : string)
  | QueryTemplateError (msg : string)
  | IndexError (msg : string)
  | OverflowError (msg : string)
  | TypeError (msg : string).

Inductive result (A : Type) : Type :=
  | Ok (v : A)
  | Raise (e : exn).
Arguments Ok {A} v.
Arguments Raise {A} e.

Definition rbind {A B : Type} (r : result A) (k : A → result B) : result B :=
  match r with
  | Ok v => k v
  | Raise e => Raise e
  end.

Notation "'try!' x ':=' r 'in' k" := (rbind r (fun x => k))
  (at level 10, x name, r at level 100, k at level 200).

Definition is_Ok {A : Type} (r : result A) : bool :=
  match r with Ok _ => true | Raise _ => false end.

Definition is_ValueError {A : Type} (r : result A) : bool :=
  match r with Raise (ValueError _) => true | _ => false end.

(** ** Python values *)

(** [datetime.datetime] *)
Record datetime : Type := {
  year : Z; month : Z; day : Z;
  hour : Z; minute : Z; second : Z; microsecond : Z
}.

(** The values that travel in the variable dictionaries. *)
Inductive pyval : Type :=
  | VNone
  | VBool (b : bool)
  | VInt (z : Z)
  | VFloat (f : float)
  | VStr (s : string)
  | VDatetime (d : datetime).

(** ** Bytes *)

Definition byte_val (b : byte) : Z := Z.of_N (Byte.to_N b).

(** [bytes([z])]: a value outside [range(256)] raises ValueError. *)
Definition byte_of_int (z : Z) : result byte :=
  if (z <? 0)%Z then Raise (ValueError "bytes must be in range(0, 256)")
  else match Byte.of_N (Z.to_N z) with
       | Some b => Ok b
       | None => Raise (ValueError "bytes must be in range(0, 256)")
       end.

(** [seq[i]] for a non-negative index; [msg] is the text of the
    IndexError of the sequence type. *)
Definition index_with {A : Type} (msg : string) (l : list A) (i : Z) : result A :=
  if (i <? 0)%Z then Raise (IndexError msg)
  else match nth_error l (Z.to_nat i) with
       | Some x => Ok x
       | None => Raise (IndexError msg)
       end.

(** Indexing [bytes]. *)
Definition index {A : Type} (l : list A) (i : Z) : result A :=
  index_with "index out of range" l i.

(** Indexing a [list]. *)
Definition list_index {A : Type} (l : list A) (i : Z) : result A :=
  index_with "list index out of range" l i.

(** [seq[a:b]] for non-negative bounds; an empty slice when [b <= a]. *)
Definition slice {A : Type} (l : list A) (a b : Z) : list A :=
  firstn (Z.to_nat (b - a)) (skipn (Z.to_nat a) l).

(** [int.from_bytes(bs, "little", signed=False)]. *)
Definition int_from_bytes_le (bs : list byte) : Z :=
  fold_right (fun b acc => (byte_val b + 256 * acc)%Z) 0%Z bs.

(** [z.to_bytes(n, "little")]: OverflowError when [z] does not fit. *)
Fixpoint int_to_bytes_le (n : nat) (z : Z) : result (list byte) :=
  match n with
  | O => if (z =? 0)%Z then Ok [] else Raise (OverflowError "int too big to convert")
  | S n' =>
      if (z <? 0)%Z then Raise (OverflowError "can't convert negative int to unsigned")
      else
        try! b := byte_of_int (z mod 256) in
        try! rest := int_to_bytes_le n' (z / 256) in
        Ok (b :: rest)
  end.

(** ** Library calls on [str]

    The [str] methods that the modelled code calls are library code and
    are kept abstract: [str.strip], [str.isidentifier] and [int(s, 16)]
    ([None] when it raises ValueError). [ascii_str] below is an instance
    used to run the examples, over strings of code points below 256. *)
Class PyStr : Type := {
  str_strip : string → string;
  str_isidentifier : string → bool;
  int_base16 : string → option Z
}.

(** *** An instance for code points below 256 *)

Module AsciiStr.

Definition code (c : ascii) : N := N_of_ascii c.

(** [str.isspace] for one character. *)
Definition is_space (c : ascii) : bool :=
  let n := code c in
  ((9 <=? n) && (n <=? 13) || (28 <=? n) && (n <=? 32)
   || (n =? 0x85) || (n =? 0xA0))%N.

Fixpoint lstrip (s : string) : string :=
  match s with
  | EmptyString => EmptyString
  | String c rest => if is_space c then lstrip rest else s
  end.

Fixpoint rstrip (s : string) : string :=
  match s with
  | EmptyString => EmptyString
  | String c rest =>
      match rstrip rest with
      | EmptyString => if is_space c then EmptyString else String c EmptyString
      | r => String c r
      end
  end.

Definition strip (s : string) : string := rstrip (lstrip s).

Definition is_id_start (c : ascii) : bool :=
  let n := code c in
  ((65 <=? n) && (n <=? 90) || (97 <=? n) && (n <=? 122) || (n =? 95))%N.

Definition is_id_continue (c : ascii) : bool :=
  let n := code c in
  (is_id_start c || (48 <=? n) && (n <=? 57))%N.

Fixpoint all_id_continue (s : string) : bool :=
  match s with
  | EmptyString => true
  | String c rest => is_id_continue c && all_id_continue rest
  end.

(** [str.isidentifier] on ASCII text (letters beyond ASCII are not
    accepted by this instance). *)
Definition isidentifier (s : string) : bool :=
  match s with
  | EmptyString => false
  | String c rest => is_id_start c && all_id_continue rest
  end.

Definition hex_val (c : ascii) : option Z :=
  let n := Z.of_N (code c) in
  if ((48 <=? n) && (n <=? 57))%Z then Some (n - 48)%Z
  else if ((65 <=? n) && (n <=? 70))%Z then Some (n - 55)%Z
  else if ((97 <=? n) && (n <=? 102))%Z then Some (n - 87)%Z
  else None.

Fixpoint hex_digits (acc : Z) (s : string) : option Z :=
  match s with
  | EmptyString => Some acc
  | String c rest =>
      match hex_val c with
      | Some d => hex_digits (16 * acc + d)%Z rest
      | None => None
      end
  end.

(** [int(s, 16)] on plain hexadecimal digits (signs, blanks and
    underscores are not accepted by this instance). *)
Definition int16 (s : string) : option Z :=
  match s with
  | EmptyString => None
  | _ => hex_digits 0 s
  end.

End AsciiStr.

#[export] Instance ascii_str : PyStr :=
  {| str_strip := AsciiStr.strip; str_isidentifier := AsciiStr.isidentifier;
     int_base16 := AsciiStr.int16 |}.

(** ** Mbox-counter wire protocol (loggers/mbox_counter/protocol.py) *)

Module MboxCounterProtocol.
Local Open Scope Z_scope.

Definition PREAMBLE : Z := 0x27.
Definition C_READ_REQ : Z := 0x43.
Definition C_READ_RESP : Z := 0x08.
Definition DATA_ADDR : list byte := [x01; x00].

(** One pass of the inner [for _ in range(8)] loop. *)
Definition crc8_shift (crc : Z) : Z :=
  let crc := if Z.land crc 0x80 =? 0 then crc else Z.lxor crc 0xE5 in
  Z.land (Z.shiftl crc 1) 0xFF.

(** One pass of the outer [for b in data] loop. *)
Definition crc8_byte (crc : Z) (b : byte) : Z :=
  Nat.iter 8 crc8_shift (Z.lxor crc (byte_val b)).

Definition crc8_e5 (data : list byte) : Z :=
  Z.land (Z.lnot (fold_left crc8_byte data 0)) 0xFF.

Definition build_read_request (serial_u16 : Z) : result (list byte) :=
  if negb ((0 <=? serial_u16) && (serial_u16 <=? 0xFFFF))
  then Raise (ValueError "serial must be uint16 (0..65535)")
  else
    try! a := int_to_bytes_le 2 serial_u16 in
    let L := 5 in
    try! bL := byte_of_int L in
    try! bC := byte_of_int C_READ_REQ in
    let header := [bL; bC] ++ a in
    try! hdr_crc := int_to_bytes_le 1 (crc8_e5 header) in
    try! data_crc := int_to_bytes_le 1 (crc8_e5 DATA_ADDR) in
    try! bP := byte_of_int PREAMBLE in
    Ok ([bP] ++ header ++ hdr_crc ++ DATA_ADDR ++ data_crc).

Record ParsedCountersResponse : Type := {
  serial : Z;
  total_count : Z;
  size_dir : Z;
  flags : Z
}.

(** [f"0x{C:02x}"] *)
Definition hex_digit (d : Z) : string :=
  match nth_error
          ["0";"1";"2";"3";"4";"5";"6";"7";"8";"9";"a";"b";"c";"d";"e";"f"]%string
          (Z.to_nat d) with
  | Some s => s
  | None => ""%string
  end.
Definition hex02 (c : Z) : string :=
  (hex_digit (c / 16) ++ hex_digit (c mod 16))%string.

Definition parse_response_frame (frame : list byte) : result ParsedCountersResponse :=
  match frame with
  | [] => Raise (ValueError "bad preamble")
  | b0 :: _ =>
    if negb (byte_val b0 =? PREAMBLE) then Raise (ValueError "bad preamble")
    else if Z.of_nat (length frame) <? 6 then Raise (ValueError "frame too short")
    else
      try! bL := index frame 1 in
      let L := byte_val bL in
      let expected_len := 4 + L in
      if negb (Z.of_nat (length frame) =? expected_len)
      then Raise (ValueError ("bad frame length: got " ++ pretty (Z.of_nat (length frame))
                              ++ ", expected " ++ pretty expected_len))
      else
        try! bC := index frame 2 in
        let C := byte_val bC in
        if negb (C =? C_READ_RESP)
        then Raise (ValueError ("unexpected control code: 0x" ++ hex02 C))
        else
          let a_bytes := slice frame 3 5 in
          let serial_u16 := int_from_bytes_le a_bytes in
          try! hdr_crc := index frame 5 in
          let header := slice frame 1 5 in
          if negb (crc8_e5 header =? byte_val hdr_crc)
          then Raise (ValueError "header crc mismatch")
          else
            let data_len := L - 3 in
            let data_start := 6 in
            let data_end := data_start + data_len in
            let data := slice frame data_start data_end in
            try! data_crc := index frame data_end in
            if negb (crc8_e5 data =? byte_val data_crc)
            then Raise (ValueError "data crc mismatch")
            else if negb (Z.of_nat (length data) =? 7)
            then Raise (ValueError ("unexpected data length: "
                                    ++ pretty (Z.of_nat (length data)) ++ " (expected 7)"))
            else
              let total := int_from_bytes_le (slice data 0 4) in
              let size_dir := int_from_bytes_le (slice data 4 6) in
              try! fl := index data 6 in
              Ok {| serial := serial_u16; total_count := total;
                    size_dir := size_dir; flags := byte_val fl |}
  end.

(** The reference frames of the protocol description. *)
Definition request_1A78 : list byte :=
  [x27; x05; x43; x78; x1a; x1f; x01; x00; xf3].
Definition response_1A78 : list byte :=
  [x27; x0a; x08; x78; x1a; xcd; x28; x1c; x29; x00; x01; x00; x05; x0d].

End MboxCounterProtocol.

(** ** Worker state field (loggers/base.py and the five workers) *)

Module Worker.

Inductive WorkerState : Type :=
  | CREATED | RUNNING | STOPPING | STOPPED | ERROR.

Inductive worker_kind : Type :=
  | EasySerialWorker | MboxWorker | MboxCounterWorker
  | ModbusRtuWorker | ModbusTcpWorker.

(** The fields that [start] and [stop] read or write. *)
Record worker : Type := {
  state : WorkerState;
  stop_event : bool;
  thread_alive : bool;
  client_open : bool;
  runs_total : Z
}.

(** [BaseConnectionWorker.__init__] *)
Definition new_worker : worker :=
  {| state := CREATED; stop_event := false; thread_alive := false;
     client_open := false; runs_total := 0 |}.

Definition _set_state (s : WorkerState) (w : worker) : worker :=
  {| state := s; stop_event := stop_event w; thread_alive := thread_alive w;
     client_open := client_open w; runs_total := runs_total w |}.

Definition stop_event_set (w : worker) : worker :=
  {| state := state w; stop_event := true; thread_alive := thread_alive w;
     client_open := client_open w; runs_total := runs_total w |}.

Definition _close_client (w : worker) : worker :=
  {| state := state w; stop_event := stop_event w; thread_alive := thread_alive w;
     client_open := false; runs_total := runs_total w |}.

Definition is_RUNNING (s : WorkerState) : bool :=
  match s with RUNNING => true | _ => false end.

(** [start]: the same body in every worker. *)
Definition start (w : worker) : worker :=
  if is_RUNNING (state w) then w
  else if thread_alive w then w
  else {| state := RUNNING; stop_event := false; thread_alive := true;
          client_open := client_open w; runs_total := runs_total w + 1 |}.

(** [stop]: sets the state and the event; the Modbus RTU worker also
    closes its client. *)
Definition stop (k : worker_kind) (w : worker) : worker :=
  let w := _set_state STOPPING w in
  let w := stop_event_set w in
  match k with
  | ModbusRtuWorker => _close_client w
  | _ => w
  end.

End Worker.

(** ** Mbox-counter framer (loggers/mbox_counter/framer.py) *)

Module MboxCounterFramer.

Definition PREAMBLE : byte := x27.

(** [buf.index(x)]: position of the first [x], [None] when the call
    raises ValueError. *)
Fixpoint index_of (x : byte) (buf : list byte) : option nat :=
  match buf with
  | [] => None
  | b :: rest => if Byte.eqb b x then Some O else option_map S (index_of x rest)
  end.

(** The [while True] loop of [feed]; every pass that does not return
    deletes at least one byte of the buffer, so [fuel] above the buffer
    length is never used up ([counter_feed_loop_total]); the length byte
    is read only from a buffer of two bytes or more. The result is the
    list of frames and the buffer left in the framer, [None] when the
    fuel runs out. *)
Fixpoint feed_loop (fuel : nat) (buf : list byte) (frames : list (list byte))
  : option (list (list byte) * list byte) :=
  match fuel with
  | O => None
  | S fuel' =>
    match index_of PREAMBLE buf with
    | None => Some (frames, [])
    | Some stx =>
      let buf := if (0 <? stx)%nat then skipn stx buf else buf in
      if (length buf <? 2)%nat then Some (frames, buf)
      else
        match nth_error buf 1 with
        | None => None
        | Some bl =>
          let L := byte_val bl in
          let frame_len := (4 + L)%Z in
          if (frame_len <=? 0)%Z then feed_loop fuel' (skipn 1 buf) frames
          else if (Z.of_nat (length buf) <? frame_len)%Z then Some (frames, buf)
          else
            let frame := firstn (Z.to_nat frame_len) buf in
            feed_loop fuel' (skipn (Z.to_nat frame_len) buf) (frames ++ [frame])
        end
    end
  end.

(** The loop run on a whole buffer. *)
Definition scan (buf : list byte) : option (list (list byte) * list byte) :=
  feed_loop (S (length buf)) buf [].

(** [feed(data)] on a framer whose buffer is [buf]. *)
Definition feed (buf data : list byte) : option (list (list byte) * list byte) :=
  match data with
  | [] => Some ([], buf)
  | _ => scan (buf ++ data)
  end.

(** [MboxCounterFramer()] *)
Definition new_framer : list byte := [].

(** A valid counter frame: [F[0] = 0x27] and [len(F) = 4 + F[1]]. *)
Definition valid_frame (F : list byte) : Prop :=
  match F with
  | b0 :: b1 :: _ => b0 = PREAMBLE ∧ Z.of_nat (length F) = (4 + byte_val b1)%Z
  | _ => False
  end.

(** Frames already collected are only appended to: the effect of an
    accumulator on the result of the loop. *)
Definition prepend (acc : list (list byte)) (r : list (list byte) * list byte)
  : list (list byte) * list byte := (acc ++ fst r, snd r).

Definition frame_eq_dec : ∀ f g : list byte, {f = g} + {f ≠ g} :=
  List.list_eq_dec Byte.byte_eq_dec.

(** How many times [F] occurs among the emitted frames. *)
Definition emitted_times (F : list byte) (frames : list (list byte)) : nat :=
  count_occ frame_eq_dec frames F.

End MboxCounterFramer.

(** ** Easy-serial framer (loggers/easy_serial/framer.py) *)

Module EasySerialFramer.

(** [buf.startswith(sub)] *)
Fixpoint starts_with (sub buf : list byte) : bool :=
  match sub, buf with
  | [], _ => true
  | _ :: _, [] => false
  | s :: sub', b :: buf' => Byte.eqb s b && starts_with sub' buf'
  end.

(** [buf.find(sub)]: index of the first occurrence, [None] for -1. *)
Fixpoint find0 (sub buf : list byte) : option nat :=
  if starts_with sub buf then Some O
  else match buf with
       | [] => None
       | _ :: rest => option_map S (find0 sub rest)
       end.

(** [buf.find(sub, start)] *)
Definition find (sub buf : list byte) (start : nat) : option nat :=
  if (length buf <? start)%nat then None
  else option_map (Nat.add start) (find0 sub (skipn start buf)).

(** The framer after [__init__]: the decoded preamble (or None), the
    decoded terminator and the internal buffer. *)
Record framer : Type := {
  _preamble_bytes : option (list byte);
  _terminator_bytes : list byte;
  _buf : list byte
}.

Definition with_buf (f : framer) (buf : list byte) : framer :=
  {| _preamble_bytes := _preamble_bytes f;
     _terminator_bytes := _terminator_bytes f;
     _buf := buf |}.

(** The search for the terminator and the cut of one payload, the second
    half of a pass of the [while True] loop. *)
Definition cut_payload
    (loop : list byte → list (list byte) → option (list (list byte) * list byte))
    (term buf : list byte) (start_index : nat) (frames : list (list byte))
  : option (list (list byte) * list byte) :=
  match find term buf start_index with
  | None => Some (frames, buf)
  | Some term_idx =>
      let payload := slice buf (Z.of_nat start_index) (Z.of_nat term_idx) in
      loop (skipn (term_idx + length term) buf) (frames ++ [payload])
  end.

(** The [while True] loop of [feed]; [None] only when [fuel] runs out,
    which does not happen for a non-empty terminator ([easy_feed_total]). *)
Fixpoint feed_loop (fuel : nat) (pre : option (list byte)) (term buf : list byte)
    (frames : list (list byte)) : option (list (list byte) * list byte) :=
  match fuel with
  | O => None
  | S fuel' =>
    match pre with
    | Some p =>
      match find p buf 0 with
      | None =>
          let max_keep := (Z.of_nat (length p) - 1)%Z in
          if (0 <? max_keep)%Z && (max_keep <? Z.of_nat (length buf))%Z
          then Some (frames, skipn (Z.to_nat (Z.of_nat (length buf) - max_keep)) buf)
          else Some (frames, buf)
      | Some idx =>
          let buf := if (0 <? idx)%nat then skipn idx buf else buf in
          cut_payload (feed_loop fuel' pre term) term buf (length p) frames
      end
    | None => cut_payload (feed_loop fuel' pre term) term buf 0 frames
    end
  end.

(** [feed(data)]: the frames returned and the framer afterwards. *)
Definition feed (f : framer) (data : list byte) : option (list (list byte) * framer) :=
  match data with
  | [] => Some ([], f)
  | _ =>
      let buf := _buf f ++ data in
      option_map (fun r => (fst r, with_buf f (snd r)))
        (feed_loop (S (length buf)) (_preamble_bytes f) (_terminator_bytes f) buf [])
  end.

Definition bytes_of_string (s : string) : list byte :=
  map byte_of_ascii (list_ascii_of_string s).

(** A framer with the given decoded patterns and an empty buffer. *)
Definition new_framer (pre : option (list byte)) (term : list byte) : framer :=
  {| _preamble_bytes := pre; _terminator_bytes := term; _buf := [] |}.

Definition is_char (c d : ascii) : bool := Ascii.eqb c d.

Definition backslash : ascii := "\"%char.

Definition str_of (cs : list ascii) : string := string_of_list_ascii cs.

(** [result.append(value)] for a value known to be in [0, 255]. *)
Definition byte_of_code (z : Z) : byte :=
  match Byte.of_N (Z.to_N z) with
  | Some b => b
  | None => x00
  end.

(** The [while i < n] loop of [decode_escaped_bytes] on the rest of the
    pattern. Characters are code points below 256, so [ord(ch)] always
    fits a byte. *)
Fixpoint decode_chars `{PyStr} (pattern : list ascii) : list byte :=
  match pattern with
  | [] => []
  | ch :: rest =>
    if negb (is_char ch backslash) then byte_of_ascii ch :: decode_chars rest
    else
      match rest with
      | [] => x5c :: []
      | nxt :: rest2 =>
        if is_char nxt "n" then x0a :: decode_chars rest2
        else if is_char nxt "r" then x0d :: decode_chars rest2
        else if is_char nxt "t" then x09 :: decode_chars rest2
        else if is_char nxt "0" then x00 :: decode_chars rest2
        else if is_char nxt "b" then x08 :: decode_chars rest2
        else if is_char nxt "f" then x0c :: decode_chars rest2
        else if is_char nxt "v" then x0b :: decode_chars rest2
        else if is_char nxt "a" then x07 :: decode_chars rest2
        else if is_char nxt backslash then x5c :: decode_chars rest2
        else if is_char nxt "x" then
          match rest2 with
          | h1 :: h2 :: rest4 =>
              match int_base16 (str_of [h1; h2]) with
              | Some value =>
                  if ((0 <=? value) && (value <=? 255))%Z
                  then byte_of_code value :: decode_chars rest4
                  else x5c :: decode_chars rest
              | None => x5c :: decode_chars rest
              end
          | _ => x5c :: decode_chars rest
          end
        else if is_char nxt "u" then
          match rest2 with
          | h1 :: h2 :: h3 :: h4 :: rest6 =>
              match int_base16 (str_of [h1; h2; h3; h4]) with
              | Some code => byte_of_code (Z.land code 0xFF) :: decode_chars rest6
              | None => x5c :: decode_chars rest
              end
          | _ => x5c :: decode_chars rest
          end
        else x5c :: decode_chars rest
      end
  end.

Definition decode_escaped_bytes `{PyStr} (pattern : option string) : option (list byte) :=
  option_map (fun p => decode_chars (list_ascii_of_string p)) pattern.

(** [EasySerialFramer(preamble, terminator)] *)
Definition EasySerialFramer_init `{PyStr} (preamble : option string) (terminator : string)
  : result framer :=
  if String.eqb terminator "" then Raise (ValueError "terminator must be non-empty string")
  else
    Ok {| _preamble_bytes := decode_escaped_bytes preamble;
          _terminator_bytes := decode_chars (list_ascii_of_string terminator);
          _buf := [] |}.

(** The framer of the noise scenario: preamble [$], terminator LF. *)
Definition dollar_framer : framer := new_framer (Some [x24]) [x0a].

(** The bound on a buffer [buf] that waits for the preamble [p]: if it
    holds no occurrence of [p], it is no longer than [len(p) - 1]. *)
Definition tail_bounded (p buf : list byte) : Prop :=
  find p buf 0 = None → (Z.of_nat (length buf) ≤ Z.of_nat (length p) - 1)%Z.

End EasySerialFramer.

(** ** Mbox configuration and label record (loggers/mbox/config.py, parser.py) *)

Module MboxConfig.

Record MboxConfig : Type := {
  mbox_id : Z;
  tare : float;
  lot : string;
  treat_zero_as_error : bool;
  treat_duplicate_as_error : bool;
  error_label_zero : string;
  error_label_duplicate : string;
  encoding : string;
  ext_counter : bool;
  counter_connection_id : option Z;
  counter_device_id : option Z;
  counter_clean_timeout : float;
  counter_miss_timeout : float;
  miss_strategy : string;
  miss_default : gmap string pyval;
  miss_insert_limit : Z;
  miss_error_label : string
}.

(** The field defaults of the pydantic model, for a given [mbox_id]. *)
Definition default_config (id : Z) : MboxConfig :=
  {| mbox_id := id; tare := 0%float; lot := "";
     treat_zero_as_error := true; treat_duplicate_as_error := true;
     error_label_zero := "no weight"; error_label_duplicate := "no weight";
     encoding := "ascii"; ext_counter := false;
     counter_connection_id := None; counter_device_id := None;
     counter_clean_timeout := 6%float; counter_miss_timeout := 4%float;
     miss_strategy := "last"; miss_default := ∅;
     miss_insert_limit := 1; miss_error_label := "scales error" |}.

End MboxConfig.

Module MboxLabel.

Record MboxLabelRecord : Type := {
  dt : datetime;
  sFishType : string;
  sSize : string;
  nWeight : float;
  rWeight : float;
  sSNumber : string
}.

End MboxLabel.

(** ** Mbox transformer (loggers/mbox/transform.py) *)

Module MboxTransform.
Import MboxConfig MboxLabel.

Record MboxTransformResult : Type := {
  variables : gmap string pyval;
  on_error : bool;
  error_info : string;
  adj_r_weight : float
}.

(** The transformer: its configuration and [_last_adj_r_weight]. *)
Record MboxTransformer : Type := {
  _cfg : MboxConfig;
  _last_adj_r_weight : option float
}.

(** [MboxTransformer(config)] *)
Definition new_transformer (config : MboxConfig) : MboxTransformer :=
  {| _cfg := config; _last_adj_r_weight := None |}.

Definition reset_state (t : MboxTransformer) : MboxTransformer :=
  {| _cfg := _cfg t; _last_adj_r_weight := None |}.

(** Step 1 of [transform]: apply the tare and clamp negatives to zero. *)
Definition tare_adjusted (cfg : MboxConfig) (rec : MboxLabelRecord) : float :=
  let adj_r := PrimFloat.sub (rWeight rec) (tare cfg) in
  if PrimFloat.ltb adj_r 0%float then 0%float else adj_r.

(** [transform(mbox_id, rec)]: the result and the transformer afterwards. *)
Definition transform (t : MboxTransformer) (id : Z) (rec : MboxLabelRecord)
  : MboxTransformResult * MboxTransformer :=
  let cfg := _cfg t in
  let adj_r := tare_adjusted cfg rec in
  let on_error := false in
  let error_info := ""%string in
  let '(adj_r, on_error, error_info) :=
    if treat_zero_as_error cfg && PrimFloat.eqb adj_r 0%float
    then (nWeight rec, true, error_label_zero cfg)
    else (adj_r, on_error, error_info) in
  let '(on_error, error_info) :=
    if negb on_error && treat_duplicate_as_error cfg
    then match _last_adj_r_weight t with
         | Some last =>
             if PrimFloat.eqb adj_r last then (true, error_label_duplicate cfg)
             else (on_error, error_info)
         | None => (on_error, error_info)
         end
    else (on_error, error_info) in
  let t' := {| _cfg := cfg; _last_adj_r_weight := Some adj_r |} in
  let variables : gmap string pyval :=
    <[ "mbox_id"%string := VInt id ]>
    (<[ "on_error"%string := VBool on_error ]>
    (<[ "created_at"%string := VDatetime (dt rec) ]>
    (<[ "fish_name"%string := VStr (sFishType rec) ]>
    (<[ "fish_grade"%string := VStr (sSize rec) ]>
    (<[ "lot"%string := VStr "" ]>
    (<[ "n_weight"%string := VFloat (nWeight rec) ]>
    (<[ "r_weight"%string := VFloat adj_r ]>
    (<[ "sn"%string := VStr (sSNumber rec) ]>
    (<[ "error_info"%string := VStr error_info ]>
    (<[ "tare"%string := VFloat (tare cfg) ]> ∅)))))))))) in
  ({| variables := variables; on_error := on_error;
      error_info := error_info; adj_r_weight := adj_r |}, t').

(** The zero rule of step 2 fires for this record. *)
Definition zero_rule (cfg : MboxConfig) (rec : MboxLabelRecord) : bool :=
  treat_zero_as_error cfg && PrimFloat.eqb (tare_adjusted cfg rec) 0%float.

(** Sample data: the label of the end-to-end mbox scenario, and one whose
    real weight is below the tare. *)
Definition sample_dt : datetime :=
  {| year := 2024; month := 1; day := 1;
     hour := 12; minute := 30; second := 15; microsecond := 999000 |}.

Definition sample_cfg : MboxConfig :=
  {| mbox_id := 7; tare := 0.5%float; lot := "L1";
     treat_zero_as_error := true; treat_duplicate_as_error := true;
     error_label_zero := "no weight"; error_label_duplicate := "no weight";
     encoding := "ascii"; ext_counter := false;
     counter_connection_id := None; counter_device_id := None;
     counter_clean_timeout := 6%float; counter_miss_timeout := 4%float;
     miss_strategy := "last"; miss_default := ∅;
     miss_insert_limit := 1; miss_error_label := "scales error" |}.

Definition light_label : MboxLabelRecord :=
  {| dt := sample_dt; sFishType := "MACKEREL"; sSize := "M";
     nWeight := 12.5%float; rWeight := 0.25%float; sSNumber := "SN123" |}.

Definition next_label : MboxLabelRecord :=
  {| dt := sample_dt; sFishType := "MACKEREL"; sSize := "M";
     nWeight := 11%float; rWeight := 13%float; sSNumber := "SN124" |}.

End MboxTransform.

(** ** Modbus register decoder (loggers/modbus_tcp/config.py, worker.py) *)

Module ModbusTcp.
Local Open Scope Z_scope.

Inductive ModbusTcpValueEncoding : Type :=
  | U16 | S16 | U16_SCALED | S16_SCALED
  | U32_ABCD | U32_CDAB | S32_ABCD | S32_CDAB
  | U32_SCALED_ABCD | U32_SCALED_CDAB | S32_SCALED_ABCD | S32_SCALED_CDAB
  | F32_ABCD | F32_CDAB
  | F32_SCALED_ABCD | F32_SCALED_CDAB.

(** [enc.value], the string of the enum member. *)
Definition enc_value (enc : ModbusTcpValueEncoding) : string :=
  match enc with
  | U16 => "u16" | S16 => "s16"
  | U16_SCALED => "u16_scaled" | S16_SCALED => "s16_scaled"
  | U32_ABCD => "u32_abcd" | U32_CDAB => "u32_cdab"
  | S32_ABCD => "s32_abcd" | S32_CDAB => "s32_cdab"
  | U32_SCALED_ABCD => "u32_scaled_abcd" | U32_SCALED_CDAB => "u32_scaled_cdab"
  | S32_SCALED_ABCD => "s32_scaled_abcd" | S32_SCALED_CDAB => "s32_scaled_cdab"
  | F32_ABCD => "f32_abcd" | F32_CDAB => "f32_cdab"
  | F32_SCALED_ABCD => "f32_scaled_abcd" | F32_SCALED_CDAB => "f32_scaled_cdab"
  end.

(** [sub in s] on strings. *)
Fixpoint str_contains (sub s : string) : bool :=
  String.prefix sub s
  || match s with
     | EmptyString => false
     | String _ rest => str_contains sub rest
     end.

(** [Number = Union[int, float]] *)
Inductive Number : Type :=
  | NInt (z : Z)
  | NFloat (f : float).

Record ModbusTcpVariableConfig : Type := {
  name : string;
  address : Z;
  encoding : ModbusTcpValueEncoding;
  k : float;
  b : float;
  default : option Number
}.

Definition with_encoding (var : ModbusTcpVariableConfig) (enc : ModbusTcpValueEncoding)
  : ModbusTcpVariableConfig :=
  {| name := name var; address := address var; encoding := enc;
     k := k var; b := b var; default := default var |}.

(** The conversion of an [int] operand to [float] in mixed arithmetic,
    exact for the 32-bit values the decoder produces. *)
Definition float_of_int (z : Z) : float :=
  if z <? 0 then PrimFloat.opp (PrimFloat.of_uint63 (Uint63.of_Z (- z)))
  else PrimFloat.of_uint63 (Uint63.of_Z z).

Definition to_float (x : Number) : float :=
  match x with
  | NInt z => float_of_int z
  | NFloat f => f
  end.

(** [unpack(">f", pack(">I", u32))[0]]: the binary32 value with bit
    pattern [u32], as a Python float. *)
Definition unpack_f32 (u32 : Z) : float :=
  let sign := Z.testbit u32 31 in
  let e := Z.land (Z.shiftr u32 23) 0xFF in
  let m := Z.land u32 0x7FFFFF in
  let mag :=
    if e =? 255 then (if m =? 0 then PrimFloat.infinity else PrimFloat.nan)
    else if e =? 0 then Z.ldexp (float_of_int m) (-149)
    else Z.ldexp (float_of_int (0x800000 + m)) (e - 150) in
  if sign then PrimFloat.opp mag else mag.

(** The nested helper [apply_scale]: [var.k * x + var.b]. *)
Definition apply_scale (var : ModbusTcpVariableConfig) (x : Number) : Number :=
  NFloat (PrimFloat.add (PrimFloat.mul (k var) (to_float x)) (b var)).

(** The nested helper [make_u32_abcd]. *)
Definition make_u32_abcd (h l : Z) : Z :=
  Z.land (Z.lor (Z.shiftl h 16) l) 0xFFFFFFFF.

Definition scaled (enc : ModbusTcpValueEncoding) (var : ModbusTcpVariableConfig)
    (value : Number) : Number :=
  if str_contains "scaled" (enc_value enc) then apply_scale var value else value.

Definition is_u16 (enc : ModbusTcpValueEncoding) : bool :=
  match enc with U16 | U16_SCALED => true | _ => false end.

Definition is_s16 (enc : ModbusTcpValueEncoding) : bool :=
  match enc with S16 | S16_SCALED => true | _ => false end.

Definition is_abcd (enc : ModbusTcpValueEncoding) : bool :=
  match enc with
  | U32_ABCD | U32_SCALED_ABCD | S32_ABCD | S32_SCALED_ABCD
  | F32_ABCD | F32_SCALED_ABCD => true
  | _ => false
  end.

Definition is_u32 (enc : ModbusTcpValueEncoding) : bool :=
  match enc with
  | U32_ABCD | U32_SCALED_ABCD | U32_CDAB | U32_SCALED_CDAB => true
  | _ => false
  end.

Definition is_s32 (enc : ModbusTcpValueEncoding) : bool :=
  match enc with
  | S32_ABCD | S32_SCALED_ABCD | S32_CDAB | S32_SCALED_CDAB => true
  | _ => false
  end.

Definition _decode_registers (registers : list Z) (var : ModbusTcpVariableConfig)
  : result Number :=
  let enc := encoding var in
  if is_u16 enc then
    try! r0 := list_index registers 0 in
    let raw := Z.land r0 0xFFFF in
    Ok (scaled enc var (NInt raw))
  else if is_s16 enc then
    try! r0 := list_index registers 0 in
    let raw := Z.land r0 0xFFFF in
    let raw := if Z.land raw 0x8000 =? 0 then raw else raw - 0x10000 in
    Ok (scaled enc var (NInt raw))
  else
    try! r0 := list_index registers 0 in
    let hi := Z.land r0 0xFFFF in
    try! r1 := list_index registers 1 in
    let lo := Z.land r1 0xFFFF in
    let u32 := if is_abcd enc then make_u32_abcd hi lo else make_u32_abcd lo hi in
    if is_u32 enc then Ok (scaled enc var (NInt u32))
    else if is_s32 enc then
      let u32_signed := if Z.land u32 0x80000000 =? 0 then u32 else u32 - 0x100000000 in
      Ok (scaled enc var (NInt u32_signed))
    else
      let f := unpack_f32 u32 in
      Ok (scaled enc var (NFloat f)).

(** The 32-bit encodings by family and scaling, in their two word orders. *)
Inductive family32 : Type := FamU32 | FamS32 | FamF32.

Definition cdab_encoding (fam : family32) (is_scaled : bool) : ModbusTcpValueEncoding :=
  match fam, is_scaled with
  | FamU32, false => U32_CDAB | FamU32, true => U32_SCALED_CDAB
  | FamS32, false => S32_CDAB | FamS32, true => S32_SCALED_CDAB
  | FamF32, false => F32_CDAB | FamF32, true => F32_SCALED_CDAB
  end.

Definition abcd_encoding (fam : family32) (is_scaled : bool) : ModbusTcpValueEncoding :=
  match fam, is_scaled with
  | FamU32, false => U32_ABCD | FamU32, true => U32_SCALED_ABCD
  | FamS32, false => S32_ABCD | FamS32, true => S32_SCALED_ABCD
  | FamF32, false => F32_ABCD | FamF32, true => F32_SCALED_ABCD
  end.

Definition sample_var (enc : ModbusTcpValueEncoding) : ModbusTcpVariableConfig :=
  {| name := "v"; address := 0; encoding := enc;
     k := 1%float; b := 0%float; default := None |}.

End ModbusTcp.

(** ** Query templates (core/query_template.py) *)

Module QueryTemplate.

Record CompiledQueryTemplate : Type := {
  sql : string;
  param_names : gset string
}.

Definition is_lbrace (ch : ascii) : bool := Ascii.eqb ch "{"%char.
Definition is_rbrace (ch : ascii) : bool := Ascii.eqb ch "}"%char.

(** [s + ch] for a one-character [ch]. *)
Definition snoc_char (s : string) (ch : ascii) : string :=
  (s ++ String ch EmptyString)%string.

(** The outer [while i < n] loop of [compile_query_template] on the rest
    of the template, with [result_parts] and [param_names] so far. The
    inner fixpoint is the [while j < n and template[j] != "}"] scan: it
    collects the placeholder text and resumes the outer loop after the
    closing brace. *)
Fixpoint compile_loop `{PyStr} (t : string) (result_parts : list string)
    (names : gset string) {struct t} : result CompiledQueryTemplate :=
  match t with
  | EmptyString =>
      Ok {| sql := String.concat "" result_parts; param_names := names |}
  | String ch rest =>
      if is_lbrace ch then
        match rest with
        | String ch1 rest1 =>
            if is_lbrace ch1 then compile_loop rest1 (result_parts ++ ["{"%string]) names
            else
              (fix scan (s : string) (inner : string) {struct s}
                 : result CompiledQueryTemplate :=
                 match s with
                 | EmptyString =>
                     Raise (QueryTemplateError "Unmatched '{' in query template")
                 | String c s' =>
                     if is_rbrace c then
                       let name := str_strip inner in
                       if String.eqb name "" then
                         Raise (QueryTemplateError "Empty placeholder '{}' in query template")
                       else if negb (str_isidentifier name) then
                         Raise (QueryTemplateError
                                  ("Invalid placeholder name '" ++ name
                                   ++ "' in query template"))
                       else
                         compile_loop s' (result_parts ++ [(":" ++ name)%string])
                                      ({[ name ]} ∪ names)
                     else scan s' (snoc_char inner c)
                 end) rest EmptyString
        | EmptyString =>
            Raise (QueryTemplateError "Unmatched '{' in query template")
        end
      else if is_rbrace ch then
        match rest with
        | String ch1 rest1 =>
            if is_rbrace ch1 then compile_loop rest1 (result_parts ++ ["}"%string]) names
            else Raise (QueryTemplateError "Single '}' in query template")
        | EmptyString => Raise (QueryTemplateError "Single '}' in query template")
        end
      else compile_loop rest (result_parts ++ [String ch EmptyString]) names
  end.

Definition compile_query_template `{PyStr} (template : string)
  : result CompiledQueryTemplate :=
  compile_loop template [] ∅.

(** Lexicographic order on code points, the order of [sorted] on [str]. *)
Definition str_le (s1 s2 : string) : Prop := String.leb s1 s2 = true.

#[export] Instance str_le_dec : RelDecision str_le :=
  fun s1 s2 => decide (String.leb s1 s2 = true).

Definition py_sorted (l : list string) : list string :=
  merge_sort str_le l.

(** One pass of [for name in compiled.param_names]. *)
Definition collect_step (variables : gmap string pyval)
    (acc : gmap string pyval * list string) (name : string)
  : gmap string pyval * list string :=
  match variables !! name with
  | None => (fst acc, snd acc ++ [name])
  | Some v => (<[ name := v ]> (fst acc), snd acc)
  end.

(** The whole loop: [params] and [missing]. The set is walked in the
    order of [elements]; [missing] is sorted before it is used. *)
Definition collect (variables : gmap string pyval) (names : gset string)
  : gmap string pyval * list string :=
  foldl (collect_step variables) (∅, []) (elements names).

Definition missing_message (missing : list string) : string :=
  ("Missing variables for query template: "
   ++ String.concat ", " (py_sorted missing))%string.

Definition build_query `{PyStr} (template : string) (variables : gmap string pyval)
  : result (string * gmap string pyval) :=
  try! compiled := compile_query_template template in
  let '(params, missing) := collect variables (param_names compiled) in
  match missing with
  | [] => Ok (sql compiled, params)
  | _ :: _ => Raise (KeyError (missing_message missing))
  end.

(** The names of the template that the variables do not provide. *)
Definition missing_names (names : gset string) (variables : gmap string pyval)
  : gset string :=
  names ∖ dom variables.

End QueryTemplate.

(** ** Mbox label parser (loggers/mbox/parser.py) *)

(** The library calls of the parser, kept abstract: [bytes.decode]
    ([None] when it raises), [datetime.strptime] and [float] on a string
    ([None] when they raise ValueError). *)
Class PyParse : Type := {
  bytes_decode : list byte → string → option string;
  datetime_strptime : string → string → option datetime;
  float_of_str : string → option float
}.

Module MboxParser.
Import MboxLabel.

(** [text.split(",")] *)
Fixpoint split_comma_from (cur : string) (s : string) : list string :=
  match s with
  | EmptyString => [cur]
  | String c rest =>
      if Ascii.eqb c ","%char then cur :: split_comma_from EmptyString rest
      else split_comma_from (cur ++ String c EmptyString)%string rest
  end.

Definition split_comma (s : string) : list string :=
  split_comma_from EmptyString s.

Definition TS_FORMAT : string := "%Y%m%d%H%M%S%f".

Definition parse_label_frame `{PyStr} `{PyParse} (payload : list byte) (encoding : string)
  : result MboxLabelRecord :=
  match bytes_decode payload encoding with
  | None => Raise (ValueError "decode error")
  | Some decoded =>
    let text := str_strip decoded in
    let parts := split_comma text in
    if (Z.of_nat (length parts) <? 10)%Z then
      Raise (ValueError ("expected at least 10 fields, got "
                         ++ pretty (Z.of_nat (length parts))))
    else
      try! ts_raw := list_index parts 0 in
      match datetime_strptime ts_raw TS_FORMAT with
      | None => Raise (ValueError ("invalid datetime '" ++ ts_raw ++ "'"))
      | Some dt =>
        try! p9 := list_index parts 9 in
        match float_of_str p9 with
        | None => Raise (ValueError "invalid weight value")
        | Some n_weight =>
          try! p10 := list_index parts 10 in
          match float_of_str p10 with
          | None => Raise (ValueError "invalid weight value")
          | Some r_weight =>
            try! p6 := list_index parts 6 in
            try! p8 := list_index parts 8 in
            try! p7 := list_index parts 7 in
            Ok {| dt := dt;
                  sFishType := str_strip p6;
                  sSize := str_strip p8;
                  nWeight := n_weight;
                  rWeight := r_weight;
                  sSNumber := str_strip p7 |}
          end
        end
      end
  end.

(** The number of columns of a payload, when it decodes. *)
Definition columns `{PyStr} `{PyParse} (payload : list byte) (encoding : string)
  : option nat :=
  option_map (fun decoded => length (split_comma (str_strip decoded)))
             (bytes_decode payload encoding).

End MboxParser.

(** *** A sample instance of the parser's library calls

    It agrees with Python on the inputs used below: ASCII decoding,
    fixed-width all-digit timestamps for the format of the parser, and
    short unsigned decimal literals. Everything else is rejected by the
    sample, which Python need not do. *)

Module SampleParse.

Definition decode_ascii (payload : list byte) (encoding : string) : option string :=
  if forallb (fun b => (byte_val b <? 128)%Z) payload
  then Some (string_of_list_ascii (map ascii_of_byte payload))
  else None.

Definition digit_val (c : ascii) : option Z :=
  let n := Z.of_N (N_of_ascii c) in
  if ((48 <=? n) && (n <=? 57))%Z then Some (n - 48)%Z else None.

Fixpoint digits_val (acc : Z) (s : list ascii) : option Z :=
  match s with
  | [] => Some acc
  | c :: rest =>
      match digit_val c with
      | Some d => digits_val (10 * acc + d)%Z rest
      | None => None
      end
  end.

Definition field (s : list ascii) (a n : nat) : option Z :=
  let f := firstn n (skipn a s) in
  if (length f =? n)%nat then digits_val 0 f else None.

Definition in_range (lo hi v : Z) : bool := ((lo <=? v) && (v <=? hi))%Z.

(** [YYYYmmddHHMMSS] followed by one to six digits of fraction. *)
Definition strptime_digits (s : string) (format : string) : option datetime :=
  let cs := list_ascii_of_string s in
  let frac := skipn 14 cs in
  match field cs 0 4, field cs 4 2, field cs 6 2,
        field cs 8 2, field cs 10 2, field cs 12 2, digits_val 0 frac with
  | Some y, Some mo, Some d, Some h, Some mi, Some sec, Some f =>
      if in_range 1 9999 y && in_range 1 12 mo && in_range 1 28 d
         && in_range 0 23 h && in_range 0 59 mi && in_range 0 59 sec
         && (1 <=? length frac)%nat && (length frac <=? 6)%nat
      then Some {| year := y; month := mo; day := d; hour := h; minute := mi;
                   second := sec;
                   microsecond := (f * 10 ^ Z.of_nat (6 - length frac))%Z |}
      else None
  | _, _, _, _, _, _, _ => None
  end.

Fixpoint before_dot (cs : list ascii) : list ascii :=
  match cs with
  | [] => []
  | c :: rest => if Ascii.eqb c "."%char then [] else c :: before_dot rest
  end.

Definition split_dot (cs : list ascii) : list ascii * list ascii :=
  let ip := before_dot cs in
  (ip, skipn (S (length ip)) cs).

(** [digits] or [digits.digits], at most 15 digits in all, as the
    correctly rounded quotient of two exactly represented integers. *)
Definition float_decimal (s : string) : option float :=
  let cs := list_ascii_of_string s in
  let '(ip, fp) := split_dot cs in
  if (1 <=? length ip)%nat && (length ip + length fp <=? 15)%nat then
    match digits_val 0 (ip ++ fp) with
    | Some n =>
        Some (PrimFloat.div (PrimFloat.of_uint63 (Uint63.of_Z n))
                (PrimFloat.of_uint63 (Uint63.of_Z (10 ^ Z.of_nat (length fp)))))
    | None => None
    end
  else None.

End SampleParse.

#[export] Instance sample_parse : PyParse :=
  {| bytes_decode := SampleParse.decode_ascii;
     datetime_strptime := SampleParse.strptime_digits;
     float_of_str := SampleParse.float_decimal |}.

Module MboxParserSamples.
Import EasySerialFramer.

(** The label of the end-to-end mbox scenario (13 columns). *)
Definition label_13 : list byte :=
  bytes_of_string "20240101123015999,H,F,,0,0,MACKEREL,SN123,M,12.5,13.1,,AA".

(** The same label cut after its tenth column. *)
Definition label_10 : list byte :=
  bytes_of_string "20240101123015999,H,F,,0,0,MACKEREL,SN123,M,12.5".

(** Two columns, as in the parser's own test for short payloads. *)
Definition label_2 : list byte := bytes_of_string "20240101,ABC".

End MboxParserSamples.

(** ** Mbox worker: counter reconciliation (loggers/mbox/worker.py) *)

Module MboxWorker.
Import MboxConfig MboxLabel MboxTransform QueryTemplate MboxParser.
Local Open Scope Z_scope.

(** The connection configuration, as far as the worker reads it. *)
Record LoggerConnectionConfig : Type := {
  enabled : bool;
  query_template : option string;
  mbox : MboxConfig
}.

(** A DB writer seen from the worker: whether its k-th call of [write]
    (counting from 0) raises. *)
Record DBWriter : Type := {
  write_raises : nat → bool
}.

(** [(connection_id, device_id) -> total_count or None] *)
Definition CounterTotalProvider : Type := Z → Z → option Z.

(** The worker. Of the metrics only the counters are kept (in the two
    dictionaries of the base class); the log buffers, the timestamps and
    the latency averages, which hold wall-clock text, are left out.
    [db_write_calls] records the calls of [db_writer.write], in order. *)
Record MboxConnectionWorker : Type := {
  _config : LoggerConnectionConfig;
  _db_writer : option DBWriter;
  _counter_total_provider : option CounterTotalProvider;
  _transformer : MboxTransformer;
  _counter_last_total : option Z;
  _pending_pack_ts : option float;
  _miss_deadline_ts : option float;
  _pending_miss : Z;
  _last_good_vars : option (gmap string pyval);
  _metrics : gmap string Z;
  _extra_metrics : gmap string Z;
  db_write_calls : list (string * gmap string pyval)
}.

Definition _mbox_cfg (w : MboxConnectionWorker) : MboxConfig := mbox (_config w).

(** [MboxConnectionWorker(config, db_writer, counter_total_provider)] *)
Definition new_worker (config : LoggerConnectionConfig) (db_writer : option DBWriter)
    (provider : option CounterTotalProvider) : MboxConnectionWorker :=
  {| _config := config; _db_writer := db_writer;
     _counter_total_provider := provider;
     _transformer := new_transformer (mbox config);
     _counter_last_total := None; _pending_pack_ts := None;
     _miss_deadline_ts := None; _pending_miss := 0; _last_good_vars := None;
     _metrics := ∅; _extra_metrics := ∅; db_write_calls := [] |}.

(** Field assignments. *)
Definition set_transformer (v : MboxTransformer) (w : MboxConnectionWorker) :=
  {| _config := _config w; _db_writer := _db_writer w;
     _counter_total_provider := _counter_total_provider w;
     _transformer := v;
     _counter_last_total := _counter_last_total w;
     _pending_pack_ts := _pending_pack_ts w;
     _miss_deadline_ts := _miss_deadline_ts w; _pending_miss := _pending_miss w;
     _last_good_vars := _last_good_vars w;
     _metrics := _metrics w; _extra_metrics := _extra_metrics w;
     db_write_calls := db_write_calls w |}.

Definition set_counter_last_total (v : option Z) (w : MboxConnectionWorker) :=
  {| _config := _config w; _db_writer := _db_writer w;
     _counter_total_provider := _counter_total_provider w;
     _transformer := _transformer w;
     _counter_last_total := v;
     _pending_pack_ts := _pending_pack_ts w;
     _miss_deadline_ts := _miss_deadline_ts w; _pending_miss := _pending_miss w;
     _last_good_vars := _last_good_vars w;
     _metrics := _metrics w; _extra_metrics := _extra_metrics w;
     db_write_calls := db_write_calls w |}.

Definition set_pending_pack_ts (v : option float) (w : MboxConnectionWorker) :=
  {| _config := _config w; _db_writer := _db_writer w;
     _counter_total_provider := _counter_total_provider w;
     _transformer := _transformer w;
     _counter_last_total := _counter_last_total w;
     _pending_pack_ts := v;
     _miss_deadline_ts := _miss_deadline_ts w; _pending_miss := _pending_miss w;
     _last_good_vars := _last_good_vars w;
     _metrics := _metrics w; _extra_metrics := _extra_metrics w;
     db_write_calls := db_write_calls w |}.

Definition set_miss_deadline_ts (v : option float) (w : MboxConnectionWorker) :=
  {| _config := _config w; _db_writer := _db_writer w;
     _counter_total_provider := _counter_total_provider w;
     _transformer := _transformer w;
     _counter_last_total := _counter_last_total w;
     _pending_pack_ts := _pending_pack_ts w;
     _miss_deadline_ts := v; _pending_miss := _pending_miss w;
     _last_good_vars := _last_good_vars w;
     _metrics := _metrics w; _extra_metrics := _extra_metrics w;
     db_write_calls := db_write_calls w |}.

Definition set_pending_miss (v : Z) (w : MboxConnectionWorker) :=
  {| _config := _config w; _db_writer := _db_writer w;
     _counter_total_provider := _counter_total_provider w;
     _transformer := _transformer w;
     _counter_last_total := _counter_last_total w;
     _pending_pack_ts := _pending_pack_ts w;
     _miss_deadline_ts := _miss_deadline_ts w; _pending_miss := v;
     _last_good_vars := _last_good_vars w;
     _metrics := _metrics w; _extra_metrics := _extra_metrics w;
     db_write_calls := db_write_calls w |}.

Definition set_last_good_vars (v : option (gmap string pyval)) (w : MboxConnectionWorker) :=
  {| _config := _config w; _db_writer := _db_writer w;
     _counter_total_provider := _counter_total_provider w;
     _transformer := _transformer w;
     _counter_last_total := _counter_last_total w;
     _pending_pack_ts := _pending_pack_ts w;
     _miss_deadline_ts := _miss_deadline_ts w; _pending_miss := _pending_miss w;
     _last_good_vars := v;
     _metrics := _metrics w; _extra_metrics := _extra_metrics w;
     db_write_calls := db_write_calls w |}.

Definition set_metrics (v : gmap string Z) (w : MboxConnectionWorker) :=
  {| _config := _config w; _db_writer := _db_writer w;
     _counter_total_provider := _counter_total_provider w;
     _transformer := _transformer w;
     _counter_last_total := _counter_last_total w;
     _pending_pack_ts := _pending_pack_ts w;
     _miss_deadline_ts := _miss_deadline_ts w; _pending_miss := _pending_miss w;
     _last_good_vars := _last_good_vars w;
     _metrics := v; _extra_metrics := _extra_metrics w;
     db_write_calls := db_write_calls w |}.

Definition set_extra_metrics (v : gmap string Z) (w : MboxConnectionWorker) :=
  {| _config := _config w; _db_writer := _db_writer w;
     _counter_total_provider := _counter_total_provider w;
     _transformer := _transformer w;
     _counter_last_total := _counter_last_total w;
     _pending_pack_ts := _pending_pack_ts w;
     _miss_deadline_ts := _miss_deadline_ts w; _pending_miss := _pending_miss w;
     _last_good_vars := _last_good_vars w;
     _metrics := _metrics w; _extra_metrics := v;
     db_write_calls := db_write_calls w |}.

Definition set_db_write_calls (v : list (string * gmap string pyval))
    (w : MboxConnectionWorker) :=
  {| _config := _config w; _db_writer := _db_writer w;
     _counter_total_provider := _counter_total_provider w;
     _transformer := _transformer w;
     _counter_last_total := _counter_last_total w;
     _pending_pack_ts := _pending_pack_ts w;
     _miss_deadline_ts := _miss_deadline_ts w; _pending_miss := _pending_miss w;
     _last_good_vars := _last_good_vars w;
     _metrics := _metrics w; _extra_metrics := _extra_metrics w;
     db_write_calls := v |}.

(** *** Base-class helpers (loggers/base.py) *)

(** [target[name] = target.get(name, 0) + value] *)
Definition dict_inc (name : string) (value : Z) (target : gmap string Z) : gmap string Z :=
  <[ name := default 0 (target !! name) + value ]> target.

Definition _metric_inc (name : string) (value : Z) (extra : bool)
    (w : MboxConnectionWorker) : MboxConnectionWorker :=
  if extra then set_extra_metrics (dict_inc name value (_extra_metrics w)) w
  else set_metrics (dict_inc name value (_metrics w)) w.

Definition _set_error (w : MboxConnectionWorker) : MboxConnectionWorker :=
  set_metrics (dict_inc "consecutive_errors" 1 (dict_inc "errors_total" 1 (_metrics w))) w.

Definition _log_message (w : MboxConnectionWorker) : MboxConnectionWorker :=
  set_metrics (<[ "consecutive_errors"%string := 0 ]>
               (dict_inc "messages_total" 1 (_metrics w))) w.

(** *** Counter helpers *)

Definition _read_counter_total (w : MboxConnectionWorker) : option Z :=
  let cfg := _mbox_cfg w in
  if negb (ext_counter cfg) then None
  else match _counter_total_provider w with
       | None => None
       | Some provider =>
           match counter_connection_id cfg, counter_device_id cfg with
           | Some counter_conn_id, Some device_id => provider counter_conn_id device_id
           | _, _ => None
           end
       end.

Definition _tick_counter_logic (now : float) (w : MboxConnectionWorker)
  : MboxConnectionWorker :=
  match _read_counter_total w with
  | None => w
  | Some total =>
    match _counter_last_total w with
    | None => set_counter_last_total (Some total) w
    | Some last =>
      let delta := total - last in
      if delta <=? 0 then w
      else
        let w := _metric_inc "counter_increments_total" delta true w in
        let w := set_counter_last_total (Some total) w in
        match _pending_pack_ts w with
        | Some _ =>
            let w := set_pending_pack_ts None w in
            _metric_inc "counter_confirm_total" 1 true w
        | None =>
            let w := set_pending_miss (_pending_miss w + delta) w in
            let miss_timeout := counter_miss_timeout (_mbox_cfg w) in
            set_miss_deadline_ts (Some (PrimFloat.add now miss_timeout)) w
        end
    end
  end.

(** What a call leaves behind: the worker, and the exception that left
    the call, if one did. *)
Record outcome : Type := {
  after : MboxConnectionWorker;
  raised : option exn
}.

Definition returns (w : MboxConnectionWorker) : outcome :=
  {| after := w; raised := None |}.

Definition raises (e : exn) (w : MboxConnectionWorker) : outcome :=
  {| after := w; raised := Some e |}.

(** [build_query(self._config.query_template, vars)]; a template that
    is None fails in [len(template)]. *)
Definition build_query_opt `{PyStr} (template : option string)
    (vars : gmap string pyval) : result (string * gmap string pyval) :=
  match template with
  | None => Raise (TypeError "object of type 'NoneType' has no len()")
  | Some t => build_query t vars
  end.

(** [self._db_writer.write(sql, params)] inside the try block, with the
    bookkeeping of the two branches; [on_success] is the rest of the try
    body. *)
Definition db_write (writer : DBWriter) (sql : string) (params : gmap string pyval)
    (on_success : MboxConnectionWorker → MboxConnectionWorker)
    (w : MboxConnectionWorker) : MboxConnectionWorker :=
  let k := length (db_write_calls w) in
  let w := set_db_write_calls (db_write_calls w ++ [(sql, params)]) w in
  if write_raises writer k then
    let w := _metric_inc "db_write_fail_total" 1 false w in
    _set_error w
  else on_success w.

(** The variables of a synthetic miss record. *)
Definition miss_vars (created_at : string) (w : MboxConnectionWorker) : gmap string pyval :=
  let cfg := _mbox_cfg w in
  let base : option (gmap string pyval) :=
    if String.eqb (miss_strategy cfg) "last" then _last_good_vars w else None in
  let base := match base with
              | Some b => b
              | None => miss_default cfg
              end in
  let vars_ := base in
  let vars_ := <[ "mbox_id"%string := VInt (mbox_id cfg) ]> vars_ in
  let vars_ := <[ "tare"%string := VFloat (tare cfg) ]> vars_ in
  let vars_ := <[ "lot"%string := VStr (lot cfg) ]> vars_ in
  let vars_ := <[ "on_error"%string := VBool true ]> vars_ in
  let vars_ := <[ "error_info"%string := VStr (miss_error_label cfg) ]> vars_ in
  <[ "created_at"%string := VStr created_at ]> vars_.

(** [_insert_miss_pack]; [created_at] is the text that [time.strftime]
    returns during the call. *)
Definition _insert_miss_pack `{PyStr} (created_at : string) (w : MboxConnectionWorker)
  : outcome :=
  if negb (enabled (_config w)) then returns w
  else match _db_writer w with
  | None => returns w
  | Some writer =>
    let vars_ := miss_vars created_at w in
    match build_query_opt (query_template (_config w)) vars_ with
    | Raise e => raises e w
    | Ok (sql, params) =>
      let w := _log_message w in
      returns
        (db_write writer sql params
           (fun w =>
              let w := _log_message w in
              let w := _metric_inc "db_writes_total" 1 false w in
              let w := _metric_inc "packs_total" 1 true w in
              _metric_inc "packs_miss_total" 1 true w)
           w)
    end
  end.

(** [for _ in range(n): self._insert_miss_pack()]; [clock i] is the
    timestamp text of pass [i]. An exception ends the loop. *)
Fixpoint insert_miss_packs `{PyStr} (n : nat) (i : nat) (clock : nat → string)
    (w : MboxConnectionWorker) : outcome :=
  match n with
  | O => returns w
  | S n' =>
      let o := _insert_miss_pack (clock i) w in
      match raised o with
      | Some e => o
      | None => insert_miss_packs n' (S i) clock (after o)
      end
  end.

Definition _tick_miss_insert `{PyStr} (now : float) (clock : nat → string)
    (w : MboxConnectionWorker) : outcome :=
  match _miss_deadline_ts w with
  | None => returns w
  | Some deadline =>
    if PrimFloat.ltb now deadline then returns w
    else
      let w := set_miss_deadline_ts None w in
      if _pending_miss w <=? 0 then returns w
      else
        let limit := miss_insert_limit (_mbox_cfg w) in
        let n := Z.min (_pending_miss w) (Z.max limit 1) in
        let w := set_pending_miss (_pending_miss w - n) w in
        insert_miss_packs (Z.to_nat n) 0 clock w
  end.

(** *** Handling of a parsed pack *)

Definition is_empty_template (t : option string) : bool :=
  match t with
  | None => true
  | Some s => String.eqb s ""
  end.

Definition _handle_result `{PyStr} (result : MboxTransformResult)
    (w : MboxConnectionWorker) : outcome :=
  if negb (enabled (_config w)) then returns w
  else if is_empty_template (query_template (_config w)) then returns w
  else match _db_writer w with
  | None => returns w
  | Some writer =>
    match build_query_opt (query_template (_config w)) (variables result) with
    | Raise e => raises e w
    | Ok (sql, params) =>
      let w := _log_message w in
      returns
        (db_write writer sql params
           (fun w =>
              let w := set_last_good_vars (Some (variables result)) w in
              let w := _metric_inc "db_writes_total" 1 false w in
              let w := _metric_inc "packs_total" 1 true w in
              _metric_inc "packs_clean_total" 1 true w)
           w)
    end
  end.

(** The body of [for payload in frames] in [_run_loop]; [t] is the
    reading of [time.time()] after the transformation. The [except
    Exception] clause swallows whatever the try body raises. *)
Definition on_frame `{PyStr} `{PyParse} (payload : list byte) (t : float)
    (w : MboxConnectionWorker) : MboxConnectionWorker :=
  let w := _metric_inc "frames_total" 1 true w in
  let failed (w : MboxConnectionWorker) :=
    _set_error (_metric_inc "parse_fail_total" 1 true w) in
  match parse_label_frame payload (encoding (_mbox_cfg w)) with
  | Raise _ => failed w
  | Ok rec =>
    let w := _metric_inc "parse_ok_total" 1 true w in
    let '(result, tr) := transform (_transformer w) (mbox_id (_mbox_cfg w)) rec in
    let w := set_transformer tr w in
    let clean_timeout := counter_clean_timeout (_mbox_cfg w) in
    let w := set_pending_pack_ts (Some (PrimFloat.add t clean_timeout)) w in
    let o := _handle_result result w in
    match raised o with
    | Some _ => failed (after o)
    | None => after o
    end
  end.

(** The steps of the run loop that touch the reconciliation state. *)
Inductive event : Type :=
  | TickCounter (now : float)
  | TickMiss (now : float) (clock : nat → string)
  | Frame (payload : list byte) (t : float)
  | ProviderChange (provider : option CounterTotalProvider).

(** The counter worker publishing new totals is seen by this worker as a
    change of what its provider returns. *)
Definition set_provider (p : option CounterTotalProvider) (w : MboxConnectionWorker) :=
  {| _config := _config w; _db_writer := _db_writer w;
     _counter_total_provider := p;
     _transformer := _transformer w;
     _counter_last_total := _counter_last_total w;
     _pending_pack_ts := _pending_pack_ts w;
     _miss_deadline_ts := _miss_deadline_ts w; _pending_miss := _pending_miss w;
     _last_good_vars := _last_good_vars w;
     _metrics := _metrics w; _extra_metrics := _extra_metrics w;
     db_write_calls := db_write_calls w |}.

Definition step `{PyStr} `{PyParse} (e : event) (w : MboxConnectionWorker)
  : MboxConnectionWorker :=
  match e with
  | TickCounter now => _tick_counter_logic now w
  | TickMiss now clock => after (_tick_miss_insert now clock w)
  | Frame payload t => on_frame payload t w
  | ProviderChange p => set_provider p w
  end.

(** A run of the loop as the list of its steps. *)
Definition run `{PyStr} `{PyParse} (events : list event) (w : MboxConnectionWorker)
  : MboxConnectionWorker :=
  foldl (fun w e => step e w) w events.

(** The workers that the steps can reach from a new worker. *)
Inductive reachable `{PyStr} `{PyParse} : MboxConnectionWorker → Prop :=
  | reachable_new config db_writer provider :
      reachable (new_worker config db_writer provider)
  | reachable_step e w : reachable w → reachable (step e w).

(** The reconciliation state. *)
Definition reconciliation (w : MboxConnectionWorker)
  : option Z * option float * option float * Z * option (gmap string pyval) :=
  (_counter_last_total w, _pending_pack_ts w, _miss_deadline_ts w,
   _pending_miss w, _last_good_vars w).

(** The number of miss packs that a due [tick_miss] inserts. *)
Definition miss_batch (w : MboxConnectionWorker) : Z :=
  Z.min (_pending_miss w) (Z.max (miss_insert_limit (_mbox_cfg w)) 1).

(** *** Sample workers *)

Definition ok_writer : DBWriter := {| write_raises := fun _ => false |}.

Definition sample_mbox_cfg : MboxConfig :=
  {| mbox_id := 7; tare := 0.5%float; lot := "L1";
     treat_zero_as_error := true; treat_duplicate_as_error := true;
     error_label_zero := "no weight"; error_label_duplicate := "no weight";
     encoding := "ascii"; ext_counter := true;
     counter_connection_id := Some 3; counter_device_id := Some 1;
     counter_clean_timeout := 6%float; counter_miss_timeout := 4%float;
     miss_strategy := "last"; miss_default := ∅;
     miss_insert_limit := 2; miss_error_label := "scales error" |}.

(** A template over the fields that every miss record has. *)
Definition miss_template : string :=
  "INSERT INTO t VALUES ({mbox_id}, {on_error}, {error_info}, {lot}, {tare})".

(** A template that also asks for the fish name, as the default template
    of the worker does. *)
Definition fish_template : string :=
  "INSERT INTO t VALUES ({mbox_id}, {on_error}, {fish_name})".

Definition sample_connection (template : string) : LoggerConnectionConfig :=
  {| enabled := true; query_template := Some template; mbox := sample_mbox_cfg |}.

(** A worker that has seen three counter increments and no pack, with
    the miss deadline at 10 seconds. *)
Definition due_worker (template : string) : MboxConnectionWorker :=
  set_miss_deadline_ts (Some 10%float)
    (set_pending_miss 3
       (new_worker (sample_connection template) (Some ok_writer) None)).

Definition sample_clock (i : nat) : string := "2024-01-01 12:30:15".

(** The counter worker publishing [total] for every device. *)
Definition counter_at (total : Z) : option CounterTotalProvider :=
  Some (fun _ _ => Some total).

Definition fresh_worker : MboxConnectionWorker :=
  new_worker (sample_connection miss_template) (Some ok_writer) None.

(** Scenario "miss": the counter goes from 5 to 6 with no pack; the miss
    deadline is 1 + 4 seconds. *)
Definition miss_scenario : list event :=
  [ ProviderChange (counter_at 5); TickCounter 0%float;
    ProviderChange (counter_at 6); TickCounter 1%float;
    TickMiss 1%float sample_clock; TickMiss 4.5%float sample_clock ].

(** Scenario "clean": a pack is parsed at second 1, the counter goes from
    5 to 6 at second 2, and later ticks find nothing to insert. *)
Definition clean_scenario : list event :=
  [ ProviderChange (counter_at 5); TickCounter 0%float;
    Frame MboxParserSamples.label_13 1%float;
    ProviderChange (counter_at 6); TickCounter 2%float;
    TickMiss 2%float sample_clock; TickMiss 100%float sample_clock ].

End MboxWorker.

(** ** Counter emulator (misc/mbox_counter_emulator/mbox_counter_emulator.py)

    The emulator repeats [crc8_e5] and [build_read_request] of the
    protocol module and adds the builder of the response frame. *)

Module MboxCounterEmulator.
Import MboxCounterProtocol.
Local Open Scope Z_scope.

Definition build_read_response (serial_u16 total_count size_dir flags : Z)
  : result (list byte) :=
  try! a := int_to_bytes_le 2 serial_u16 in
  try! t := int_to_bytes_le 4 total_count in
  try! s := int_to_bytes_le 2 size_dir in
  try! f := byte_of_int (Z.land flags 0xFF) in
  let data := t ++ s ++ [f] in
  let L := 3 + Z.of_nat (length data) in
  try! bL := byte_of_int L in
  try! bC := byte_of_int C_READ_RESP in
  let header := [bL; bC] ++ a in
  try! hdr_crc := byte_of_int (crc8_e5 header) in
  try! data_crc := byte_of_int (crc8_e5 data) in
  try! bP := byte_of_int PREAMBLE in
  Ok ([bP] ++ header ++ [hdr_crc] ++ data ++ [data_crc]).

End MboxCounterEmulator.

(** ** Mbox framer (loggers/mbox/framer.py) *)

Module MboxFramer.

Definition STX : byte := x02.
Definition ETX : byte := x03.

(** [ord("$")] *)
Definition DOLLAR : byte := x24.

Definition index_of := MboxCounterFramer.index_of.
Definition prepend := MboxCounterFramer.prepend.

(** [buf.index(x, start)]: position of the first [x] at or after
    [start], [None] when the call raises ValueError. *)
Definition index_from (x : byte) (start : nat) (buf : list byte) : option nat :=
  option_map (Nat.add start) (index_of x (skipn start buf)).

(** The [while True] loop of [feed]; every pass that does not return
    deletes at least one byte of the buffer, so [fuel] above the buffer
    length is never used up ([mbox_feed_loop_total]). The result is the
    list of payloads and the buffer left in the framer, [None] when the
    fuel runs out. *)
Fixpoint feed_loop (fuel : nat) (buf : list byte) (frames : list (list byte))
  : option (list (list byte) * list byte) :=
  match fuel with
  | O => None
  | S fuel' =>
    match index_of STX buf with
    | None => Some (frames, [])
    | Some stx_idx =>
      let buf := if (0 <? stx_idx)%nat then skipn stx_idx buf else buf in
      if (length buf <? 3)%nat then Some (frames, buf)
      else
        match nth_error buf 1 with
        | None => None
        | Some b1 =>
          if negb (Byte.eqb b1 DOLLAR) then feed_loop fuel' (skipn 1 buf) frames
          else
            match index_from ETX 2 buf with
            | None => Some (frames, buf)
            | Some etx_idx =>
              let payload := slice buf 2 (Z.of_nat etx_idx) in
              feed_loop fuel' (skipn (etx_idx + 1) buf) (frames ++ [payload])
            end
        end
    end
  end.

(** The loop run on a whole buffer. *)
Definition scan (buf : list byte) : option (list (list byte) * list byte) :=
  feed_loop (S (length buf)) buf [].

(** [feed(data)] on a framer whose buffer is [buf]. *)
Definition feed (buf data : list byte) : option (list (list byte) * list byte) :=
  match data with
  | [] => Some ([], buf)
  | _ => scan (buf ++ data)
  end.

(** [MboxFramer()] *)
Definition new_framer : list byte := [].

End MboxFramer.

(** ** Auxiliary definitions for the proofs

    One pass of each framer's [feed] loop, written on the buffer as it
    stands after the synchronisation step, the shape of the buffer that
    a framer keeps between calls, and the inner loop of the template
    compiler. They restate the loops for the proofs below
    ([counter_scan_unfold], [mbox_scan_unfold], [compile_loop_unfold]). *)

Module MboxCounterFramerAux.
Import MboxCounterFramer.

(** One pass on a buffer [s] that starts at the preamble. *)
Definition pass (s : list byte) : option (list (list byte) * list byte) :=
  if (length s <? 2)%nat then Some ([], s)
  else
    match nth_error s 1 with
    | None => None
    | Some bl =>
        let frame_len := (4 + byte_val bl)%Z in
        if (frame_len <=? 0)%Z then scan (skipn 1 s)
        else if (Z.of_nat (length s) <? frame_len)%Z then Some ([], s)
        else option_map (prepend [firstn (Z.to_nat frame_len) s])
                        (scan (skipn (Z.to_nat frame_len) s))
    end.

(** A buffer that waits for the rest of a frame: empty, or starting at
    the preamble and shorter than the frame its length byte announces. *)
Definition waiting (buf : list byte) : Prop :=
  match buf with
  | [] => True
  | b0 :: rest =>
      b0 = PREAMBLE
      ∧ match rest with
        | [] => True
        | b1 :: _ => (Z.of_nat (length buf) < 4 + byte_val b1)%Z
        end
  end.

End MboxCounterFramerAux.

Module MboxFramerAux.
Import MboxFramer.

(** One pass on a buffer [s] that starts at STX. *)
Definition pass (s : list byte) : option (list (list byte) * list byte) :=
  if (length s <? 3)%nat then Some ([], s)
  else
    match nth_error s 1 with
    | None => None
    | Some b1 =>
        if negb (Byte.eqb b1 DOLLAR) then scan (skipn 1 s)
        else
          match index_from ETX 2 s with
          | None => Some ([], s)
          | Some etx_idx =>
              option_map (prepend [slice s 2 (Z.of_nat etx_idx)])
                         (scan (skipn (etx_idx + 1) s))
          end
    end.

(** A buffer that waits for the rest of a frame: empty, or starting at
    STX and either shorter than three bytes or holding the marker and
    no ETX after it. *)
Definition waiting (buf : list byte) : Prop :=
  match buf with
  | [] => True
  | b0 :: rest =>
      b0 = STX
      ∧ ((length buf < 3)%nat
         ∨ (nth_error buf 1 = Some DOLLAR ∧ ¬ In ETX (skipn 2 buf)))
  end.

End MboxFramerAux.

Module QueryTemplateAux.
Import QueryTemplate.

(** The placeholder scan of [compile_query_template], the inner
    [while j < n and template[j] != "}"] loop, with the outer loop it
    resumes as a parameter ([compile_loop_unfold]). *)
Fixpoint scan_placeholder `{PyStr}
    (resume : string → list string → gset string → result CompiledQueryTemplate)
    (result_parts : list string) (names : gset string) (s inner : string) {struct s}
  : result CompiledQueryTemplate :=
  match s with
  | EmptyString => Raise (QueryTemplateError "Unmatched '{' in query template")
  | String c s' =>
      if is_rbrace c then
        let name := str_strip inner in
        if String.eqb name "" then
          Raise (QueryTemplateError "Empty placeholder '{}' in query template")
        else if negb (str_isidentifier name) then
          Raise (QueryTemplateError
                   ("Invalid placeholder name '" ++ name ++ "' in query template"))
        else resume s' (result_parts ++ [(":" ++ name)%string]) ({[ name ]} ∪ names)
      else scan_placeholder resume result_parts names s' (snoc_char inner c)
  end.

End QueryTemplateAux.

Module MboxWorkerAux.
Import MboxWorker.
Local Open Scope Z_scope.

(** [target.get(name, 0)] *)
Definition metric (name : string) (target : gmap string Z) : Z :=
  default 0 (target !! name).

(** The counters of packs, writes and frames, and the number of calls
    of [db_writer.write]. *)
Record tally : Type := {
  packs_total : Z;
  packs_clean_total : Z;
  packs_miss_total : Z;
  db_writes_total : Z;
  db_write_fail_total : Z;
  write_calls : Z;
  frames_total : Z;
  parse_ok_total : Z;
  parse_fail_total : Z
}.

Definition tally_of (w : MboxConnectionWorker) : tally :=
  {| packs_total := metric "packs_total" (_extra_metrics w);
     packs_clean_total := metric "packs_clean_total" (_extra_metrics w);
     packs_miss_total := metric "packs_miss_total" (_extra_metrics w);
     db_writes_total := metric "db_writes_total" (_metrics w);
     db_write_fail_total := metric "db_write_fail_total" (_metrics w);
     write_calls := Z.of_nat (length (db_write_calls w));
     frames_total := metric "frames_total" (_extra_metrics w);
     parse_ok_total := metric "parse_ok_total" (_extra_metrics w);
     parse_fail_total := metric "parse_fail_total" (_extra_metrics w) |}.

(** The relations between the counters that every step keeps. *)
Definition balanced (t : tally) : Prop :=
  packs_total t = packs_clean_total t + packs_miss_total t
  ∧ db_writes_total t = packs_total t
  ∧ db_writes_total t + db_write_fail_total t = write_calls t
  ∧ 0 ≤ packs_clean_total t ∧ 0 ≤ packs_miss_total t ∧ 0 ≤ db_write_fail_total t
  ∧ 0 ≤ parse_ok_total t ≤ frames_total t
  ∧ 0 ≤ parse_fail_total t ≤ frames_total t
  ∧ frames_total t ≤ parse_ok_total t + parse_fail_total t
  ∧ packs_clean_total t ≤ parse_ok_total t.

(** The stored counter total and the sum of the increments seen. *)
Definition counter_view (w : MboxConnectionWorker) : option Z * Z :=
  (_counter_last_total w, metric "counter_increments_total" (_extra_metrics w)).

End MboxWorkerAux.

(** ** Easy-serial payload parser (loggers/easy_serial/config.py, parser.py) *)

(** The conversions of the parser are library code and are kept
    abstract: [str.lower], [int(s)], [float(s)] and
    [datetime.strptime(s, format)], each with whatever it raises. *)
Class PyConv : Type := {
  str_lower : string → string;
  py_int : string → result Z;
  py_float : string → result float;
  py_strptime : string → string → result datetime
}.

Module EasySerialParser.

Record EasySerialParsedFieldConfig : Type := {
  index : Z;
  name : string;
  type : string;
  format : option string
}.

Record EasySerialParserSettings : Type := {
  preamble : option string;
  terminator : string;
  separator : string;
  encoding : string;
  fields : list EasySerialParsedFieldConfig
}.

(** The scan of [str.split(sep)] for a non-empty [sep]: [cur] is the
    part collected so far, [skip] the number of characters of a
    separator just matched that are still to be passed over. *)
Fixpoint split_from (sep : string) (skip : nat) (s cur : string) : list string :=
  match s with
  | EmptyString => [cur]
  | String c rest =>
      match skip with
      | S skip' => split_from sep skip' rest cur
      | O =>
          if String.prefix sep s
          then cur :: split_from sep (String.length sep - 1) rest EmptyString
          else split_from sep O rest (cur ++ String c EmptyString)%string
      end
  end.

(** [s.split(sep)] *)
Definition str_split (s sep : string) : result (list string) :=
  if String.eqb sep "" then Raise (ValueError "empty separator")
  else Ok (split_from sep O s EmptyString).

Fixpoint _find_field_cfg (fields : list EasySerialParsedFieldConfig) (idx : Z)
  : option EasySerialParsedFieldConfig :=
  match fields with
  | [] => None
  | f :: rest => if (index f =? idx)%Z then Some f else _find_field_cfg rest idx
  end.

Definition _coerce_value `{PyConv} (raw : string)
    (cfg : option EasySerialParsedFieldConfig) : result pyval :=
  match cfg with
  | None => Ok (VStr raw)
  | Some cfg =>
      let t := str_lower (if String.eqb (type cfg) "" then "string" else type cfg) in
      if String.eqb t "string" then Ok (VStr raw)
      else if String.eqb t "int" then
        try! z := py_int raw in Ok (VInt z)
      else if String.eqb t "float" then
        try! x := py_float raw in Ok (VFloat x)
      else if String.eqb t "datetime" || String.eqb t "date" || String.eqb t "time" then
        match format cfg with
        | Some (String c fmt) =>
            try! d := py_strptime raw (String c fmt) in Ok (VDatetime d)
        | _ =>
            Raise (ValueError ("Field " ++ pretty (index cfg)
                               ++ ": format is required for " ++ t))
        end
      else Ok (VStr raw)
  end.

(** The [for field in settings.fields] loop on the fields still to be
    read, with the [result] dict so far. *)
Fixpoint parse_fields `{PyStr} `{PyConv} (all_fields : list EasySerialParsedFieldConfig)
    (parts : list string) (todo : list EasySerialParsedFieldConfig)
    (result_ : gmap string pyval) : result (gmap string pyval) :=
  match todo with
  | [] => Ok result_
  | field :: rest =>
      if (index field <? 0)%Z || (Z.of_nat (length parts) <=? index field)%Z then
        Raise (IndexError ("Variable '" ++ name field ++ "' refers to index "
                           ++ pretty (index field) ++ ", but only "
                           ++ pretty (Z.of_nat (length parts)) ++ " fields present"))
      else
        try! part := list_index parts (index field) in
        let raw_value := str_strip part in
        let field_cfg := _find_field_cfg all_fields (index field) in
        try! value := _coerce_value raw_value field_cfg in
        parse_fields all_fields parts rest (<[ name field := value ]> result_)
  end.

Definition parse_payload_text `{PyStr} `{PyConv} (payload_text : string)
    (settings : EasySerialParserSettings) : result (gmap string pyval) :=
  try! parts := str_split payload_text (separator settings) in
  parse_fields (fields settings) parts (fields settings) ∅.

(** Sample settings: separator [;] and the given fields. *)
Definition sample_settings (fs : list EasySerialParsedFieldConfig)
  : EasySerialParserSettings :=
  {| preamble := None; terminator := String (ascii_of_N 10) EmptyString;
     separator := ";";
     encoding := "utf-8"; fields := fs |}.

(** A field without format. *)
Definition fld (i : Z) (n t : string) : EasySerialParsedFieldConfig :=
  {| index := i; name := n; type := t; format := None |}.

End EasySerialParser.

(** *** An instance for decimal integers *)

Module SampleConv.

Definition lower_char (c : ascii) : ascii :=
  let n := N_of_ascii c in
  if ((65 <=? n) && (n <=? 90))%N then ascii_of_N (n + 32) else c.

Fixpoint lower (s : string) : string :=
  match s with
  | EmptyString => EmptyString
  | String c rest => String (lower_char c) (lower rest)
  end.

Definition int_of_str (s : string) : result Z :=
  let bad := Raise (ValueError "invalid literal for int() with base 10") in
  match list_ascii_of_string s with
  | [] => bad
  | c :: rest =>
      if Ascii.eqb c "-"%char then
        match rest with
        | [] => bad
        | _ => match SampleParse.digits_val 0 rest with
               | Some z => Ok (- z)%Z
               | None => bad
               end
        end
      else match SampleParse.digits_val 0 (c :: rest) with
           | Some z => Ok z
           | None => bad
           end
  end.

Definition float_of (s : string) : result float :=
  match SampleParse.float_decimal s with
  | Some x => Ok x
  | None => Raise (ValueError "could not convert string to float")
  end.

Definition strptime (s fmt : string) : result datetime :=
  match SampleParse.strptime_digits s fmt with
  | Some d => Ok d
  | None => Raise (ValueError "time data does not match format")
  end.

End SampleConv.

#[export] Instance sample_conv : PyConv :=
  {| str_lower := SampleConv.lower;
     py_int := SampleConv.int_of_str;
     py_float := SampleConv.float_of;
     py_strptime := SampleConv.strptime |}.

(** ** Mbox-counter worker: polling (loggers/mbox_counter/config.py, worker.py) *)

Module MboxCounterWorker.
Local Open Scope Z_scope.

Record MboxCounterDeviceConfig : Type := {
  device_id : Z;
  name : string;
  serial : Z;
  enabled : bool
}.

(** The worker, as far as polling reads and writes it: the framer's
    buffer, the cached totals, the counters of the two metric
    dictionaries (a key that is absent stands for its initial 0), and
    the requests written to the port, in order. *)
Record MboxCounterConnectionWorker : Type := {
  _framer : list byte;
  _totals : gmap Z Z;
  _metrics : gmap string Z;
  _extra_metrics : gmap string Z;
  written : list (list byte)
}.

(** [MboxCounterConnectionWorker(config)] *)
Definition new_worker : MboxCounterConnectionWorker :=
  {| _framer := MboxCounterFramer.new_framer; _totals := ∅;
     _metrics := ∅; _extra_metrics := ∅; written := [] |}.

Definition get_total (w : MboxCounterConnectionWorker) (id : Z) : option Z :=
  _totals w !! id.

Definition set_framer (v : list byte) (w : MboxCounterConnectionWorker) :=
  {| _framer := v; _totals := _totals w; _metrics := _metrics w;
     _extra_metrics := _extra_metrics w; written := written w |}.

Definition set_totals (v : gmap Z Z) (w : MboxCounterConnectionWorker) :=
  {| _framer := _framer w; _totals := v; _metrics := _metrics w;
     _extra_metrics := _extra_metrics w; written := written w |}.

Definition set_metrics (v : gmap string Z) (w : MboxCounterConnectionWorker) :=
  {| _framer := _framer w; _totals := _totals w; _metrics := v;
     _extra_metrics := _extra_metrics w; written := written w |}.

Definition set_extra_metrics (v : gmap string Z) (w : MboxCounterConnectionWorker) :=
  {| _framer := _framer w; _totals := _totals w; _metrics := _metrics w;
     _extra_metrics := v; written := written w |}.

Definition set_written (v : list (list byte)) (w : MboxCounterConnectionWorker) :=
  {| _framer := _framer w; _totals := _totals w; _metrics := _metrics w;
     _extra_metrics := _extra_metrics w; written := v |}.

(** [self._metric_inc(name, extra=True)] *)
Definition inc_extra (name : string) (w : MboxCounterConnectionWorker) :=
  set_extra_metrics (MboxWorker.dict_inc name 1 (_extra_metrics w)) w.

Definition _set_error (w : MboxCounterConnectionWorker) :=
  set_metrics (MboxWorker.dict_inc "consecutive_errors" 1
                 (MboxWorker.dict_inc "errors_total" 1 (_metrics w))) w.

Definition _log_message (w : MboxCounterConnectionWorker) :=
  set_metrics (<[ "consecutive_errors"%string := 0 ]>
               (MboxWorker.dict_inc "messages_total" 1 (_metrics w))) w.

(** What leaves [_poll_device]: TimeoutError, the RuntimeError of a
    closed port, or an exception of the protocol functions. *)
Inductive poll_exn : Type :=
  | TimeoutError (msg : string)
  | RuntimeError (msg : string)
  | Other (e : exn).

(** How the [for fr in frames] loop ends: with the [return] after a
    matching response, at the end of the list, or with an exception
    that [except ValueError] does not catch. *)
Inductive frames_end : Type :=
  | Found (w : MboxCounterConnectionWorker)
  | NotFound (w : MboxCounterConnectionWorker)
  | Escaped (e : exn) (w : MboxCounterConnectionWorker).

Fixpoint handle_frames (dev : MboxCounterDeviceConfig) (frames : list (list byte))
    (w : MboxCounterConnectionWorker) : frames_end :=
  match frames with
  | [] => NotFound w
  | fr :: rest =>
      match MboxCounterProtocol.parse_response_frame fr with
      | Ok parsed =>
          if negb (MboxCounterProtocol.serial parsed =? serial dev)
          then handle_frames dev rest w
          else
            let w := inc_extra "responses_total" w in
            let w := set_totals (<[ device_id dev :=
                                    MboxCounterProtocol.total_count parsed ]> (_totals w)) w in
            Found (_log_message w)
      | Raise (ValueError msg) | Raise (QueryTemplateError msg) =>
          let w := if ModbusTcp.str_contains "crc" msg
                   then inc_extra "crc_fail_total" w
                   else inc_extra "parse_fail_total" w in
          handle_frames dev rest w
      | Raise e => Escaped e w
      end
  end.

(** The [while] loop of [_poll_device] over the chunks that
    [_read_serial] returns before the deadline; [None] only if the
    framer ran out of fuel, which it does not
    ([MboxCounterFramerFacts.counter_feed_total]). *)
Fixpoint poll_loop (dev : MboxCounterDeviceConfig) (chunks : list (list byte))
    (w : MboxCounterConnectionWorker)
  : option (MboxCounterConnectionWorker * option poll_exn) :=
  match chunks with
  | [] =>
      Some (inc_extra "timeouts_total" w,
            Some (TimeoutError "no response frame before timeout"))
  | chunk :: rest =>
      match chunk with
      | [] => poll_loop dev rest w
      | _ :: _ =>
          match MboxCounterFramer.feed (_framer w) chunk with
          | None => None
          | Some (frames, buf) =>
              match handle_frames dev frames (set_framer buf w) with
              | Found w => Some (w, None)
              | NotFound w => poll_loop dev rest w
              | Escaped e w => Some (w, Some (Other e))
              end
          end
      end
  end.

(** [_poll_device(dev)]; [port_open] tells whether [_write_serial]
    finds the port open. *)
Definition _poll_device (dev : MboxCounterDeviceConfig) (port_open : bool)
    (chunks : list (list byte)) (w : MboxCounterConnectionWorker)
  : option (MboxCounterConnectionWorker * option poll_exn) :=
  match MboxCounterProtocol.build_read_request (serial dev) with
  | Raise e => Some (w, Some (Other e))
  | Ok req =>
      let w := inc_extra "requests_total" w in
      if negb port_open then Some (w, Some (RuntimeError "serial is not open"))
      else
        let w := set_written (written w ++ [req]) w in
        poll_loop dev chunks w
  end.

(** The body of [for dev in self._cfg.devices] in [_poll_once]. *)
Definition poll_guarded (dev : MboxCounterDeviceConfig) (port_open : bool)
    (chunks : list (list byte)) (w : MboxCounterConnectionWorker)
  : option MboxCounterConnectionWorker :=
  if negb (enabled dev) then Some w
  else
    match _poll_device dev port_open chunks w with
    | None => None
    | Some (w, None) => Some w
    | Some (w, Some _) => Some (_set_error (inc_extra "parse_fail_total" w))
    end.

(** A device with the serial of the reference frames. *)
Definition device_1A78 : MboxCounterDeviceConfig :=
  {| device_id := 1; name := "counter"; serial := 0x1A78; enabled := true |}.

End MboxCounterWorker.

(** ** Settings manager: the list of connections (core/settings_manager.py) *)

Module SettingsManager.
Local Open Scope Z_scope.

(** A connection, as far as the manager reads it: its id, its name and
    the rest of its fields, which the manager only carries along. *)
Record LoggerConnectionConfig (T : Type) : Type := {
  id : option Z;
  name : string;
  fields : T
}.
Arguments id {T} _.
Arguments name {T} _.
Arguments fields {T} _.

(** ConnectionNameAlreadyExistsError, a ValueError. *)
Inductive settings_error : Type :=
  | ConnectionNameAlreadyExistsError (msg : string).

Section Connections.
Context {T : Type}.

(** The connections of the settings file. Every method loads the file,
    works on the list and, if it changes it, saves the file; a missing or
    empty file loads as the empty list. *)
Definition connections : Type := list (LoggerConnectionConfig T).

(** [a == b] on [Optional[int]]. *)
Definition id_eqb (a b : option Z) : bool :=
  match a, b with
  | Some x, Some y => x =? y
  | None, None => true
  | _, _ => false
  end.

(** [f"{id}"] for an [Optional[int]]. *)
Definition id_text (a : option Z) : string :=
  match a with
  | Some x => pretty x
  | None => "None"
  end.

Fixpoint get_connection (conns : connections) (conn_id : Z)
  : option (LoggerConnectionConfig T) :=
  match conns with
  | [] => None
  | conn :: rest =>
      if id_eqb (id conn) (Some conn_id) then Some conn else get_connection rest conn_id
  end.

(** [max((c.id or 0) for c in connections)] on a non-empty list. *)
Fixpoint max_id (first : LoggerConnectionConfig T) (rest : connections) : Z :=
  match rest with
  | [] => default 0 (id first)
  | c :: rest' => Z.max (default 0 (id first)) (max_id c rest')
  end.

Definition _assign_new_connection_id (conns : connections) : Z :=
  match conns with
  | [] => 1
  | c :: rest => max_id c rest + 1
  end.

(** The uniqueness check of [upsert_connection]: the first connection
    with the same name and another id. *)
Fixpoint name_conflict (connection : LoggerConnectionConfig T) (conns : connections)
  : option (LoggerConnectionConfig T) :=
  match conns with
  | [] => None
  | existing :: rest =>
      if String.eqb (name existing) (name connection)
         && negb (id_eqb (id existing) (id connection))
      then Some existing
      else name_conflict connection rest
  end.

(** The [for idx, existing in enumerate(connections)] loop: the list
    with the first connection of that id replaced, [None] when the loop
    ends without [break]. *)
Fixpoint replace_first (connection : LoggerConnectionConfig T) (conns : connections)
  : option connections :=
  match conns with
  | [] => None
  | existing :: rest =>
      if id_eqb (id existing) (id connection) then Some (connection :: rest)
      else option_map (cons existing) (replace_first connection rest)
  end.

(** [upsert_connection(connection)]: the connection returned and the
    list saved. *)
Definition upsert_connection (connection : LoggerConnectionConfig T) (conns : connections)
  : settings_error + (LoggerConnectionConfig T * connections) :=
  match name_conflict connection conns with
  | Some existing =>
      inl (ConnectionNameAlreadyExistsError
             ("Connection with name '" ++ name connection
              ++ "' already exists (id=" ++ id_text (id existing) ++ ")"))
  | None =>
      match id connection with
      | None =>
          let new_id := _assign_new_connection_id conns in
          let connection := {| id := Some new_id; name := name connection;
                               fields := fields connection |} in
          inr (connection, conns ++ [connection])
      | Some _ =>
          match replace_first connection conns with
          | Some conns' => inr (connection, conns')
          | None => inr (connection, conns ++ [connection])
          end
      end
  end.

(** [delete_connection(conn_id)]: the flag returned and the list in the
    file afterwards. *)
Definition delete_connection (conn_id : Z) (conns : connections) : bool * connections :=
  let new_connections :=
    List.filter (fun c => negb (id_eqb (id c) (Some conn_id))) conns in
  let deleted := negb (length new_connections =? length conns)%nat in
  if deleted then (true, new_connections) else (false, conns).

(** Ids are set and distinct, names are distinct. *)
Definition well_formed (conns : connections) : Prop :=
  Forall (fun c => is_Some (id c)) conns
  ∧ NoDup (map id conns) ∧ NoDup (map name conns).

End Connections.

End SettingsManager.

(** * Theorems

    The sections below follow the order of the definitions above. Loops
    that the source writes as [while True] over a shrinking buffer are
    modelled with fuel; for each of them a totality lemma shows that the
    fuel given by [feed] is never used up. *)

Lemma byte_val_range (b : byte) : (0 ≤ byte_val b < 256)%Z.
Proof.
  unfold byte_val. pose proof (Byte.to_N_bounded b). lia.
Qed.

(** ** Mbox-counter wire protocol *)

Module MboxCounterProtocolFacts.
Import MboxCounterProtocol.
Local Open Scope Z_scope.

(** CRC8/E5 reference vectors. *)
Example crc8_vector_req_header : crc8_e5 [x05; x43; x78; x1a] = 0x1F.
Proof. reflexivity. Qed.
Example crc8_vector_req_data : crc8_e5 [x01; x00] = 0xF3.
Proof. reflexivity. Qed.
Example crc8_vector_resp_header : crc8_e5 [x0a; x08; x78; x1a] = 0xCD.
Proof. reflexivity. Qed.
Example crc8_vector_resp_data : crc8_e5 [x28; x1c; x29; x00; x01; x00; x05] = 0x0D.
Proof. reflexivity. Qed.

(** C7: [build_read_request(0x1A78)] is exactly
    [27 05 43 78 1a 1f 01 00 f3], and [parse_response_frame] accepts
    [27 0a 08 78 1a cd 28 1c 29 00 01 00 05 0d] and returns serial
    0x1A78, total_count 2694184 and flags 0x05; the header and data
    CRC8/E5 bytes of both frames are the ones the code computes. *)
Theorem request_response_reference_vectors :
  build_read_request 0x1A78 = Ok request_1A78
  ∧ (∃ r, parse_response_frame response_1A78 = Ok r
          ∧ serial r = 0x1A78 ∧ total_count r = 2694184 ∧ flags r = 0x05)
  ∧ crc8_e5 (slice request_1A78 1 5) = 0x1F
  ∧ crc8_e5 (slice request_1A78 6 8) = 0xF3
  ∧ crc8_e5 (slice response_1A78 1 5) = 0xCD
  ∧ crc8_e5 (slice response_1A78 6 13) = 0x0D.
Proof.
  split; [vm_compute; reflexivity|].
  split; [|repeat split; vm_compute; reflexivity].
  eexists. split; [vm_compute; reflexivity|].
  repeat split; reflexivity.
Qed.

End MboxCounterProtocolFacts.

(** ** Worker state field *)

Module WorkerFacts.
Import Worker.

Lemma stop_state (k : worker_kind) (w : worker) : state (stop k w) = STOPPING.
Proof. destruct k; reflexivity. Qed.

(** C3, as stated, fails: [stop] on a freshly created mbox worker (not
    RUNNING) changes its state from CREATED to STOPPING. *)
Lemma stop_not_running_changes_state :
  ¬ (∀ k w, state w ≠ RUNNING → state (stop k w) = state w).
Proof.
  intros H. specialize (H MboxWorker new_worker). simpl in H.
  assert (STOPPING = CREATED) as E by (apply H; discriminate).
  discriminate E.
Qed.

(** C3, amended: for every worker, [stop] sets the state field to
    STOPPING and sets the stop event whatever the previous state was;
    the state field is unchanged by the call exactly when it already
    was STOPPING. *)
Theorem stop_sets_stopping (k : worker_kind) (w : worker) :
  state (stop k w) = STOPPING
  ∧ stop_event (stop k w) = true
  ∧ (state (stop k w) = state w ↔ state w = STOPPING).
Proof.
  rewrite stop_state. split; [reflexivity|]. split.
  - destruct k; reflexivity.
  - split; intros E; congruence.
Qed.

End WorkerFacts.

(** ** Mbox-counter framer *)

Module MboxCounterFramerFacts.
Import MboxCounterFramer.

Example feed_response :
  feed new_framer ([xff; x00] ++ MboxCounterProtocol.response_1A78 ++ [x01])
  = Some ([MboxCounterProtocol.response_1A78], []).
Proof. vm_compute. reflexivity. Qed.

Example feed_split :
  feed [x27; x0a; x08] [x78; x1a; xcd; x28; x1c; x29; x00; x01; x00; x05; x0d; x27]
  = Some ([MboxCounterProtocol.response_1A78], [x27]).
Proof. vm_compute. reflexivity. Qed.

(** *** Facts about [index_of] *)

Lemma index_of_None (x : byte) (buf : list byte) :
  index_of x buf = None ↔ ¬ In x buf.
Proof.
  induction buf as [|b rest IH]; simpl.
  - split; [intros _ []|reflexivity].
  - destruct (Byte.eqb b x) eqn:E.
    + apply Byte.byte_dec_bl in E. split; [discriminate|]. intros H. exfalso. auto.
    + assert (b ≠ x) as Hne.
      { intros ->. rewrite (Byte.byte_dec_lb eq_refl) in E. discriminate. }
      destruct (index_of x rest); simpl; split; try discriminate.
      * intros H. exfalso. apply H. right. apply Decidable.not_not.
        { destruct (in_dec Byte.byte_eq_dec x rest); [left|right]; assumption. }
        intros Hn. apply IH in Hn. discriminate.
      * intros _ [H|H]; [congruence|]. apply IH in H; auto.
      * reflexivity.
Qed.

Lemma index_of_app (x : byte) (noise rest : list byte) :
  ¬ In x noise → index_of x (noise ++ x :: rest) = Some (length noise).
Proof.
  induction noise as [|b noise IH]; simpl; intros Hn.
  - rewrite (Byte.byte_dec_lb eq_refl). reflexivity.
  - destruct (Byte.eqb b x) eqn:E.
    + apply Byte.byte_dec_bl in E. exfalso. auto.
    + rewrite IH by auto. reflexivity.
Qed.

Lemma index_of_lt (x : byte) (buf : list byte) (i : nat) :
  index_of x buf = Some i → (i < length buf)%nat.
Proof.
  revert i. induction buf as [|b rest IH]; simpl; intros i; [discriminate|].
  destruct (Byte.eqb b x).
  - intros [= <-]. lia.
  - destruct (index_of x rest) as [j|]; simpl; [|discriminate].
    intros [= <-]. specialize (IH j eq_refl). lia.
Qed.

(** *** The loop terminates and does not depend on spare fuel *)

Lemma sync_length (stx : nat) (buf : list byte) :
  (length (if (0 <? stx)%nat then skipn stx buf else buf) ≤ length buf)%nat.
Proof. destruct (0 <? stx)%nat; [rewrite length_skipn|]; lia. Qed.

Lemma counter_feed_loop_total (fuel : nat) (buf : list byte) (frames : list (list byte)) :
  (length buf < fuel)%nat → is_Some (feed_loop fuel buf frames).
Proof.
  revert buf frames. induction fuel as [|fuel IH]; intros buf frames Hlt; [lia|].
  cbn [feed_loop]. destruct (index_of PREAMBLE buf) as [stx|]; [|eauto].
  pose proof (sync_length stx buf) as Hs.
  remember (if (0 <? stx)%nat then skipn stx buf else buf) as buf' eqn:Hb.
  cbv zeta.
  destruct (length buf' <? 2)%nat eqn:E2; [eauto|].
  apply Nat.ltb_ge in E2.
  destruct (nth_error buf' 1) as [bl|] eqn:En.
  2:{ apply nth_error_None in En. lia. }
  pose proof (byte_val_range bl) as Hr.
  destruct (4 + byte_val bl <=? 0)%Z.
  - apply IH. rewrite length_skipn. lia.
  - destruct (Z.of_nat (length buf') <? 4 + byte_val bl)%Z; [eauto|].
    apply IH. rewrite length_skipn. lia.
Qed.

Lemma counter_feed_loop_mono (fuel fuel' : nat) (buf : list byte) (frames : list (list byte)) r :
  feed_loop fuel buf frames = Some r → (fuel ≤ fuel')%nat →
  feed_loop fuel' buf frames = Some r.
Proof.
  revert fuel' buf frames. induction fuel as [|fuel IH]; intros fuel' buf frames H Hle;
    [discriminate|].
  destruct fuel' as [|fuel']; [lia|].
  cbn [feed_loop] in *. destruct (index_of PREAMBLE buf) as [stx|]; [|assumption].
  cbv zeta in *.
  remember (if (0 <? stx)%nat then skipn stx buf else buf) as buf' eqn:Hb.
  destruct (length buf' <? 2)%nat; [assumption|].
  destruct (nth_error buf' 1) as [bl|]; [|discriminate].
  destruct (4 + byte_val bl <=? 0)%Z; [apply IH; [assumption|lia]|].
  destruct (Z.of_nat (length buf') <? 4 + byte_val bl)%Z; [assumption|].
  apply IH; [assumption|lia].
Qed.

(** Frames already collected are only appended to. *)
Lemma counter_feed_loop_frames (fuel : nat) (buf : list byte) (acc : list (list byte)) :
  feed_loop fuel buf acc = option_map (prepend acc) (feed_loop fuel buf []).
Proof.
  revert buf acc. induction fuel as [|fuel IH]; intros buf acc; [reflexivity|].
  cbn [feed_loop]. destruct (index_of PREAMBLE buf) as [stx|].
  2:{ cbn. unfold prepend. cbn. rewrite app_nil_r. reflexivity. }
  cbv zeta.
  remember (if (0 <? stx)%nat then skipn stx buf else buf) as buf' eqn:Hb.
  destruct (length buf' <? 2)%nat.
  { cbn. unfold prepend. cbn. rewrite app_nil_r. reflexivity. }
  destruct (nth_error buf' 1) as [bl|]; [|reflexivity].
  destruct (4 + byte_val bl <=? 0)%Z; [apply IH|].
  destruct (Z.of_nat (length buf') <? 4 + byte_val bl)%Z.
  { cbn. unfold prepend. cbn. rewrite app_nil_r. reflexivity. }
  rewrite IH. rewrite (IH _ ([] ++ _)).
  destruct (feed_loop fuel _ []) as [[fs b]|]; [|reflexivity].
  cbn. unfold prepend. cbn. rewrite <- app_assoc. reflexivity.
Qed.

Lemma scan_total (buf : list byte) : is_Some (scan buf).
Proof. apply counter_feed_loop_total. lia. Qed.

(** [feed] always returns. *)
Lemma counter_feed_total (buf data : list byte) : is_Some (feed buf data).
Proof. destruct data; [eauto|apply scan_total]. Qed.

Lemma feed_loop_scan (fuel : nat) (buf : list byte) :
  (length buf < fuel)%nat → feed_loop fuel buf [] = scan buf.
Proof.
  intros Hlt. destruct (scan_total buf) as [r Hr]. rewrite Hr.
  apply (counter_feed_loop_mono (S (length buf))); [exact Hr|lia].
Qed.

Lemma scan_no_preamble (buf : list byte) :
  ¬ In PREAMBLE buf → scan buf = Some ([], []).
Proof.
  intros Hn. unfold scan. cbn [feed_loop].
  apply index_of_None in Hn. rewrite Hn. reflexivity.
Qed.

(** Leading noise without the preamble byte is dropped and the frame
    that follows is cut; the loop then goes on with what is left. *)
Lemma scan_noise_frame (noise1 F rest : list byte) :
  valid_frame F → ¬ In PREAMBLE noise1 →
  scan (noise1 ++ F ++ rest) = option_map (prepend [F]) (scan rest).
Proof.
  intros HF Hn. destruct F as [|b0 [|b1 F']]; try contradiction.
  destruct HF as [-> Hlen].
  unfold scan at 1. cbn [feed_loop].
  change ((PREAMBLE :: b1 :: F') ++ rest) with (PREAMBLE :: (b1 :: F') ++ rest).
  rewrite index_of_app by assumption. cbv zeta.
  assert ((if (0 <? length noise1)%nat
           then skipn (length noise1) (noise1 ++ PREAMBLE :: (b1 :: F') ++ rest)
           else noise1 ++ PREAMBLE :: (b1 :: F') ++ rest)
          = PREAMBLE :: b1 :: F' ++ rest) as ->.
  { destruct noise1 as [|n noise1]; [reflexivity|].
    change (0 <? length (n :: noise1))%nat with true. cbv iota.
    rewrite skipn_app, skipn_all, Nat.sub_diag. reflexivity. }
  cbn [length Nat.ltb Nat.leb nth_error].
  pose proof (byte_val_range b1) as Hr.
  destruct (4 + byte_val b1 <=? 0)%Z eqn:E1; [lia|].
  cbn [length] in Hlen.
  destruct (Z.of_nat (S (S (length (F' ++ rest)))) <? 4 + byte_val b1)%Z eqn:E2.
  { rewrite length_app in E2. apply Z.ltb_lt in E2. lia. }
  assert (Z.to_nat (4 + byte_val b1) = length (PREAMBLE :: b1 :: F')) as ->.
  { cbn [length]. lia. }
  change (PREAMBLE :: b1 :: F' ++ rest) with ((PREAMBLE :: b1 :: F') ++ rest).
  rewrite firstn_app, firstn_all, Nat.sub_diag, firstn_O, app_nil_r.
  rewrite skipn_app, skipn_all, Nat.sub_diag. cbn [skipn app].
  rewrite counter_feed_loop_frames. change (skipn 0 rest) with rest.
  rewrite feed_loop_scan; [reflexivity|].
  rewrite length_app. cbn [length]. rewrite length_app. lia.
Qed.

(** *** The frame between noise *)

(** C4, as stated, fails: with a stray preamble byte in the leading
    noise the framer synchronises on the noise; for noise [27] before
    the valid frame [27 00 00 00] it reads the length byte 0x27, waits
    for 43 bytes and emits nothing. *)
Lemma noise_with_preamble_hides_frame :
  ¬ (∀ noise1 F noise2 : list byte, valid_frame F →
       ∃ frames buf, feed new_framer (noise1 ++ F ++ noise2) = Some (frames, buf)
                     ∧ emitted_times F frames = 1%nat).
Proof.
  intros H.
  destruct (H [x27] [x27; x00; x00; x00] []) as (frames & buf & Hfeed & Hcount).
  { split; reflexivity. }
  vm_compute in Hfeed. injection Hfeed as <- <-. discriminate Hcount.
Qed.

(** Trailing noise can also repeat the frame, which is then emitted twice. *)
Example trailing_copy_emitted_twice :
  feed new_framer ([] ++ [x27; x00; x00; x00] ++ [x27; x00; x00; x00])
  = Some ([[x27; x00; x00; x00]; [x27; x00; x00; x00]], []).
Proof. vm_compute. reflexivity. Qed.

(** C4, amended: for every byte sequence [noise1 ++ F ++ noise2] where
    [F] is a valid counter frame and [noise1] contains no 0x27 byte,
    feeding the whole sequence into a fresh framer returns [F] as the
    first emitted frame, followed by exactly the frames the framer cuts
    from [noise2] alone. So [F] is returned exactly once whenever no
    frame cut from [noise2] equals [F]; in particular, when [noise2]
    contains no 0x27 byte either, the result is [[F]] and the buffer is
    left empty. *)
Theorem feed_frame_between_noise (noise1 F noise2 : list byte) :
  valid_frame F → ¬ In PREAMBLE noise1 →
  ∃ frames2 buf,
    scan noise2 = Some (frames2, buf)
    ∧ feed new_framer (noise1 ++ F ++ noise2) = Some (F :: frames2, buf)
    ∧ (emitted_times F (F :: frames2) = 1%nat ↔ ¬ In F frames2)
    ∧ (¬ In PREAMBLE noise2 → frames2 = [] ∧ buf = []).
Proof.
  intros HF Hn. destruct (scan_total noise2) as [[frames2 buf] Hs].
  exists frames2, buf. split; [exact Hs|]. split; [|split].
  - unfold feed, new_framer. cbn [app].
    destruct (noise1 ++ F ++ noise2) eqn:E.
    + destruct noise1; [|discriminate E]. destruct F; [contradiction|discriminate E].
    + rewrite <- E. rewrite scan_noise_frame by assumption. rewrite Hs. reflexivity.
  - unfold emitted_times. cbn [count_occ].
    destruct (frame_eq_dec F F) as [_|Hne]; [|congruence].
    rewrite (count_occ_not_In frame_eq_dec). lia.
  - intros Hn2. rewrite scan_no_preamble in Hs by assumption.
    injection Hs as <- <-. split; reflexivity.
Qed.

Lemma feed_frame_between_noise_witness :
  ∃ frames2 buf,
    scan [x01] = Some (frames2, buf)
    ∧ feed new_framer ([xff; x00] ++ MboxCounterProtocol.response_1A78 ++ [x01])
      = Some (MboxCounterProtocol.response_1A78 :: frames2, buf)
    ∧ (emitted_times MboxCounterProtocol.response_1A78
         (MboxCounterProtocol.response_1A78 :: frames2) = 1%nat
       ↔ ¬ In MboxCounterProtocol.response_1A78 frames2)
    ∧ (¬ In PREAMBLE [x01] → frames2 = [] ∧ buf = []).
Proof.
  apply (feed_frame_between_noise [xff; x00] MboxCounterProtocol.response_1A78 [x01]).
  - split; reflexivity.
  - simpl. intros [H|[H|[]]]; discriminate H.
Defined.

End MboxCounterFramerFacts.

(** ** Easy-serial framer *)

Module EasySerialFramerFacts.
Import EasySerialFramer.

Example feed_two_lines :
  feed (new_framer None [x0a])
       (bytes_of_string "abc" ++ [x0a] ++ bytes_of_string "xyz" ++ [x0a])
  = Some ([bytes_of_string "abc"; bytes_of_string "xyz"], new_framer None [x0a]).
Proof. vm_compute. reflexivity. Qed.

Example feed_preamble_and_terminator :
  option_map fst
    (feed (new_framer (Some [x02; x24]) [x0a; x03])
       (bytes_of_string "garbage" ++ [x02; x24] ++ bytes_of_string "PAY1" ++ [x0a; x03]
        ++ bytes_of_string "more" ++ [x02; x24] ++ bytes_of_string "PAY2" ++ [x0a; x03]
        ++ bytes_of_string "tail"))
  = Some [bytes_of_string "PAY1"; bytes_of_string "PAY2"].
Proof. vm_compute. reflexivity. Qed.

Example feed_partial :
  feed (with_buf (new_framer None [x0a]) (bytes_of_string "abc"))
       (bytes_of_string "def" ++ [x0a] ++ bytes_of_string "xyz")
  = Some ([bytes_of_string "abcdef"],
          with_buf (new_framer None [x0a]) (bytes_of_string "xyz")).
Proof. vm_compute. reflexivity. Qed.

(** The cases of [test_decode_escaped_bytes_simple]. *)
Example decode_plain : decode_escaped_bytes (Some "ABC") = Some [x41; x42; x43].
Proof. vm_compute. reflexivity. Qed.

Example decode_crlf : decode_escaped_bytes (Some "\r\n") = Some [x0d; x0a].
Proof. vm_compute. reflexivity. Qed.

Example decode_hex : decode_escaped_bytes (Some "\x02$") = Some [x02; x24].
Proof. vm_compute. reflexivity. Qed.

Example decode_unicode : decode_escaped_bytes (Some "\u0002$") = Some [x02; x24].
Proof. vm_compute. reflexivity. Qed.

Example decode_literal_backslash :
  decode_escaped_bytes (Some "\\x02") = Some [x5c; x78; x30; x32].
Proof. vm_compute. reflexivity. Qed.

Example init_dollar_framer :
  EasySerialFramer_init (Some "$") "\n" = Ok dollar_framer.
Proof. vm_compute. reflexivity. Qed.

(** A non-empty pattern decodes to at least one byte, so the framer of
    a successful construction has a non-empty terminator. *)
Lemma decode_chars_nonempty `{PyStr} (pattern : list ascii) :
  pattern ≠ [] → decode_chars pattern ≠ [].
Proof.
  destruct pattern as [|ch rest]; [congruence|]. intros _. cbn [decode_chars].
  destruct (negb _); [discriminate|].
  destruct rest as [|nxt rest2]; [discriminate|].
  repeat match goal with
         | |- (if ?c then _ else _) ≠ [] => destruct c; [try discriminate|]
         end;
    try discriminate.
  - destruct rest2 as [|h1 [|h2 rest4]]; try discriminate.
    destruct (int_base16 _); [|discriminate].
    destruct (_ && _); discriminate.
  - destruct rest2 as [|h1 [|h2 [|h3 [|h4 rest6]]]]; try discriminate.
    destruct (int_base16 _); discriminate.
Qed.

Lemma init_terminator_nonempty `{PyStr} (preamble : option string) (terminator : string)
    (f : framer) :
  EasySerialFramer_init preamble terminator = Ok f → _terminator_bytes f ≠ [].
Proof.
  unfold EasySerialFramer_init.
  destruct (String.eqb terminator "") eqn:E; [discriminate|].
  intros [= <-]. cbn [_terminator_bytes]. apply decode_chars_nonempty.
  destruct terminator; [discriminate E|discriminate].
Qed.

(** *** Facts about [find] *)

Lemma find_0 (sub buf : list byte) : find sub buf 0 = find0 sub buf.
Proof.
  unfold find. change (skipn 0 buf) with buf.
  replace (length buf <? 0)%nat with false by (symmetry; apply Nat.ltb_ge; lia).
  destruct (find0 sub buf); reflexivity.
Qed.

Lemma find0_starts (sub buf : list byte) (i : nat) :
  find0 sub buf = Some i → starts_with sub (skipn i buf) = true.
Proof.
  revert i. induction buf as [|b rest IH]; intros i; cbn [find0].
  - destruct (starts_with sub []) eqn:E; [|discriminate].
    intros [= <-]. exact E.
  - destruct (starts_with sub (b :: rest)) eqn:E.
    + intros [= <-]. exact E.
    + destruct (find0 sub rest) as [j|]; [|discriminate].
      intros [= <-]. cbn [skipn]. apply IH. reflexivity.
Qed.

Lemma starts_find0 (sub buf : list byte) :
  starts_with sub buf = true → find0 sub buf = Some O.
Proof. intros H. destruct buf; cbn [find0]; rewrite H; reflexivity. Qed.

Lemma find0_single_None (x : byte) (buf : list byte) :
  ¬ In x buf → find0 [x] buf = None.
Proof.
  induction buf as [|b rest IH]; intros Hn; [reflexivity|].
  cbn [find0 starts_with].
  destruct (Byte.eqb x b) eqn:E.
  - apply Byte.byte_dec_bl in E. exfalso. apply Hn. left. congruence.
  - cbn [andb]. rewrite IH; [reflexivity|]. intros H. apply Hn. right. exact H.
Qed.

Lemma starts_with_length (sub buf : list byte) :
  starts_with sub buf = true → (length sub ≤ length buf)%nat.
Proof.
  revert buf. induction sub as [|s sub IH]; intros [|b buf]; cbn; try lia; try discriminate.
  intros H. apply andb_prop in H. destruct H as [_ H]. apply IH in H. lia.
Qed.

Lemma find0_bound (sub buf : list byte) (i : nat) :
  find0 sub buf = Some i → (i + length sub ≤ length buf)%nat.
Proof.
  revert i. induction buf as [|b rest IH]; intros i; cbn [find0].
  - destruct (starts_with sub []) eqn:E; [|discriminate].
    intros [= <-]. apply starts_with_length in E. lia.
  - destruct (starts_with sub (b :: rest)) eqn:E.
    + intros [= <-]. apply starts_with_length in E. lia.
    + destruct (find0 sub rest) as [j|]; [|discriminate].
      intros [= <-]. specialize (IH j eq_refl). cbn [length]. lia.
Qed.

Lemma find_bound (sub buf : list byte) (start i : nat) :
  find sub buf start = Some i → sub ≠ [] → (i + length sub ≤ length buf)%nat.
Proof.
  unfold find. destruct (length buf <? start)%nat eqn:E; [discriminate|].
  apply Nat.ltb_ge in E.
  destruct (find0 sub (skipn start buf)) as [j|] eqn:Ej; [|discriminate].
  intros [= <-] Hs. apply find0_bound in Ej. rewrite length_skipn in Ej. lia.
Qed.

(** *** The loop terminates for a non-empty terminator *)

Lemma easy_feed_loop_total (fuel : nat) (pre : option (list byte)) (term buf : list byte) frames :
  term ≠ [] → (length buf < fuel)%nat →
  is_Some (feed_loop fuel pre term buf frames).
Proof.
  intros Ht. revert buf frames.
  assert (∀ fuel (loop : list byte → list (list byte) → option _) buf start frames,
            (∀ b fr, (length b < fuel)%nat → is_Some (loop b fr)) →
            (length buf ≤ fuel)%nat →
            is_Some (cut_payload loop term buf start frames)) as Hcut.
  { intros fl loop buf start frames Hloop Hlen. unfold cut_payload.
    destruct (find term buf start) as [ti|] eqn:E; [|eauto].
    apply find_bound in E; [|exact Ht]. apply Hloop. rewrite length_skipn.
    destruct term; [congruence|]. cbn [length] in *. lia. }
  induction fuel as [|fuel IH]; intros buf frames Hlt; [lia|].
  cbn [feed_loop]. destruct pre as [p|].
  - destruct (find p buf 0) as [idx|].
    + cbv zeta. apply (Hcut fuel); [exact IH|].
      destruct (0 <? idx)%nat; [rewrite length_skipn|]; lia.
    + cbv zeta. destruct (_ && _); eauto.
  - apply (Hcut fuel); [exact IH|lia].
Qed.

(** [feed] always returns when the terminator is not empty, which the
    constructor checks. *)
Lemma easy_feed_total (f : framer) (data : list byte) :
  _terminator_bytes f ≠ [] → is_Some (feed f data).
Proof.
  intros Ht. unfold feed. destruct data as [|d data]; [eauto|].
  destruct (easy_feed_loop_total (S (length (_buf f ++ d :: data))) (_preamble_bytes f)
              (_terminator_bytes f) (_buf f ++ d :: data) [] Ht) as [r Hr]; [lia|].
  rewrite Hr. cbn. eauto.
Qed.

(** *** The buffer after a feed that leaves no preamble in it *)

(** For a preamble of two bytes or more the loop leaves a bounded tail. *)
Lemma feed_loop_tail_bounded (fuel : nat) (p term buf : list byte) frames fs buf' :
  (2 ≤ length p)%nat →
  feed_loop fuel (Some p) term buf frames = Some (fs, buf') →
  tail_bounded p buf'.
Proof.
  intros Hp. revert buf frames.
  induction fuel as [|fuel IH]; intros buf frames; [discriminate|].
  cbn [feed_loop]. destruct (find p buf 0) as [idx|] eqn:Ef.
  - cbv zeta. unfold cut_payload.
    remember (if (0 <? idx)%nat then skipn idx buf else buf) as buf2 eqn:Hb.
    assert (starts_with p buf2 = true) as Hs.
    { rewrite find_0 in Ef. apply find0_starts in Ef.
      subst buf2. destruct idx; [exact Ef|]. exact Ef. }
    destruct (find term buf2 (length p)) as [term_idx|].
    + apply IH.
    + intros [= <- <-] Hnone. rewrite find_0, (starts_find0 _ _ Hs) in Hnone.
      discriminate.
  - cbv zeta.
    destruct ((0 <? Z.of_nat (length p) - 1)%Z
              && (Z.of_nat (length p) - 1 <? Z.of_nat (length buf))%Z) eqn:E.
    + intros [= <- <-] _. rewrite length_skipn.
      apply andb_prop in E. destruct E as [E1 E2].
      apply Z.ltb_lt in E1, E2. lia.
    + intros [= <- <-] _.
      apply andb_false_iff in E. destruct E as [E|E]; apply Z.ltb_ge in E; lia.
Qed.

(** So for such a preamble every [feed] keeps the bound: it holds for
    the empty buffer of a new framer and is preserved by each call. *)
Lemma feed_tail_bounded (f : framer) (p data : list byte) frames f' :
  _preamble_bytes f = Some p → (2 ≤ length p)%nat →
  tail_bounded p (_buf f) →
  feed f data = Some (frames, f') →
  tail_bounded p (_buf f').
Proof.
  intros Hpre Hp Hinv. unfold feed. destruct data as [|d data].
  - intros [= <- <-]. exact Hinv.
  - rewrite Hpre.
    destruct (feed_loop _ _ _ _ _) as [[fs buf']|] eqn:E; [|discriminate].
    cbn. intros [= <- <-]. cbn.
    eapply feed_loop_tail_bounded; [exact Hp|exact E].
Qed.

(** With a one-byte preamble nothing is trimmed: noise that never
    contains the preamble byte is kept whole, feed after feed. *)
Lemma feed_single_byte_preamble_keeps_noise (x : byte) (term buf data : list byte) :
  data ≠ [] → ¬ In x (buf ++ data) →
  feed {| _preamble_bytes := Some [x]; _terminator_bytes := term; _buf := buf |} data
  = Some ([], {| _preamble_bytes := Some [x]; _terminator_bytes := term;
                 _buf := buf ++ data |}).
Proof.
  intros Hd Hn. unfold feed. destruct data as [|d data]; [congruence|].
  cbn [_buf _preamble_bytes _terminator_bytes feed_loop].
  rewrite find_0, find0_single_None by exact Hn. reflexivity.
Qed.

(** C1 at a one-byte preamble: the framer constructed with preamble [$]
    and terminator LF is fed the noise [abc]; afterwards the buffer holds no
    occurrence of the preamble, yet all three bytes are retained, more
    than [len(preamble) - 1 = 0]; a second feed of [def] leaves six. *)
Theorem single_byte_preamble_noise_retained :
  EasySerialFramer_init (Some "$") "\n" = Ok dollar_framer
  ∧ feed dollar_framer (bytes_of_string "abc")
  = Some ([], with_buf dollar_framer (bytes_of_string "abc"))
  ∧ find [x24] (bytes_of_string "abc") 0 = None
  ∧ ¬ tail_bounded [x24] (bytes_of_string "abc")
  ∧ feed (with_buf dollar_framer (bytes_of_string "abc")) (bytes_of_string "def")
    = Some ([], with_buf dollar_framer (bytes_of_string "abcdef")).
Proof.
  split; [vm_compute; reflexivity|].
  split; [vm_compute; reflexivity|]. split; [vm_compute; reflexivity|].
  split; [|vm_compute; reflexivity].
  intros H. assert (find [x24] (bytes_of_string "abc") 0 = None) as E
    by (vm_compute; reflexivity).
  specialize (H E). vm_compute in H. apply H. reflexivity.
Qed.

End EasySerialFramerFacts.

(** ** Mbox transformer *)

Module MboxTransformFacts.
Import MboxConfig MboxLabel MboxTransform.

Example transform_light_label :
  let '(res, t') := transform (new_transformer sample_cfg) 7 light_label in
  on_error res = true ∧ adj_r_weight res = 12.5%float
  ∧ _last_adj_r_weight t' = Some 12.5%float
  ∧ variables res !! "r_weight"%string = Some (VFloat 12.5%float).
Proof. vm_compute. repeat split; reflexivity. Qed.

(** The next label weighs 13 - 0.5 = 12.5, the net weight stored by the
    zero fallback, and is reported as a duplicate. *)
Example transform_then_duplicate :
  let t1 := snd (transform (new_transformer sample_cfg) 7 light_label) in
  adj_r_weight (fst (transform t1 7 next_label)) = 12.5%float
  ∧ on_error (fst (transform t1 7 next_label)) = true
  ∧ on_error (fst (transform (new_transformer sample_cfg) 7 next_label)) = false.
Proof. vm_compute. repeat split; reflexivity. Qed.

Lemma transform_cfg (t : MboxTransformer) (id : Z) (rec : MboxLabelRecord) :
  _cfg (snd (transform t id rec)) = _cfg t.
Proof.
  unfold transform. cbv zeta.
  destruct (treat_zero_as_error (_cfg t) && _); cbn;
    destruct (treat_duplicate_as_error (_cfg t)); cbn; try reflexivity;
    destruct (_last_adj_r_weight t); try reflexivity;
    destruct (PrimFloat.eqb _ _); reflexivity.
Qed.

(** C10: when [treat_zero_as_error] is enabled and the tare-adjusted
    weight of a record clamps to zero, [transform] reports the zero error,
    substitutes the record's net weight for [r_weight], and stores that
    net weight (not zero) in [_last_adj_r_weight]; so for the next record
    the duplicate check compares its adjusted weight with that net
    weight. *)
Theorem zero_fallback_becomes_last_weight
    (t : MboxTransformer) (id : Z) (rec : MboxLabelRecord) :
  treat_zero_as_error (_cfg t) = true →
  PrimFloat.eqb (tare_adjusted (_cfg t) rec) 0%float = true →
  let res := fst (transform t id rec) in
  let t' := snd (transform t id rec) in
  _last_adj_r_weight t' = Some (nWeight rec)
  ∧ adj_r_weight res = nWeight rec
  ∧ variables res !! "r_weight"%string = Some (VFloat (nWeight rec))
  ∧ on_error res = true
  ∧ error_info res = error_label_zero (_cfg t)
  ∧ ∀ id2 rec2,
      on_error (fst (transform t' id2 rec2))
      = zero_rule (_cfg t) rec2
        || (treat_duplicate_as_error (_cfg t)
            && PrimFloat.eqb (tare_adjusted (_cfg t) rec2) (nWeight rec)).
Proof.
  intros Hz Hadj. cbv zeta.
  assert (transform t id rec
          = ({| variables := variables (fst (transform t id rec));
                on_error := true; error_info := error_label_zero (_cfg t);
                adj_r_weight := nWeight rec |},
             {| _cfg := _cfg t; _last_adj_r_weight := Some (nWeight rec) |})) as E.
  { unfold transform. cbv zeta. rewrite Hz, Hadj. reflexivity. }
  split; [rewrite E; reflexivity|]. split; [rewrite E; reflexivity|].
  split.
  { unfold transform. cbv zeta. rewrite Hz, Hadj. reflexivity. }
  split; [rewrite E; reflexivity|]. split; [rewrite E; reflexivity|].
  intros id2 rec2. rewrite E. cbn [snd]. unfold transform, zero_rule.
  cbv zeta. cbn [_cfg _last_adj_r_weight]. rewrite Hz. cbn [andb].
  destruct (PrimFloat.eqb (tare_adjusted (_cfg t) rec2) 0%float); [reflexivity|].
  cbn [negb andb orb].
  destruct (treat_duplicate_as_error (_cfg t)); [|reflexivity].
  cbn [andb].
  destruct (PrimFloat.eqb (tare_adjusted (_cfg t) rec2) (nWeight rec)); reflexivity.
Qed.

Lemma zero_fallback_becomes_last_weight_witness :
  let t := new_transformer sample_cfg in
  let res := fst (transform t 7 light_label) in
  let t' := snd (transform t 7 light_label) in
  _last_adj_r_weight t' = Some (nWeight light_label)
  ∧ adj_r_weight res = nWeight light_label
  ∧ variables res !! "r_weight"%string = Some (VFloat (nWeight light_label))
  ∧ on_error res = true
  ∧ error_info res = error_label_zero (_cfg t)
  ∧ ∀ id2 rec2,
      on_error (fst (transform t' id2 rec2))
      = zero_rule (_cfg t) rec2
        || (treat_duplicate_as_error (_cfg t)
            && PrimFloat.eqb (tare_adjusted (_cfg t) rec2) (nWeight light_label)).
Proof.
  apply (zero_fallback_becomes_last_weight (new_transformer sample_cfg) 7 light_label).
  - reflexivity.
  - vm_compute. reflexivity.
Defined.

End MboxTransformFacts.

(** ** Modbus register decoder *)

Module ModbusTcpFacts.
Import ModbusTcp.
Local Open Scope Z_scope.

(** The register pair of [struct.pack(">f", 12.5)] is [0x4148 0x0000]. *)
Example decode_f32_scaled_abcd :
  _decode_registers [0x4148; 0x0000] (sample_var F32_SCALED_ABCD) = Ok (NFloat 12.5%float).
Proof. vm_compute. reflexivity. Qed.

Example decode_f32_cdab :
  _decode_registers [0x0000; 0xC148] (sample_var F32_CDAB) = Ok (NFloat (-12.5)%float).
Proof. vm_compute. reflexivity. Qed.

Example decode_s32_cdab :
  _decode_registers [0xFFFE; 0xFFFF] (sample_var S32_CDAB) = Ok (NInt (-2)).
Proof. vm_compute. reflexivity. Qed.

Example decode_u32_abcd :
  _decode_registers [0x0001; 0x0002] (sample_var U32_ABCD) = Ok (NInt 65538).
Proof. vm_compute. reflexivity. Qed.

Example decode_s16_scaled :
  _decode_registers [0xFFFF] (sample_var S16_SCALED) = Ok (NFloat (-1)%float).
Proof. vm_compute. reflexivity. Qed.

(** C9: for every pair of registers [r0, r1] and every 32-bit encoding
    (u32, s32 or f32, scaled or not), decoding [[r0, r1]] with the CDAB
    variant yields the same value as decoding [[r1, r0]] with the ABCD
    variant of the same encoding. *)
Theorem cdab_is_abcd_of_swapped_registers
    (fam : family32) (is_scaled : bool) (r0 r1 : Z) (var : ModbusTcpVariableConfig) :
  _decode_registers [r0; r1] (with_encoding var (cdab_encoding fam is_scaled))
  = _decode_registers [r1; r0] (with_encoding var (abcd_encoding fam is_scaled)).
Proof.
  destruct fam, is_scaled; reflexivity.
Qed.

End ModbusTcpFacts.

(** ** Query templates *)

Module QueryTemplateFacts.
Import QueryTemplate.

(** The escape example of the template compiler. *)
Example build_query_escapes :
  build_query "SELECT '{{' as lb, '}}' as rb, {x} as v" {[ "x"%string := VInt 42 ]}
  = Ok ("SELECT '{' as lb, '}' as rb, :x as v"%string, {[ "x"%string := VInt 42 ]}).
Proof. vm_compute. reflexivity. Qed.

Example build_query_missing :
  build_query "INSERT INTO t VALUES ({b}, {a}, { c })" {[ "c"%string := VInt 1 ]}
  = Raise (KeyError "Missing variables for query template: a, b").
Proof. vm_compute. reflexivity. Qed.

Example compile_unmatched :
  compile_query_template "SELECT {x"
  = Raise (QueryTemplateError "Unmatched '{' in query template").
Proof. vm_compute. reflexivity. Qed.

Example compile_single_rbrace :
  compile_query_template "SELECT }x"
  = Raise (QueryTemplateError "Single '}' in query template").
Proof. vm_compute. reflexivity. Qed.

Example compile_empty_placeholder :
  compile_query_template "SELECT { }"
  = Raise (QueryTemplateError "Empty placeholder '{}' in query template").
Proof. vm_compute. reflexivity. Qed.

(** *** The loop over the placeholder names *)

Lemma collect_step_missing (variables : gmap string pyval) (l : list string) acc :
  snd (foldl (collect_step variables) acc l)
  = snd acc ++ filter (λ n, n ∉ dom variables) l.
Proof.
  revert acc. induction l as [|n l IH]; intros acc; cbn [foldl].
  - rewrite app_nil_r. reflexivity.
  - rewrite IH. unfold collect_step.
    destruct (variables !! n) as [v|] eqn:E; cbn [snd].
    + rewrite filter_cons_False; [reflexivity|].
      intros Hn. apply Hn. apply elem_of_dom. eauto.
    + rewrite filter_cons_True by (apply not_elem_of_dom; exact E).
      rewrite <- app_assoc. reflexivity.
Qed.

Lemma collect_step_params (variables : gmap string pyval) (l : list string) acc k :
  fst (foldl (collect_step variables) acc l) !! k
  = match variables !! k with
    | Some v => if decide (k ∈ l) then Some v else fst acc !! k
    | None => fst acc !! k
    end.
Proof.
  revert acc. induction l as [|n l IH]; intros acc; cbn [foldl].
  - destruct (variables !! k); [|reflexivity].
    destruct (decide (k ∈ [])) as [Hin|_]; [|reflexivity].
    apply elem_of_nil in Hin. contradiction.
  - rewrite IH. unfold collect_step.
    destruct (variables !! k) as [v|] eqn:Ek.
    + destruct (decide (k ∈ l)) as [Hl|Hl].
      * rewrite decide_True by (right; exact Hl). reflexivity.
      * destruct (decide (k = n)) as [->|Hne].
        -- rewrite decide_True by left. rewrite Ek. cbn [fst].
           apply lookup_insert_eq.
        -- rewrite decide_False by (intros Hc; apply elem_of_cons in Hc; tauto).
           destruct (variables !! n); cbn [fst]; [|reflexivity].
           apply lookup_insert_ne. congruence.
    + destruct (variables !! n) as [v|] eqn:En; cbn [fst]; [|reflexivity].
      apply lookup_insert_ne. congruence.
Qed.

Lemma collect_missing (variables : gmap string pyval) (names : gset string) :
  snd (collect variables names) = filter (λ n, n ∉ dom variables) (elements names).
Proof. unfold collect. rewrite collect_step_missing. reflexivity. Qed.

Lemma collect_params (variables : gmap string pyval) (names : gset string) k :
  fst (collect variables names) !! k
  = if decide (k ∈ names) then variables !! k else None.
Proof.
  unfold collect. rewrite collect_step_params. cbn [fst]. rewrite lookup_empty.
  destruct (variables !! k) as [v|]; destruct (decide (k ∈ names)) as [Hn|Hn].
  - rewrite decide_True by (apply elem_of_elements; exact Hn). reflexivity.
  - rewrite decide_False by (rewrite elem_of_elements; exact Hn). reflexivity.
  - reflexivity.
  - reflexivity.
Qed.

Lemma elem_of_collect_missing (variables : gmap string pyval) (names : gset string) n :
  n ∈ snd (collect variables names) ↔ n ∈ names ∧ variables !! n = None.
Proof.
  rewrite collect_missing, list_elem_of_filter, elem_of_elements, not_elem_of_dom.
  tauto.
Qed.

(** *** [sorted] *)

#[local] Instance str_le_total : Total str_le.
Proof. intros s1 s2. apply String.leb_total. Qed.

Lemma str_le_lt_eq (s1 s2 : string) :
  str_le s1 s2 ↔ OrderedTypeEx.String_as_OT.lt s1 s2 ∨ s1 = s2.
Proof.
  unfold str_le, String.leb.
  rewrite <- OrderedTypeEx.String_as_OT.cmp_lt, <- OrderedTypeEx.String_as_OT.cmp_eq.
  change OrderedTypeEx.String_as_OT.cmp with String.compare.
  destruct (String.compare s1 s2); split; intros Hc; auto;
    try discriminate; destruct Hc; discriminate.
Qed.

#[local] Instance str_le_trans : Transitive str_le.
Proof.
  intros s1 s2 s3. rewrite !str_le_lt_eq. intros [H12| ->] [H23| ->]; auto.
  left. eapply OrderedTypeEx.String_as_OT.lt_trans; eassumption.
Qed.

(** The result of [sorted] is in order, each name at most every later one. *)
Lemma py_sorted_Sorted (l : list string) : StronglySorted str_le (py_sorted l).
Proof. apply StronglySorted_merge_sort; [apply str_le_trans|apply str_le_total]. Qed.

Lemma elem_of_py_sorted (l : list string) n : n ∈ py_sorted l ↔ n ∈ l.
Proof. unfold py_sorted. rewrite merge_sort_Permutation. reflexivity. Qed.

Lemma NoDup_py_sorted (l : list string) : NoDup l → NoDup (py_sorted l).
Proof. unfold py_sorted. rewrite merge_sort_Permutation. auto. Qed.

(** *** [build_query] *)

Lemma build_query_unfold `{PyStr} (template : string) (variables : gmap string pyval) c :
  compile_query_template template = Ok c →
  build_query template variables
  = match snd (collect variables (param_names c)) with
    | [] => Ok (sql c, fst (collect variables (param_names c)))
    | m :: ms => Raise (KeyError (missing_message (m :: ms)))
    end.
Proof.
  intros Hc. unfold build_query. rewrite Hc. cbn [rbind].
  destruct (collect variables (param_names c)) as [params [|m ms]]; reflexivity.
Qed.

(** What a successful [build_query] returns. *)
Lemma build_query_Ok_inv `{PyStr} (template : string) (variables : gmap string pyval)
    (q : string) (params : gmap string pyval) :
  build_query template variables = Ok (q, params) →
  ∃ c, compile_query_template template = Ok c ∧ q = sql c
       ∧ dom params = param_names c ∧ params ⊆ variables.
Proof.
  unfold build_query. destruct (compile_query_template template) as [c|e]; [|discriminate].
  cbn [rbind]. pose proof (elem_of_collect_missing variables (param_names c)) as Hmiss.
  pose proof (collect_params variables (param_names c)) as Hpar.
  destruct (collect variables (param_names c)) as [ps [|m ms]]; [|discriminate].
  intros [= <- <-]. cbn [fst snd] in *. exists c. split; [reflexivity|].
  split; [reflexivity|]. split.
  - apply set_eq. intros k. rewrite elem_of_dom, Hpar.
    destruct (decide (k ∈ param_names c)) as [Hk|Hk].
    + split; [intros _; exact Hk|]. intros _.
      destruct (variables !! k) eqn:E; [eauto|].
      exfalso. apply (elem_of_nil k). apply Hmiss. auto.
    + split; [intros [v Hv]; discriminate Hv|contradiction].
  - apply map_subseteq_spec. intros k v. rewrite Hpar.
    destruct (decide (k ∈ param_names c)); [auto|discriminate].
Qed.

(** C8: for every well-formed template (one that compiles, to [c]) and
    every variables map, [build_query] raises if and only if some
    placeholder name of the template is absent from the map; the error is
    then the KeyError whose message lists the missing names, all of them
    and each once, in sorted order; when no name is missing it returns the
    compiled SQL with a params map whose keys are exactly the placeholder
    names, each bound as in the variables map (other variables are
    ignored). *)
Theorem build_query_missing_or_params `{PyStr}
    (template : string) (variables : gmap string pyval) (c : CompiledQueryTemplate) :
  compile_query_template template = Ok c →
  ((∃ e, build_query template variables = Raise e)
   ↔ ∃ n, n ∈ param_names c ∧ variables !! n = None)
  ∧ ((∃ n, n ∈ param_names c ∧ variables !! n = None) →
     ∃ L, build_query template variables
          = Raise (KeyError ("Missing variables for query template: "
                             ++ String.concat ", " L))
          ∧ StronglySorted str_le L ∧ NoDup L
          ∧ ∀ n, n ∈ L ↔ n ∈ param_names c ∧ variables !! n = None)
  ∧ ((∀ n, n ∈ param_names c → is_Some (variables !! n)) →
     ∃ params, build_query template variables = Ok (sql c, params)
               ∧ dom params = param_names c
               ∧ params ⊆ variables).
Proof.
  intros Hc. rewrite (build_query_unfold _ _ _ Hc).
  pose proof (elem_of_collect_missing variables (param_names c)) as Hmiss.
  destruct (snd (collect variables (param_names c))) as [|m ms] eqn:Em.
  - assert (∀ n, n ∈ param_names c → is_Some (variables !! n)) as Hall.
    { intros n Hn. destruct (variables !! n) eqn:E; [eauto|].
      exfalso. apply (elem_of_nil n). apply Hmiss. auto. }
    split; [|split].
    + split; [intros [e He]; discriminate He|].
      intros (n & Hn & Hnone). destruct (Hall n Hn) as [v Hv]. congruence.
    + intros (n & Hn & Hnone). destruct (Hall n Hn) as [v Hv]. congruence.
    + intros _. eexists. split; [reflexivity|]. split.
      * apply set_eq. intros k. rewrite elem_of_dom, collect_params.
        destruct (decide (k ∈ param_names c)) as [Hk|Hk].
        -- split; [intros _; exact Hk|intros _; apply Hall; exact Hk].
        -- split; [intros [v Hv]; discriminate Hv|contradiction].
      * apply map_subseteq_spec. intros k v. rewrite collect_params.
        destruct (decide (k ∈ param_names c)); [auto|discriminate].
  - assert (m ∈ param_names c ∧ variables !! m = None) as Hm.
    { apply Hmiss. left. }
    split; [|split].
    + split; [intros _; exists m; exact Hm|intros _; eauto].
    + intros _. exists (py_sorted (m :: ms)). split; [reflexivity|].
      split; [apply py_sorted_Sorted|]. split.
      * apply NoDup_py_sorted. rewrite <- Em, collect_missing.
        apply NoDup_filter, NoDup_elements.
      * intros n. rewrite elem_of_py_sorted. apply Hmiss.
    + intros Hall. destruct Hm as [Hm1 Hm2]. destruct (Hall m Hm1) as [v Hv]. congruence.
Qed.

Lemma build_query_missing_or_params_witness :
  let template := "INSERT INTO t VALUES ({b}, {a}, { c })"%string in
  let variables : gmap string pyval := {[ "c"%string := VInt 1 ]} in
  let c := {| sql := "INSERT INTO t VALUES (:b, :a, :c)";
              param_names := {[ "a"%string; "b"%string; "c"%string ]} |} in
  ((∃ e, build_query template variables = Raise e)
   ↔ ∃ n, n ∈ param_names c ∧ variables !! n = None)
  ∧ ((∃ n, n ∈ param_names c ∧ variables !! n = None) →
     ∃ L, build_query template variables
          = Raise (KeyError ("Missing variables for query template: "
                             ++ String.concat ", " L))
          ∧ StronglySorted str_le L ∧ NoDup L
          ∧ ∀ n, n ∈ L ↔ n ∈ param_names c ∧ variables !! n = None)
  ∧ ((∀ n, n ∈ param_names c → is_Some (variables !! n)) →
     ∃ params, build_query template variables = Ok (sql c, params)
               ∧ dom params = param_names c
               ∧ params ⊆ variables).
Proof.
  apply (build_query_missing_or_params
           "INSERT INTO t VALUES ({b}, {a}, { c })" {[ "c"%string := VInt 1 ]}).
  vm_compute. reflexivity.
Defined.

End QueryTemplateFacts.

(** ** Mbox label parser *)

Module MboxParserFacts.
Import MboxLabel MboxParser MboxParserSamples.

Example parse_label_13 :
  parse_label_frame label_13 "ascii"
  = Ok {| dt := {| year := 2024; month := 1; day := 1; hour := 12; minute := 30;
                   second := 15; microsecond := 999000 |};
          sFishType := "MACKEREL"; sSize := "M";
          nWeight := 12.5%float; rWeight := PrimFloat.div 131%float 10%float; sSNumber := "SN123" |}.
Proof. vm_compute. reflexivity. Qed.

Example parse_label_2 :
  parse_label_frame label_2 "ascii"
  = Raise (ValueError "expected at least 10 fields, got 2").
Proof. vm_compute. reflexivity. Qed.

Lemma list_index_Some {A : Type} (l : list A) (i : Z) :
  (0 ≤ i < Z.of_nat (length l))%Z → ∃ x, list_index l i = Ok x.
Proof.
  intros Hi. unfold list_index, index_with.
  destruct (i <? 0)%Z eqn:E; [lia|].
  destruct (nth_error l (Z.to_nat i)) eqn:En; [eauto|].
  apply nth_error_None in En. lia.
Qed.

Lemma list_index_None {A : Type} (l : list A) (i : Z) :
  (Z.of_nat (length l) ≤ i)%Z →
  list_index l i = Raise (IndexError "list index out of range").
Proof.
  intros Hi. unfold list_index, index_with.
  destruct (i <? 0)%Z eqn:E; [reflexivity|].
  assert (length l ≤ Z.to_nat i)%nat as Hn by lia.
  apply nth_error_None in Hn. rewrite Hn. reflexivity.
Qed.

(** The outcomes of the parser by number of columns: fewer than ten is a
    ValueError; exactly ten is a ValueError for a bad timestamp or a bad
    net weight and otherwise the IndexError of [parts[10]]; eleven or more
    is a ValueError or a record. *)
Lemma parse_label_frame_outcomes `{PyStr} `{PyParse} (payload : list byte) (encoding : string) :
  match parse_label_frame payload encoding with
  | Ok _ => ∃ n, columns payload encoding = Some n ∧ (11 ≤ n)%nat
  | Raise (ValueError _) => True
  | Raise (IndexError _) => columns payload encoding = Some 10%nat
  | Raise _ => False
  end.
Proof.
  unfold parse_label_frame, columns.
  destruct (bytes_decode payload encoding) as [decoded|]; [|exact I].
  cbn [option_map]. set (parts := split_comma (str_strip decoded)).
  destruct (Z.of_nat (length parts) <? 10)%Z eqn:E10; [exact I|].
  apply Z.ltb_ge in E10.
  destruct (list_index_Some parts 0) as [p0 ->]; [lia|]. cbn [rbind].
  destruct (datetime_strptime p0 TS_FORMAT); [|exact I].
  destruct (list_index_Some parts 9) as [p9 ->]; [lia|]. cbn [rbind].
  destruct (float_of_str p9); [|exact I].
  destruct (Nat.eq_dec (length parts) 10) as [Hten|Hne].
  - rewrite (list_index_None parts 10) by lia. cbn [rbind]. congruence.
  - destruct (list_index_Some parts 10) as [p10 ->]; [lia|]. cbn [rbind].
    destruct (float_of_str p10); [|exact I].
    destruct (list_index_Some parts 6) as [p6 ->]; [lia|].
    destruct (list_index_Some parts 8) as [p8 ->]; [lia|].
    destruct (list_index_Some parts 7) as [p7 ->]; [lia|]. cbn [rbind].
    exists (length parts). split; [reflexivity|lia].
Qed.

(** Ten columns with a good timestamp and a good net weight: the check
    [len(parts) < 10] lets the payload through and [parts[10]] raises. *)
Lemma ten_columns_raise_IndexError `{PyStr} `{PyParse}
    (payload : list byte) (encoding decoded p0 p9 : string) (d : datetime) (f : float) :
  bytes_decode payload encoding = Some decoded →
  length (split_comma (str_strip decoded)) = 10%nat →
  list_index (split_comma (str_strip decoded)) 0 = Ok p0 →
  datetime_strptime p0 TS_FORMAT = Some d →
  list_index (split_comma (str_strip decoded)) 9 = Ok p9 →
  float_of_str p9 = Some f →
  parse_label_frame payload encoding = Raise (IndexError "list index out of range").
Proof.
  intros Hd Hlen Hp0 Hts Hp9 Hf. unfold parse_label_frame. rewrite Hd.
  cbv zeta. rewrite Hlen. change (Z.of_nat 10 <? 10)%Z with false. cbv iota.
  rewrite Hp0. cbn [rbind]. rewrite Hts, Hp9. cbn [rbind]. rewrite Hf.
  rewrite (list_index_None _ 10) by lia. reflexivity.
Qed.

(** C2 at a ten-column payload: the label of the end-to-end scenario cut
    after its net weight has ten columns, a well-formed timestamp and a
    numeric net weight; [parse_label_frame] does not reject it with
    ValueError but fails with the IndexError of [parts[10]]. *)
Theorem ten_column_label_raises_IndexError :
  columns label_10 "ascii" = Some 10%nat
  ∧ parse_label_frame label_10 "ascii" = Raise (IndexError "list index out of range")
  ∧ is_ValueError (parse_label_frame label_10 "ascii") = false.
Proof. vm_compute. repeat split; reflexivity. Qed.

End MboxParserFacts.

(** ** Float comparison *)

Module FloatOrder.

Lemma SFcompare_antisym (x y : SpecFloat.spec_float) :
  SpecFloat.SFcompare x y = option_map CompOpp (SpecFloat.SFcompare y x).
Proof.
  destruct x as [sx|sx| |sx mx ex], y as [sy|sy| |sy my ey]; cbn;
    try reflexivity; try (destruct sx; reflexivity); try (destruct sy; reflexivity);
    try (destruct sx, sy; reflexivity).
  assert (PosDef.Pos.compare_cont Eq mx my
          = CompOpp (PosDef.Pos.compare_cont Eq my mx)) as Hp
    by apply (Pos.compare_antisym my mx).
  destruct sx, sy; cbn; try reflexivity;
    rewrite (Z.compare_antisym ey ex);
    destruct (ey ?= ex)%Z; cbn; try reflexivity;
    rewrite Hp; destruct (PosDef.Pos.compare_cont Eq my mx); reflexivity.
Qed.

(** [d <= now] excludes [now < d]. *)
Lemma leb_not_ltb (d now : float) :
  PrimFloat.leb d now = true → PrimFloat.ltb now d = false.
Proof.
  rewrite FloatAxioms.leb_spec, FloatAxioms.ltb_spec.
  unfold SpecFloat.SFleb, SpecFloat.SFltb.
  rewrite (SFcompare_antisym (Prim2SF now) (Prim2SF d)).
  destruct (SpecFloat.SFcompare (Prim2SF d) (Prim2SF now)) as [[| |]|];
    cbn; congruence.
Qed.

End FloatOrder.

(** ** Mbox worker: counter reconciliation *)

Module MboxWorkerFacts.
Import MboxConfig MboxLabel MboxTransform QueryTemplate MboxParser MboxWorker.
Local Open Scope Z_scope.

(** *** What the insertion of miss packs leaves alone *)

(** [w'] differs from [w] at most in the metrics and the recorded
    write calls. *)
Definition only_effects (w w' : MboxConnectionWorker) : Prop :=
  _config w' = _config w ∧ _db_writer w' = _db_writer w
  ∧ _counter_total_provider w' = _counter_total_provider w
  ∧ _transformer w' = _transformer w
  ∧ _counter_last_total w' = _counter_last_total w
  ∧ _pending_pack_ts w' = _pending_pack_ts w
  ∧ _miss_deadline_ts w' = _miss_deadline_ts w
  ∧ _pending_miss w' = _pending_miss w
  ∧ _last_good_vars w' = _last_good_vars w.

Lemma only_effects_refl (w : MboxConnectionWorker) : only_effects w w.
Proof. repeat split. Qed.

Lemma only_effects_trans (w1 w2 w3 : MboxConnectionWorker) :
  only_effects w1 w2 → only_effects w2 w3 → only_effects w1 w3.
Proof.
  unfold only_effects. intros H12 H23.
  repeat match goal with H : _ ∧ _ |- _ => destruct H end.
  repeat split; congruence.
Qed.

Lemma miss_vars_only_effects (ts : string) (w w' : MboxConnectionWorker) :
  only_effects w w' → miss_vars ts w' = miss_vars ts w.
Proof.
  intros (Hc & _ & _ & _ & _ & _ & _ & _ & Hl).
  unfold miss_vars, _mbox_cfg. rewrite Hc, Hl. reflexivity.
Qed.

Lemma db_write_only_effects (writer : DBWriter) q params on_success w :
  (∀ w0, only_effects w0 (on_success w0)) →
  only_effects w (db_write writer q params on_success w).
Proof.
  intros Hs. unfold db_write. destruct (write_raises writer _).
  - repeat split.
  - eapply only_effects_trans; [|apply Hs]. repeat split.
Qed.

Lemma db_write_calls_db_write (writer : DBWriter) q params on_success w :
  (∀ w0, db_write_calls (on_success w0) = db_write_calls w0) →
  db_write_calls (db_write writer q params on_success w)
  = db_write_calls w ++ [(q, params)].
Proof.
  intros Hs. unfold db_write. destruct (write_raises writer _).
  - reflexivity.
  - rewrite Hs. reflexivity.
Qed.

Lemma insert_miss_pack_only_effects `{PyStr} (ts : string) (w : MboxConnectionWorker) :
  only_effects w (after (_insert_miss_pack ts w)).
Proof.
  unfold _insert_miss_pack. destruct (negb _); [apply only_effects_refl|].
  destruct (_db_writer w) as [writer|]; [|apply only_effects_refl].
  destruct (build_query_opt _ _) as [[q params]|e]; [|apply only_effects_refl].
  cbn [after returns].
  eapply only_effects_trans; [|apply db_write_only_effects; intros w0; repeat split].
  repeat split.
Qed.

(** One insertion with a template that builds: one more write call. *)
Lemma insert_miss_pack_writes `{PyStr} (ts : string) (w : MboxConnectionWorker)
    (writer : DBWriter) (q : string) (params : gmap string pyval) :
  enabled (_config w) = true → _db_writer w = Some writer →
  build_query_opt (query_template (_config w)) (miss_vars ts w) = Ok (q, params) →
  raised (_insert_miss_pack ts w) = None
  ∧ db_write_calls (after (_insert_miss_pack ts w)) = db_write_calls w ++ [(q, params)].
Proof.
  intros He Hw Hb. unfold _insert_miss_pack. rewrite He, Hw, Hb. cbn [negb].
  split; [reflexivity|]. cbn [after returns].
  rewrite db_write_calls_db_write; [reflexivity|]. intros w0. reflexivity.
Qed.

(** Without the enabled flag or without a writer nothing is written. *)
Lemma insert_miss_pack_skips `{PyStr} (ts : string) (w : MboxConnectionWorker) :
  enabled (_config w) = false ∨ _db_writer w = None →
  _insert_miss_pack ts w = returns w.
Proof.
  intros [He|Hw]; unfold _insert_miss_pack.
  - rewrite He. reflexivity.
  - rewrite Hw. destruct (negb _); reflexivity.
Qed.

Lemma insert_miss_packs_skips `{PyStr} (n i : nat) clock (w : MboxConnectionWorker) :
  enabled (_config w) = false ∨ _db_writer w = None →
  insert_miss_packs n i clock w = returns w.
Proof.
  intros Hs. revert i. induction n as [|n IH]; intros i; [reflexivity|].
  cbn [insert_miss_packs]. rewrite insert_miss_pack_skips by exact Hs.
  cbn [raised returns after]. apply IH.
Qed.

Lemma insert_miss_packs_only_effects `{PyStr} (n i : nat) clock (w : MboxConnectionWorker) :
  only_effects w (after (insert_miss_packs n i clock w)).
Proof.
  revert i w. induction n as [|n IH]; intros i w; [apply only_effects_refl|].
  cbn [insert_miss_packs].
  pose proof (insert_miss_pack_only_effects (clock i) w) as H1.
  destruct (raised (_insert_miss_pack (clock i) w)); [exact H1|].
  eapply only_effects_trans; [exact H1|apply IH].
Qed.

(** [n] insertions with a template that builds against the miss
    variables: no exception and exactly [n] more write calls, the j-th
    with the query built from the variables of pass [j]. *)
Lemma insert_miss_packs_writes `{PyStr} (n i : nat) clock (w : MboxConnectionWorker)
    (writer : DBWriter) :
  enabled (_config w) = true → _db_writer w = Some writer →
  (∀ ts, is_Ok (build_query_opt (query_template (_config w)) (miss_vars ts w)) = true) →
  raised (insert_miss_packs n i clock w) = None
  ∧ ∃ calls, db_write_calls (after (insert_miss_packs n i clock w))
             = db_write_calls w ++ calls
      ∧ length calls = n
      ∧ ∀ (j : nat) q params, calls !! j = Some (q, params) →
          build_query_opt (query_template (_config w)) (miss_vars (clock (i + j)%nat) w)
          = Ok (q, params).
Proof.
  revert i w. induction n as [|n IH]; intros i w He Hw Hb.
  - split; [reflexivity|]. exists []. cbn. rewrite app_nil_r.
    split; [reflexivity|]. split; [reflexivity|]. intros j q params Hj. discriminate Hj.
  - cbn [insert_miss_packs].
    destruct (build_query_opt (query_template (_config w)) (miss_vars (clock i) w))
      as [[q params]|e] eqn:Eb.
    2:{ specialize (Hb (clock i)). rewrite Eb in Hb. discriminate Hb. }
    destruct (insert_miss_pack_writes (clock i) w writer q params He Hw Eb) as [Hr Hc].
    pose proof (insert_miss_pack_only_effects (clock i) w) as Ho.
    rewrite Hr. set (w1 := after (_insert_miss_pack (clock i) w)) in *.
    assert (_config w1 = _config w) as Hcfg by apply Ho.
    assert (_db_writer w1 = _db_writer w) as Hwr by apply Ho.
    destruct (IH (S i) w1) as (Hr1 & calls & Hc1 & Hlen & Hall).
    { rewrite Hcfg. exact He. }
    { rewrite Hwr. exact Hw. }
    { intros ts. rewrite Hcfg, (miss_vars_only_effects ts w w1 Ho). apply Hb. }
    split; [exact Hr1|]. exists ((q, params) :: calls).
    split; [rewrite Hc1, Hc, <- app_assoc; reflexivity|].
    split; [cbn; rewrite Hlen; reflexivity|].
    intros [|j] q' params' Hj.
    + cbn in Hj. injection Hj as <- <-. rewrite Nat.add_0_r. exact Eb.
    + cbn in Hj. specialize (Hall j q' params' Hj).
      rewrite Hcfg, (miss_vars_only_effects _ w w1 Ho) in Hall.
      replace (i + S j)%nat with (S i + j)%nat by lia. exact Hall.
Qed.

(** The fixed fields of a synthetic miss record. *)
Lemma miss_vars_fields (ts : string) (w : MboxConnectionWorker) :
  let vars_ := miss_vars ts w in
  let cfg := _mbox_cfg w in
  vars_ !! "on_error"%string = Some (VBool true)
  ∧ vars_ !! "error_info"%string = Some (VStr (miss_error_label cfg))
  ∧ vars_ !! "mbox_id"%string = Some (VInt (mbox_id cfg))
  ∧ vars_ !! "tare"%string = Some (VFloat (tare cfg))
  ∧ vars_ !! "lot"%string = Some (VStr (lot cfg))
  ∧ vars_ !! "created_at"%string = Some (VStr ts).
Proof.
  cbv zeta. unfold miss_vars. cbv zeta.
  repeat split; simplify_map_eq; reflexivity.
Qed.

(** *** [tick_miss] *)

Lemma tick_miss_not_due `{PyStr} (now : float) clock (w : MboxConnectionWorker) :
  _miss_deadline_ts w = None
  ∨ (∃ d, _miss_deadline_ts w = Some d ∧ PrimFloat.ltb now d = true) →
  _tick_miss_insert now clock w = returns w.
Proof.
  intros [Hn|(d & Hd & Hlt)]; unfold _tick_miss_insert.
  - rewrite Hn. reflexivity.
  - rewrite Hd, Hlt. reflexivity.
Qed.

Lemma tick_miss_due_unfold `{PyStr} (now d : float) clock (w : MboxConnectionWorker) :
  _miss_deadline_ts w = Some d → PrimFloat.leb d now = true → 0 ≤ _pending_miss w →
  _tick_miss_insert now clock w
  = insert_miss_packs (Z.to_nat (miss_batch w)) 0 clock
      (set_pending_miss (_pending_miss w - miss_batch w) (set_miss_deadline_ts None w)).
Proof.
  intros Hd Hle Hp. unfold _tick_miss_insert.
  rewrite Hd, (FloatOrder.leb_not_ltb _ _ Hle).
  change (_pending_miss (set_miss_deadline_ts None w)) with (_pending_miss w).
  change (_mbox_cfg (set_miss_deadline_ts None w)) with (_mbox_cfg w).
  fold (miss_batch w).
  destruct (_pending_miss w <=? 0) eqn:E; [|reflexivity].
  apply Z.leb_le in E. assert (_pending_miss w = 0) as H0 by lia.
  assert (miss_batch w = 0) as Hb by (unfold miss_batch; lia).
  rewrite Hb, H0. cbn [Z.to_nat insert_miss_packs]. unfold returns. f_equal.
  destruct w; cbn in *. subst. reflexivity.
Qed.

(** C6, as stated, fails: the worker is enabled and has a writer, three
    increments are pending and the limit is two, so [n = 2]; the template
    asks for [fish_name], which a miss record built from the empty
    default does not have. [build_query] raises inside the first
    insertion, the exception leaves [tick_miss], and no record is
    written although [pending_miss] was already lowered by two. *)
Lemma tick_miss_template_error_inserts_nothing :
  let w := due_worker fish_template in
  let o := _tick_miss_insert 11%float sample_clock w in
  _miss_deadline_ts w = Some 10%float ∧ PrimFloat.leb 10%float 11%float = true
  ∧ enabled (_config w) = true ∧ _db_writer w = Some ok_writer
  ∧ miss_batch w = 2
  ∧ _pending_miss (after o) = _pending_miss w - 2
  ∧ raised o = Some (KeyError "Missing variables for query template: fish_name")
  ∧ db_write_calls (after o) = []
  ∧ ¬ (length (db_write_calls (after o))
       = (length (db_write_calls w) + Z.to_nat (miss_batch w))%nat).
Proof.
  cbv zeta. repeat split; try (vm_compute; reflexivity).
  vm_compute. discriminate.
Qed.

(** C6, amended: whenever [tick_miss] runs with [miss_deadline] set and
    [now >= miss_deadline] (and [pending_miss], which is never negative,
    at least 0), it clears [miss_deadline], takes
    [n = min(pending_miss, max(miss_insert_limit, 1))] and lowers
    [pending_miss] by exactly [n]. If the connection is disabled or has no
    DB writer nothing is written. If it is enabled, has a writer, and the
    query template builds against the variables of a miss record, it
    issues exactly [n] calls of the writer (a failure inside the writer is
    caught and counted), the j-th with the query built from the variables
    of that miss record, which have [on_error = true], [error_info] equal
    to the configured [miss_error_label], and [mbox_id], [tare], [lot]
    from the configuration. When [miss_deadline] is unset or [now] is
    before it, the whole worker, and so its reconciliation state, is
    unchanged. *)
Theorem tick_miss_insert_spec `{PyStr}
    (now : float) (clock : nat → string) (w : MboxConnectionWorker) :
  let o := _tick_miss_insert now clock w in
  let n := miss_batch w in
  let cfg := _mbox_cfg w in
  ((∃ d, _miss_deadline_ts w = Some d ∧ PrimFloat.leb d now = true) ∧ 0 ≤ _pending_miss w →
    _miss_deadline_ts (after o) = None
    ∧ _pending_miss (after o) = _pending_miss w - n
    ∧ (enabled (_config w) = false ∨ _db_writer w = None →
         raised o = None ∧ db_write_calls (after o) = db_write_calls w)
    ∧ (enabled (_config w) = true → is_Some (_db_writer w) →
       (∀ ts, is_Ok (build_query_opt (query_template (_config w)) (miss_vars ts w)) = true) →
         raised o = None
         ∧ ∃ calls, db_write_calls (after o) = db_write_calls w ++ calls
             ∧ Z.of_nat (length calls) = n
             ∧ ∀ (j : nat) q params, calls !! j = Some (q, params) →
                 let vars_ := miss_vars (clock j) w in
                 build_query_opt (query_template (_config w)) vars_ = Ok (q, params)
                 ∧ params ⊆ vars_
                 ∧ vars_ !! "on_error"%string = Some (VBool true)
                 ∧ vars_ !! "error_info"%string = Some (VStr (miss_error_label cfg))
                 ∧ vars_ !! "mbox_id"%string = Some (VInt (mbox_id cfg))
                 ∧ vars_ !! "tare"%string = Some (VFloat (tare cfg))
                 ∧ vars_ !! "lot"%string = Some (VStr (lot cfg))))
  ∧ (_miss_deadline_ts w = None
     ∨ (∃ d, _miss_deadline_ts w = Some d ∧ PrimFloat.ltb now d = true) →
     o = returns w ∧ reconciliation (after o) = reconciliation w).
Proof.
  cbv zeta. split.
  - intros [(d & Hd & Hle) Hp].
    rewrite (tick_miss_due_unfold now d clock w Hd Hle Hp).
    set (w0 := set_pending_miss (_pending_miss w - miss_batch w)
                 (set_miss_deadline_ts None w)).
    pose proof (insert_miss_packs_only_effects (Z.to_nat (miss_batch w)) 0 clock w0) as Ho.
    assert (0 ≤ miss_batch w) as Hn by (unfold miss_batch; lia).
    split; [destruct Ho as (_ & _ & _ & _ & _ & _ & -> & _); reflexivity|].
    split; [destruct Ho as (_ & _ & _ & _ & _ & _ & _ & -> & _); reflexivity|].
    split.
    + intros Hs. rewrite insert_miss_packs_skips by exact Hs. split; reflexivity.
    + intros He [writer Hw] Hb.
      destruct (insert_miss_packs_writes (Z.to_nat (miss_batch w)) 0 clock w0 writer)
        as (Hr & calls & Hc & Hlen & Hall); [exact He|exact Hw|exact Hb|].
      split; [exact Hr|]. exists calls. split; [exact Hc|]. split; [lia|].
      intros j q params Hj. specialize (Hall j q params Hj). cbn [Nat.add] in Hall.
      change (miss_vars (clock j) w0) with (miss_vars (clock j) w) in Hall.
      change (_config w0) with (_config w) in Hall.
      split; [exact Hall|]. split.
      * unfold build_query_opt in Hall. destruct (query_template (_config w)); [|discriminate].
        apply QueryTemplateFacts.build_query_Ok_inv in Hall. destruct Hall as (c & _ & _ & _ & Hsub). exact Hsub.
      * pose proof (miss_vars_fields (clock j) w) as Hf. cbv zeta in Hf. tauto.
  - intros Hnd. rewrite (tick_miss_not_due now clock w Hnd). split; reflexivity.
Qed.

Lemma tick_miss_insert_spec_witness :
  let w := due_worker miss_template in
  let o := _tick_miss_insert 11%float sample_clock w in
  _miss_deadline_ts (after o) = None
  ∧ _pending_miss (after o) = 3 - 2
  ∧ raised o = None
  ∧ ∃ calls, db_write_calls (after o) = calls ∧ Z.of_nat (length calls) = 2.
Proof.
  cbv zeta.
  destruct (tick_miss_insert_spec 11%float sample_clock (due_worker miss_template))
    as [Hdue _].
  destruct Hdue as (Hd & Hp & _ & Hw).
  { split; [exists 10%float; split; [reflexivity|vm_compute; reflexivity]|].
    vm_compute. discriminate. }
  destruct Hw as (Hr & calls & Hc & Hlen & _).
  { reflexivity. }
  { eexists. reflexivity. }
  { intros ts. vm_compute. reflexivity. }
  split; [exact Hd|]. split; [exact Hp|]. split; [exact Hr|].
  exists calls. split; [exact Hc|exact Hlen].
Defined.

(** *** [pending_miss] is never negative *)

Lemma handle_result_keeps_pending_miss `{PyStr} (res : MboxTransformResult) w :
  _pending_miss (after (_handle_result res w)) = _pending_miss w.
Proof.
  unfold _handle_result.
  destruct (negb _); [reflexivity|].
  destruct (is_empty_template _); [reflexivity|].
  destruct (_db_writer w) as [writer|]; [|reflexivity].
  destruct (build_query_opt _ _) as [[q params]|e]; [|reflexivity].
  cbn [after returns]. unfold db_write.
  destruct (write_raises writer _); reflexivity.
Qed.

Lemma on_frame_keeps_pending_miss `{PyStr} `{PyParse} (payload : list byte) (t : float) w :
  _pending_miss (on_frame payload t w) = _pending_miss w.
Proof.
  unfold on_frame. cbv zeta.
  destruct (parse_label_frame payload _) as [rec|e]; [|reflexivity].
  destruct (transform _ _ rec) as [res tr].
  match goal with |- context [_handle_result res ?w0] =>
    pose proof (handle_result_keeps_pending_miss res w0) as Hk;
    destruct (raised (_handle_result res w0)) end.
  - cbn. cbn in Hk. rewrite Hk. reflexivity.
  - rewrite Hk. reflexivity.
Qed.

Lemma step_pending_miss_nonneg `{PyStr} `{PyParse} (e : event) (w : MboxConnectionWorker) :
  0 ≤ _pending_miss w → 0 ≤ _pending_miss (step e w).
Proof.
  intros Hp. destruct e as [now|now clock|payload t|p]; cbn [step].
  - unfold _tick_counter_logic.
    destruct (_read_counter_total w) as [total|]; [|exact Hp].
    destruct (_counter_last_total w) as [last|]; [|exact Hp].
    cbv zeta. destruct (total - last <=? 0) eqn:E; [exact Hp|].
    apply Z.leb_gt in E.
    change (_pending_pack_ts (set_counter_last_total (Some total)
              (_metric_inc "counter_increments_total" (total - last) true w)))
      with (_pending_pack_ts w).
    destruct (_pending_pack_ts w); [exact Hp|]. cbn. lia.
  - unfold _tick_miss_insert. destruct (_miss_deadline_ts w) as [d|]; [|exact Hp].
    destruct (PrimFloat.ltb now d); [exact Hp|]. cbv zeta.
    destruct (_pending_miss _ <=? 0); [exact Hp|].
    match goal with |- context [insert_miss_packs ?n ?i ?c ?w0] =>
      pose proof (insert_miss_packs_only_effects n i c w0) as Ho end.
    destruct Ho as (_ & _ & _ & _ & _ & _ & _ & -> & _). cbn. lia.
  - rewrite on_frame_keeps_pending_miss. exact Hp.
  - exact Hp.
Qed.

Lemma reachable_pending_miss_nonneg `{PyStr} `{PyParse} (w : MboxConnectionWorker) :
  reachable w → 0 ≤ _pending_miss w.
Proof.
  induction 1 as [config db_writer provider|e w Hr IH].
  - cbn. lia.
  - apply step_pending_miss_nonneg. exact IH.
Qed.

(** *** The two reconciliation scenarios *)

Example miss_scenario_one_write :
  let w := run miss_scenario fresh_worker in
  _pending_miss w = 1
  ∧ _miss_deadline_ts w = Some 5%float
  ∧ db_write_calls w = [].
Proof. vm_compute. repeat split; reflexivity. Qed.

Example miss_scenario_after_deadline :
  let w := run (miss_scenario ++ [TickMiss 5%float sample_clock]) fresh_worker in
  _pending_miss w = 0
  ∧ _miss_deadline_ts w = None
  ∧ db_write_calls w
    = [("INSERT INTO t VALUES (:mbox_id, :on_error, :error_info, :lot, :tare)"%string,
        {[ "mbox_id"%string := VInt 7; "on_error"%string := VBool true;
           "error_info"%string := VStr "scales error"; "lot"%string := VStr "L1";
           "tare"%string := VFloat 0.5%float ]})].
Proof. vm_compute. repeat split; reflexivity. Qed.

Example clean_scenario_one_write :
  let w := run clean_scenario fresh_worker in
  _pending_pack_ts w = None
  ∧ _pending_miss w = 0
  ∧ length (db_write_calls w) = 1%nat
  ∧ (snd <$> db_write_calls w !! 0%nat) ≫= (fun ps => ps !! "on_error"%string)
    = Some (VBool false)
  ∧ _extra_metrics w !! "counter_confirm_total"%string = Some 1.
Proof. vm_compute. repeat split; reflexivity. Qed.

(** *** The pending-pack deadline *)

Lemma tick_miss_keeps_pending_pack `{PyStr} (now : float) clock (w : MboxConnectionWorker) :
  _pending_pack_ts (after (_tick_miss_insert now clock w)) = _pending_pack_ts w.
Proof.
  unfold _tick_miss_insert. destruct (_miss_deadline_ts w) as [d|]; [|reflexivity].
  destruct (PrimFloat.ltb now d); [reflexivity|].
  destruct (_pending_miss _ <=? 0); [reflexivity|].
  match goal with |- context [insert_miss_packs ?n ?i ?c ?w0] =>
    pose proof (insert_miss_packs_only_effects n i c w0) as Ho end.
  destruct Ho as (_ & _ & _ & _ & _ & -> & _). reflexivity.
Qed.

(** The operations below neither read nor write the pending-pack
    deadline: they commute with an assignment to it. *)
Lemma metric_inc_pack (name : string) (v : Z) (extra : bool) p w :
  _metric_inc name v extra (set_pending_pack_ts p w)
  = set_pending_pack_ts p (_metric_inc name v extra w).
Proof. destruct extra; reflexivity. Qed.

Lemma db_write_pack (writer : DBWriter) q params on_success p w :
  (∀ w0, on_success (set_pending_pack_ts p w0) = set_pending_pack_ts p (on_success w0)) →
  db_write writer q params on_success (set_pending_pack_ts p w)
  = set_pending_pack_ts p (db_write writer q params on_success w).
Proof.
  intros Hs. unfold db_write.
  change (db_write_calls (set_pending_pack_ts p w)) with (db_write_calls w).
  destruct (write_raises writer _); [reflexivity|].
  cbv zeta. rewrite <- Hs. reflexivity.
Qed.

Lemma insert_miss_pack_pack `{PyStr} (ts : string) p w :
  _insert_miss_pack ts (set_pending_pack_ts p w)
  = {| after := set_pending_pack_ts p (after (_insert_miss_pack ts w));
       raised := raised (_insert_miss_pack ts w) |}.
Proof.
  unfold _insert_miss_pack.
  change (_config (set_pending_pack_ts p w)) with (_config w).
  change (_db_writer (set_pending_pack_ts p w)) with (_db_writer w).
  change (miss_vars ts (set_pending_pack_ts p w)) with (miss_vars ts w).
  destruct (negb _); [reflexivity|].
  destruct (_db_writer w) as [writer|]; [|reflexivity].
  destruct (build_query_opt _ _) as [[q params]|e]; [|reflexivity].
  unfold returns. cbn [after raised]. f_equal.
  change (_log_message (set_pending_pack_ts p w))
    with (set_pending_pack_ts p (_log_message w)).
  apply db_write_pack. intros w0. reflexivity.
Qed.

Lemma insert_miss_packs_pack `{PyStr} (n i : nat) clock p w :
  insert_miss_packs n i clock (set_pending_pack_ts p w)
  = {| after := set_pending_pack_ts p (after (insert_miss_packs n i clock w));
       raised := raised (insert_miss_packs n i clock w) |}.
Proof.
  revert i w. induction n as [|n IH]; intros i w; [reflexivity|].
  cbn [insert_miss_packs]. rewrite insert_miss_pack_pack. cbn [raised after].
  destruct (_insert_miss_pack (clock i) w) as [a [e|]]; cbn [raised after];
    [reflexivity|apply IH].
Qed.

Lemma tick_miss_pack `{PyStr} (now : float) clock p w :
  _tick_miss_insert now clock (set_pending_pack_ts p w)
  = {| after := set_pending_pack_ts p (after (_tick_miss_insert now clock w));
       raised := raised (_tick_miss_insert now clock w) |}.
Proof.
  unfold _tick_miss_insert.
  change (_miss_deadline_ts (set_pending_pack_ts p w)) with (_miss_deadline_ts w).
  destruct (_miss_deadline_ts w) as [d|]; [|reflexivity].
  destruct (PrimFloat.ltb now d); [reflexivity|]. cbv zeta.
  change (_pending_miss (set_miss_deadline_ts None (set_pending_pack_ts p w)))
    with (_pending_miss (set_miss_deadline_ts None w)).
  destruct (_pending_miss _ <=? 0); [reflexivity|].
  match goal with |- insert_miss_packs ?n _ _ _ = _ =>
    exact (insert_miss_packs_pack n 0 clock p
             (set_pending_miss (_pending_miss w - miss_batch w)
                (set_miss_deadline_ts None w)))
  end.
Qed.

Lemma handle_result_pack `{PyStr} (res : MboxTransformResult) p w :
  _handle_result res (set_pending_pack_ts p w)
  = {| after := set_pending_pack_ts p (after (_handle_result res w));
       raised := raised (_handle_result res w) |}.
Proof.
  unfold _handle_result.
  change (_config (set_pending_pack_ts p w)) with (_config w).
  change (_db_writer (set_pending_pack_ts p w)) with (_db_writer w).
  destruct (negb _); [reflexivity|].
  destruct (is_empty_template _); [reflexivity|].
  destruct (_db_writer w) as [writer|]; [|reflexivity].
  destruct (build_query_opt _ _) as [[q params]|e]; [|reflexivity].
  unfold returns. cbn [after raised]. f_equal.
  change (_log_message (set_pending_pack_ts p w))
    with (set_pending_pack_ts p (_log_message w)).
  apply db_write_pack. intros w0. reflexivity.
Qed.

Lemma handle_result_keeps_pending_pack `{PyStr} (res : MboxTransformResult) w :
  _pending_pack_ts (after (_handle_result res w)) = _pending_pack_ts w.
Proof.
  unfold _handle_result.
  destruct (negb _); [reflexivity|].
  destruct (is_empty_template _); [reflexivity|].
  destruct (_db_writer w) as [writer|]; [|reflexivity].
  destruct (build_query_opt _ _) as [[q params]|e]; [|reflexivity].
  cbn [after returns]. unfold db_write.
  destruct (write_raises writer _); reflexivity.
Qed.

(** A frame that does not parse leaves the deadline alone; a frame that
    parses sets it to the reading of the clock plus the clean timeout. *)
Lemma on_frame_pending_pack `{PyStr} `{PyParse} (payload : list byte) (t : float) w :
  _pending_pack_ts (on_frame payload t w)
  = match parse_label_frame payload (encoding (_mbox_cfg w)) with
    | Ok _ => Some (PrimFloat.add t (counter_clean_timeout (_mbox_cfg w)))
    | Raise _ => _pending_pack_ts w
    end.
Proof.
  unfold on_frame. cbv zeta.
  change (_mbox_cfg (_metric_inc "frames_total" 1 true w)) with (_mbox_cfg w).
  destruct (parse_label_frame payload _) as [rec|e]; [|reflexivity].
  destruct (transform _ _ rec) as [res tr].
  match goal with |- context [_handle_result res ?w0] =>
    pose proof (handle_result_keeps_pending_pack res w0) as Hk;
    destruct (raised (_handle_result res w0)) end.
  - cbn. cbn in Hk. rewrite Hk. reflexivity.
  - rewrite Hk. reflexivity.
Qed.

Lemma on_frame_pack `{PyStr} `{PyParse} (payload : list byte) (t : float) p w :
  on_frame payload t (set_pending_pack_ts p w)
  = match parse_label_frame payload (encoding (_mbox_cfg w)) with
    | Ok _ => on_frame payload t w
    | Raise _ => set_pending_pack_ts p (on_frame payload t w)
    end.
Proof.
  unfold on_frame. cbv zeta.
  change (_mbox_cfg (_metric_inc "frames_total" 1 true (set_pending_pack_ts p w)))
    with (_mbox_cfg w).
  change (_mbox_cfg (_metric_inc "frames_total" 1 true w)) with (_mbox_cfg w).
  destruct (parse_label_frame payload _) as [rec|e]; [|reflexivity].
  change (_transformer (_metric_inc "parse_ok_total" 1 true
            (_metric_inc "frames_total" 1 true (set_pending_pack_ts p w))))
    with (_transformer (_metric_inc "parse_ok_total" 1 true
            (_metric_inc "frames_total" 1 true w))).
  change (_mbox_cfg (_metric_inc "parse_ok_total" 1 true
            (_metric_inc "frames_total" 1 true (set_pending_pack_ts p w))))
    with (_mbox_cfg (_metric_inc "parse_ok_total" 1 true
            (_metric_inc "frames_total" 1 true w))).
  destruct (transform _ _ rec) as [res tr]. reflexivity.
Qed.

(** [tick_counter] clears the deadline exactly on a positive delta. *)
Lemma tick_counter_pending_pack (now : float) (w : MboxConnectionWorker) :
  _pending_pack_ts (_tick_counter_logic now w)
  = match _read_counter_total w, _counter_last_total w with
    | Some total, Some last =>
        if total - last <=? 0 then _pending_pack_ts w else None
    | _, _ => _pending_pack_ts w
    end.
Proof.
  unfold _tick_counter_logic.
  destruct (_read_counter_total w) as [total|]; [|reflexivity].
  destruct (_counter_last_total w) as [last|]; [|reflexivity].
  cbv zeta. destruct (total - last <=? 0); [reflexivity|].
  change (_pending_pack_ts (set_counter_last_total (Some total)
            (_metric_inc "counter_increments_total" (total - last) true w)))
    with (_pending_pack_ts w).
  destruct (_pending_pack_ts w) eqn:E; [reflexivity|exact E].
Qed.

(** The value of a set deadline does not influence [tick_counter]. *)
Lemma tick_counter_pack (now d1 d2 : float) (w : MboxConnectionWorker) :
  set_pending_pack_ts None (_tick_counter_logic now (set_pending_pack_ts (Some d1) w))
  = set_pending_pack_ts None (_tick_counter_logic now (set_pending_pack_ts (Some d2) w)).
Proof.
  unfold _tick_counter_logic.
  change (_read_counter_total (set_pending_pack_ts (Some d1) w)) with (_read_counter_total w).
  change (_read_counter_total (set_pending_pack_ts (Some d2) w)) with (_read_counter_total w).
  destruct (_read_counter_total w) as [total|]; [|reflexivity].
  change (_counter_last_total (set_pending_pack_ts (Some d1) w)) with (_counter_last_total w).
  change (_counter_last_total (set_pending_pack_ts (Some d2) w)) with (_counter_last_total w).
  destruct (_counter_last_total w) as [last|]; [|reflexivity].
  cbv zeta. destruct (total - last <=? 0); reflexivity.
Qed.

(** C5: in the counter reconciliation of the mbox worker the pending-pack
    deadline is never cleared by the passage of time or by [tick_miss]:
    [tick_miss] leaves it as it is; a step that clears it is a
    [tick_counter] that observes a positive counter delta (and every such
    [tick_counter] leaves it cleared); a step that sets or moves it is the
    handling of a frame that parses; and no step compares anything with
    the stored deadline: started from two workers that differ only in the
    value of a set deadline, a step ends in two workers that again differ
    at most in that value, and [tick_counter] at two different times
    leaves the same deadline. *)
Theorem pending_pack_deadline_only_cleared_by_counter `{PyStr} `{PyParse}
    (e : event) (w : MboxConnectionWorker) :
  (∀ now clock,
     _pending_pack_ts (after (_tick_miss_insert now clock w)) = _pending_pack_ts w)
  ∧ (_pending_pack_ts w ≠ None → _pending_pack_ts (step e w) = None →
     ∃ now total last,
       e = TickCounter now ∧ _read_counter_total w = Some total
       ∧ _counter_last_total w = Some last ∧ 0 < total - last)
  ∧ (∀ now total last,
       _read_counter_total w = Some total → _counter_last_total w = Some last →
       0 < total - last → _pending_pack_ts (_tick_counter_logic now w) = None)
  ∧ (_pending_pack_ts (step e w) ≠ _pending_pack_ts w →
     _pending_pack_ts (step e w) ≠ None →
     ∃ payload t rec,
       e = Frame payload t
       ∧ parse_label_frame payload (encoding (_mbox_cfg w)) = Ok rec
       ∧ _pending_pack_ts (step e w)
         = Some (PrimFloat.add t (counter_clean_timeout (_mbox_cfg w))))
  ∧ (∀ d1 d2,
       let w1 := step e (set_pending_pack_ts (Some d1) w) in
       let w2 := step e (set_pending_pack_ts (Some d2) w) in
       set_pending_pack_ts None w1 = set_pending_pack_ts None w2
       ∧ ((_pending_pack_ts w1 = Some d1 ∧ _pending_pack_ts w2 = Some d2)
          ∨ _pending_pack_ts w1 = _pending_pack_ts w2))
  ∧ (∀ now1 now2,
       _pending_pack_ts (_tick_counter_logic now1 w)
       = _pending_pack_ts (_tick_counter_logic now2 w)).
Proof.
  split; [intros now clock; apply tick_miss_keeps_pending_pack|].
  split.
  { intros Hset Hclr. destruct e as [now|now clock|payload t|p]; cbn [step] in Hclr.
    - rewrite tick_counter_pending_pack in Hclr.
      destruct (_read_counter_total w) as [total|]; [|contradiction].
      destruct (_counter_last_total w) as [last|]; [|contradiction].
      destruct (total - last <=? 0) eqn:E; [contradiction|].
      apply Z.leb_gt in E. exists now, total, last. auto.
    - rewrite tick_miss_keeps_pending_pack in Hclr. contradiction.
    - rewrite on_frame_pending_pack in Hclr.
      destruct (parse_label_frame payload _); [discriminate|contradiction].
    - contradiction. }
  split.
  { intros now total last Ht Hl Hd. rewrite tick_counter_pending_pack, Ht, Hl.
    destruct (total - last <=? 0) eqn:E; [apply Z.leb_le in E; lia|reflexivity]. }
  split.
  { intros Hchg Hset. destruct e as [now|now clock|payload t|p]; cbn [step] in *.
    - exfalso. rewrite tick_counter_pending_pack in Hchg, Hset.
      destruct (_read_counter_total w); [|congruence].
      destruct (_counter_last_total w); [|congruence].
      destruct (_ <=? 0); congruence.
    - exfalso. rewrite tick_miss_keeps_pending_pack in Hchg. congruence.
    - destruct (parse_label_frame payload (encoding (_mbox_cfg w))) as [rec|ex] eqn:Ep.
      + exists payload, t, rec. rewrite on_frame_pending_pack, Ep. auto.
      + exfalso. rewrite on_frame_pending_pack, Ep in Hchg. congruence.
    - exfalso. apply Hchg. reflexivity. }
  split.
  { intros d1 d2. cbv zeta.
    destruct e as [now|now clock|payload t|p]; cbn [step].
    - split; [apply tick_counter_pack|].
      rewrite !tick_counter_pending_pack.
      change (_read_counter_total (set_pending_pack_ts (Some d1) w))
        with (_read_counter_total w).
      change (_read_counter_total (set_pending_pack_ts (Some d2) w))
        with (_read_counter_total w).
      change (_counter_last_total (set_pending_pack_ts (Some d1) w))
        with (_counter_last_total w).
      change (_counter_last_total (set_pending_pack_ts (Some d2) w))
        with (_counter_last_total w).
      destruct (_read_counter_total w); [|left; split; reflexivity].
      destruct (_counter_last_total w); [|left; split; reflexivity].
      destruct (_ <=? 0); [left; split; reflexivity|right; reflexivity].
    - rewrite !tick_miss_pack. cbn [after]. split; [reflexivity|].
      left. split; reflexivity.
    - rewrite !on_frame_pack.
      destruct (parse_label_frame payload _); [split; [reflexivity|right; reflexivity]|].
      split; [reflexivity|left; split; reflexivity].
    - split; [reflexivity|left; split; reflexivity]. }
  intros now1 now2. rewrite !tick_counter_pending_pack. reflexivity.
Qed.

End MboxWorkerFacts.

(** ** Mbox-counter wire protocol: checksum, request and response *)

Module ProtocolProps.
Import MboxCounterProtocol MboxCounterEmulator.
Local Open Scope Z_scope.

Example emulator_response :
  build_read_response 0x1A78 2694184 1 0x05 = Ok response_1A78.
Proof. vm_compute. reflexivity. Qed.

(** *** Bytes and little-endian integers *)

Lemma byte_of_int_Ok (z : Z) :
  0 ≤ z < 256 → ∃ b, byte_of_int z = Ok b ∧ byte_val b = z.
Proof.
  intros Hz. unfold byte_of_int. destruct (z <? 0) eqn:E; [lia|].
  destruct (Byte.of_N (Z.to_N z)) as [b|] eqn:Eb.
  - exists b. split; [reflexivity|]. apply Byte.to_of_N in Eb.
    unfold byte_val. rewrite Eb. lia.
  - pose proof (Byte.to_of_N_option_map (Z.to_N z)) as Ho. rewrite Eb in Ho.
    cbn in Ho. destruct (Z.to_N z <=? 255)%N eqn:El; [discriminate|].
    apply N.leb_gt in El. lia.
Qed.

Lemma byte_of_int_inv (z : Z) (b : byte) :
  byte_of_int z = Ok b → byte_val b = z ∧ 0 ≤ z < 256.
Proof.
  unfold byte_of_int. destruct (z <? 0) eqn:E; [discriminate|].
  apply Z.ltb_ge in E.
  destruct (Byte.of_N (Z.to_N z)) as [b'|] eqn:Eb; [|discriminate].
  intros [= <-]. apply Byte.to_of_N in Eb. pose proof (byte_val_range b') as Hr.
  unfold byte_val in *. rewrite Eb in *. lia.
Qed.

Lemma int_to_bytes_le_Ok (n : nat) (z : Z) :
  0 ≤ z < 256 ^ Z.of_nat n →
  ∃ bs, int_to_bytes_le n z = Ok bs ∧ length bs = n ∧ int_from_bytes_le bs = z.
Proof.
  revert z. induction n as [|n IH]; intros z Hz.
  - cbn in Hz. assert (z = 0) as -> by lia. exists []. repeat split.
  - rewrite Nat2Z.inj_succ, Z.pow_succ_r in Hz by lia.
    cbn [int_to_bytes_le]. destruct (z <? 0) eqn:E; [lia|].
    destruct (byte_of_int_Ok (z mod 256)) as (b & -> & Hb).
    { apply Z.mod_pos_bound. lia. }
    destruct (IH (z / 256)) as (bs & -> & Hlen & Hval).
    { split; [apply Z.div_pos; lia|]. apply Z.div_lt_upper_bound; lia. }
    cbn [rbind]. exists (b :: bs). split; [reflexivity|].
    split; [cbn; rewrite Hlen; reflexivity|].
    cbn [int_from_bytes_le fold_right]. fold (int_from_bytes_le bs).
    rewrite Hb, Hval. pose proof (Z.div_mod z 256). lia.
Qed.

Lemma int_to_bytes_le_inv (n : nat) (z : Z) (bs : list byte) :
  int_to_bytes_le n z = Ok bs → 0 ≤ z < 256 ^ Z.of_nat n.
Proof.
  revert z bs. induction n as [|n IH]; intros z bs.
  - cbn. destruct (z =? 0) eqn:E; [|discriminate]. intros _. apply Z.eqb_eq in E. lia.
  - cbn [int_to_bytes_le]. destruct (z <? 0) eqn:E; [discriminate|].
    apply Z.ltb_ge in E.
    destruct (byte_of_int (z mod 256)) as [b|]; [|discriminate]. cbn [rbind].
    destruct (int_to_bytes_le n (z / 256)) as [rest|] eqn:Er; [|discriminate].
    intros _. apply IH in Er. rewrite Nat2Z.inj_succ, Z.pow_succ_r by lia.
    split; [exact E|]. destruct Er as [_ Hu].
    pose proof (Z.div_mod z 256). pose proof (Z.mod_pos_bound z 256). lia.
Qed.

Lemma int_from_bytes_le_range (bs : list byte) :
  0 ≤ int_from_bytes_le bs < 256 ^ Z.of_nat (length bs).
Proof.
  induction bs as [|b bs IH]; [cbn; lia|].
  cbn [int_from_bytes_le fold_right length]. fold (int_from_bytes_le bs).
  rewrite Nat2Z.inj_succ, Z.pow_succ_r by lia.
  pose proof (byte_val_range b). lia.
Qed.

(** *** The checksum *)

Lemma land_255_range (z : Z) : 0 ≤ Z.land z 0xFF < 256.
Proof.
  change 0xFF with (Z.ones 8). rewrite Z.land_ones by lia.
  apply Z.mod_pos_bound. lia.
Qed.

Lemma crc8_shift_even (crc : Z) : Z.odd (crc8_shift crc) = false.
Proof.
  unfold crc8_shift. rewrite <- Z.bit0_odd, Z.land_spec, Z.shiftl_spec_low by lia.
  reflexivity.
Qed.

Lemma crc8_byte_even (crc : Z) (b : byte) : Z.odd (crc8_byte crc b) = false.
Proof. unfold crc8_byte. cbn [Nat.iter]. apply crc8_shift_even. Qed.

Lemma crc8_fold_even (data : list byte) (crc : Z) :
  Z.odd crc = false → Z.odd (fold_left crc8_byte data crc) = false.
Proof.
  revert crc. induction data as [|b data IH]; intros crc Hc; [exact Hc|].
  cbn [fold_left]. apply IH. apply crc8_byte_even.
Qed.

(** [crc8_e5] returns a byte value, and always an odd one: every pass of
    the bit loop shifts a zero into the low bit before the final
    complement, so the low bit of the checksum carries no information. *)
Theorem crc8_e5_is_odd_byte (data : list byte) :
  0 ≤ crc8_e5 data < 256 ∧ Z.odd (crc8_e5 data) = true.
Proof.
  unfold crc8_e5. split; [apply land_255_range|].
  rewrite <- Z.bit0_odd, Z.land_spec, Z.lnot_spec, Z.bit0_odd by lia.
  rewrite crc8_fold_even by reflexivity. reflexivity.
Qed.

Lemma crc8_e5_byte (data : list byte) :
  ∃ b, byte_of_int (crc8_e5 data) = Ok b ∧ byte_val b = crc8_e5 data.
Proof. apply byte_of_int_Ok. unfold crc8_e5. apply land_255_range. Qed.

Lemma int_to_bytes_le_1 (z : Z) :
  0 ≤ z < 256 → ∃ b, int_to_bytes_le 1 z = Ok [b] ∧ byte_val b = z.
Proof.
  intros Hz. destruct (int_to_bytes_le_Ok 1 z) as (bs & Hb & Hlen & Hval); [cbn; lia|].
  destruct bs as [|b [|]]; try discriminate. exists b. split; [exact Hb|].
  cbn in Hval. lia.
Qed.

(** *** The request *)

Lemma build_read_request_in_range (serial_u16 : Z) :
  0 ≤ serial_u16 ≤ 0xFFFF →
  ∃ lo hi h,
    build_read_request serial_u16 = Ok [x27; x05; x43; lo; hi; h; x01; x00; xf3]
    ∧ byte_val lo = serial_u16 mod 256 ∧ byte_val hi = serial_u16 / 256
    ∧ int_from_bytes_le [lo; hi] = serial_u16
    ∧ byte_val h = crc8_e5 [x05; x43; lo; hi].
Proof.
  intros Hs. unfold build_read_request.
  replace ((0 <=? serial_u16) && (serial_u16 <=? 0xFFFF)) with true
    by (symmetry; apply andb_true_intro; split; apply Z.leb_le; lia).
  cbn [negb].
  destruct (int_to_bytes_le_Ok 2 serial_u16) as (a & Ha & Hlen & Hval); [cbn; lia|].
  destruct a as [|lo [|hi [|]]]; try discriminate.
  pose proof Ha as Ha'. cbn [int_to_bytes_le] in Ha'.
  destruct (serial_u16 <? 0) eqn:E0; [lia|].
  destruct (byte_of_int (serial_u16 mod 256)) as [lo'|] eqn:Elo; [|discriminate].
  cbn [rbind] in Ha'.
  destruct (serial_u16 / 256 <? 0) eqn:E1; [discriminate|].
  destruct (byte_of_int ((serial_u16 / 256) mod 256)) as [hi'|] eqn:Ehi; [|discriminate].
  cbn [rbind] in Ha'.
  destruct (serial_u16 / 256 / 256 =? 0) eqn:E2; [|discriminate].
  cbn [rbind] in Ha'. injection Ha' as <- <-.
  apply byte_of_int_inv in Elo, Ehi.
  rewrite Ha. cbn [rbind].
  change (byte_of_int 5) with (Ok (A := byte) x05).
  change (byte_of_int C_READ_REQ) with (Ok (A := byte) x43).
  change (byte_of_int PREAMBLE) with (Ok (A := byte) x27).
  cbn [rbind app].
  destruct (int_to_bytes_le_1 (crc8_e5 [x05; x43; lo'; hi'])) as (h & Hh & Hhv).
  { unfold crc8_e5. apply land_255_range. }
  rewrite Hh. cbn [rbind].
  change (int_to_bytes_le 1 (crc8_e5 DATA_ADDR)) with (Ok [xf3]).
  cbn [rbind app]. exists lo', hi', h. split; [reflexivity|].
  destruct Elo as [Elo _]. destruct Ehi as [Ehi _].
  split; [exact Elo|]. split; [rewrite Ehi; apply Z.mod_small; split;
    [apply Z.div_pos; lia|apply Z.div_lt_upper_bound; lia]|].
  split; [exact Hval|exact Hhv].
Qed.

(** [build_read_request] accepts exactly the uint16 serials. For those it
    returns the nine bytes [27 05 43 lo hi crc 01 00 f3], where [lo hi]
    is the serial in little-endian order and [crc] the checksum of the
    four header bytes; every other serial is a ValueError. *)
Theorem build_read_request_frame (serial_u16 : Z) :
  (0 ≤ serial_u16 ≤ 0xFFFF →
   ∃ lo hi h,
     build_read_request serial_u16 = Ok [x27; x05; x43; lo; hi; h; x01; x00; xf3]
     ∧ byte_val lo = serial_u16 mod 256 ∧ byte_val hi = serial_u16 / 256
     ∧ int_from_bytes_le [lo; hi] = serial_u16
     ∧ byte_val h = crc8_e5 [x05; x43; lo; hi])
  ∧ (¬ (0 ≤ serial_u16 ≤ 0xFFFF) →
     build_read_request serial_u16 = Raise (ValueError "serial must be uint16 (0..65535)")).
Proof.
  split.
  - exact (build_read_request_in_range serial_u16).
  - intros Hs. unfold build_read_request.
    destruct ((0 <=? serial_u16) && (serial_u16 <=? 0xFFFF)) eqn:E; [|reflexivity].
    apply andb_prop in E. destruct E as [E1 E2].
    apply Z.leb_le in E1, E2. lia.
Qed.

(** *** The response *)

Lemma index_in_range {A : Type} (l : list A) (i : Z) :
  0 ≤ i < Z.of_nat (length l) → ∃ x, index l i = Ok x.
Proof.
  intros Hi. unfold index, index_with.
  destruct (i <? 0) eqn:E; [lia|].
  destruct (nth_error l (Z.to_nat i)) eqn:En; [eauto|].
  apply nth_error_None in En. lia.
Qed.

Lemma length_slice {A : Type} (l : list A) (a b : Z) :
  0 ≤ a →
  Z.of_nat (length (slice l a b)) = Z.max 0 (Z.min (b - a) (Z.of_nat (length l) - a)).
Proof.
  intros Ha. unfold slice. rewrite length_firstn, length_skipn. lia.
Qed.

(** A fourteen-byte frame with the right codes and checksums parses to
    its fields. *)
Lemma parse_response_frame_fields (lo hi h t0 t1 t2 t3 s0 s1 f dc : byte) :
  byte_val h = crc8_e5 [x0a; x08; lo; hi] →
  byte_val dc = crc8_e5 [t0; t1; t2; t3; s0; s1; f] →
  parse_response_frame [x27; x0a; x08; lo; hi; h; t0; t1; t2; t3; s0; s1; f; dc]
  = Ok {| serial := int_from_bytes_le [lo; hi];
          total_count := int_from_bytes_le [t0; t1; t2; t3];
          size_dir := int_from_bytes_le [s0; s1];
          flags := byte_val f |}.
Proof.
  intros Hh Hd. unfold parse_response_frame.
  change (byte_val x27 =? PREAMBLE) with true.
  cbn [negb length Z.of_nat]. cbv iota.
  change (Z.of_nat 14 <? 6) with false. cbv iota.
  change (index [x27; x0a; x08; lo; hi; h; t0; t1; t2; t3; s0; s1; f; dc] 1)
    with (Ok (A := byte) x0a).
  cbn [rbind]. cbv zeta.
  change (byte_val x0a) with 10.
  change (Z.of_nat 14 =? 4 + 10) with true.
  cbn [negb]. cbv iota.
  change (index [x27; x0a; x08; lo; hi; h; t0; t1; t2; t3; s0; s1; f; dc] 2)
    with (Ok (A := byte) x08).
  cbn [rbind].
  change (byte_val x08 =? C_READ_RESP) with true.
  cbn [negb]. cbv iota.
  change (index [x27; x0a; x08; lo; hi; h; t0; t1; t2; t3; s0; s1; f; dc] 5)
    with (Ok (A := byte) h).
  cbn [rbind].
  change (slice [x27; x0a; x08; lo; hi; h; t0; t1; t2; t3; s0; s1; f; dc] 1 5)
    with [x0a; x08; lo; hi].
  rewrite <- Hh, Z.eqb_refl. cbn [negb]. cbv iota.
  change (slice [x27; x0a; x08; lo; hi; h; t0; t1; t2; t3; s0; s1; f; dc] 6 (6 + (10 - 3)))
    with [t0; t1; t2; t3; s0; s1; f].
  change (index [x27; x0a; x08; lo; hi; h; t0; t1; t2; t3; s0; s1; f; dc] (6 + (10 - 3)))
    with (Ok (A := byte) dc).
  cbn [rbind]. rewrite <- Hd, Z.eqb_refl. cbn [negb]. cbv iota.
  reflexivity.
Qed.

(** Round trip with the emulator: for a uint16 serial, a uint32 total
    and a uint16 [size_dir], the frame that [build_read_response] builds
    has fourteen bytes and [parse_response_frame] returns the same
    serial, total and [size_dir], and the low byte of the flags. *)
Theorem parse_built_response (serial_u16 total size flags_ : Z) :
  0 ≤ serial_u16 < 2 ^ 16 → 0 ≤ total < 2 ^ 32 → 0 ≤ size < 2 ^ 16 →
  ∃ frame,
    build_read_response serial_u16 total size flags_ = Ok frame
    ∧ length frame = 14%nat
    ∧ parse_response_frame frame
      = Ok {| serial := serial_u16; total_count := total; size_dir := size;
              flags := Z.land flags_ 0xFF |}.
Proof.
  intros Hs Ht Hz. unfold build_read_response.
  destruct (int_to_bytes_le_Ok 2 serial_u16) as (a & -> & Hla & Hva); [cbn; lia|].
  destruct (int_to_bytes_le_Ok 4 total) as (t & -> & Hlt & Hvt); [cbn; lia|].
  destruct (int_to_bytes_le_Ok 2 size) as (s & -> & Hls & Hvs); [cbn; lia|].
  destruct (byte_of_int_Ok (Z.land flags_ 0xFF)) as (f & -> & Hf);
    [apply land_255_range|].
  cbn [rbind]. cbv zeta.
  destruct a as [|lo [|hi [|]]]; try discriminate.
  destruct t as [|t0 [|t1 [|t2 [|t3 [|]]]]]; try discriminate.
  destruct s as [|s0 [|s1 [|]]]; try discriminate.
  cbn [app length Z.of_nat].
  change (byte_of_int (3 + Z.of_nat 7)) with (Ok (A := byte) x0a).
  change (byte_of_int C_READ_RESP) with (Ok (A := byte) x08).
  change (byte_of_int PREAMBLE) with (Ok (A := byte) x27).
  cbn [rbind].
  destruct (crc8_e5_byte [x0a; x08; lo; hi]) as (h & -> & Hh).
  destruct (crc8_e5_byte [t0; t1; t2; t3; s0; s1; f]) as (dc & -> & Hd).
  cbn [rbind app]. eexists. split; [reflexivity|]. split; [reflexivity|].
  rewrite (parse_response_frame_fields _ _ _ _ _ _ _ _ _ _ _ Hh Hd).
  rewrite Hva, Hvt, Hvs, Hf. reflexivity.
Qed.

Lemma parse_built_response_witness :
  ∃ frame,
    build_read_response 0x1A78 2694184 1 0x105 = Ok frame
    ∧ length frame = 14%nat
    ∧ parse_response_frame frame
      = Ok {| serial := 0x1A78; total_count := 2694184; size_dir := 1;
              flags := Z.land 0x105 0xFF |}.
Proof. apply (parse_built_response 0x1A78 2694184 1 0x105); lia. Defined.

(** [parse_response_frame] fails with ValueError only, never with an
    IndexError of its own indexing; and a frame it accepts has fourteen
    bytes, starts with the preamble and carries read-response code 0x08;
    the fields returned are a uint16 serial, a uint32 total, a uint16
    [size_dir] and a one-byte flags value. *)
Theorem parse_response_frame_outcomes (frame : list byte) :
  match parse_response_frame frame with
  | Ok r =>
      length frame = 14%nat
      ∧ (∃ rest, frame = x27 :: x0a :: x08 :: rest)
      ∧ 0 ≤ serial r < 2 ^ 16 ∧ 0 ≤ total_count r < 2 ^ 32
      ∧ 0 ≤ size_dir r < 2 ^ 16 ∧ 0 ≤ flags r < 2 ^ 8
  | Raise (ValueError _) => True
  | Raise _ => False
  end.
Proof.
  unfold parse_response_frame.
  destruct frame as [|b0 rest]; [exact I|].
  destruct (negb (byte_val b0 =? PREAMBLE)) eqn:E0; [exact I|].
  destruct (Z.of_nat (length (b0 :: rest)) <? 6) eqn:E6; [exact I|].
  apply Z.ltb_ge in E6.
  destruct rest as [|b1 [|b2 [|b3 [|b4 [|b5 rest]]]]]; try (cbn in E6; lia).
  clear E6. set (frame := b0 :: b1 :: b2 :: b3 :: b4 :: b5 :: rest) in *.
  change (index frame 1) with (Ok (A := byte) b1). cbn [rbind]. cbv zeta.
  destruct (negb (Z.of_nat (length frame) =? 4 + byte_val b1)) eqn:EL; [exact I|].
  apply negb_false_iff, Z.eqb_eq in EL.
  change (index frame 2) with (Ok (A := byte) b2). cbn [rbind].
  destruct (negb (byte_val b2 =? C_READ_RESP)) eqn:EC; [exact I|].
  apply negb_false_iff, Z.eqb_eq in EC.
  change (index frame 5) with (Ok (A := byte) b5). cbn [rbind].
  destruct (negb (crc8_e5 (slice frame 1 5) =? byte_val b5)); [exact I|].
  pose proof (byte_val_range b1) as Hb1.
  assert (Z.of_nat (length frame) = 6 + Z.of_nat (length rest)) as Hlen
    by (subst frame; cbn [length]; lia).
  destruct (index_in_range frame (6 + (byte_val b1 - 3))) as [dc ->]; [lia|].
  cbn [rbind].
  destruct (negb (crc8_e5 (slice frame 6 (6 + (byte_val b1 - 3))) =? byte_val dc));
    [exact I|].
  pose proof (length_slice frame 6 (6 + (byte_val b1 - 3))) as Hd.
  destruct (negb (Z.of_nat (length (slice frame 6 (6 + (byte_val b1 - 3)))) =? 7)) eqn:E7;
    [exact I|].
  apply negb_false_iff, Z.eqb_eq in E7.
  destruct (index_in_range (slice frame 6 (6 + (byte_val b1 - 3))) 6) as [fl ->]; [lia|].
  cbn [rbind serial total_count size_dir flags].
  assert (byte_val b1 = 10) as HL by lia.
  apply negb_false_iff, Z.eqb_eq in E0.
  split; [lia|]. split.
  { exists (b3 :: b4 :: b5 :: rest). subst frame. f_equal; [|f_equal; [|f_equal]].
    - apply (f_equal Z.to_N) in E0. unfold byte_val in E0. rewrite N2Z.id in E0.
      apply (f_equal Byte.of_N) in E0. rewrite Byte.of_to_N in E0.
      injection E0 as ->. reflexivity.
    - apply (f_equal Z.to_N) in HL. unfold byte_val in HL. rewrite N2Z.id in HL.
      apply (f_equal Byte.of_N) in HL. rewrite Byte.of_to_N in HL.
      injection HL as ->. reflexivity.
    - apply (f_equal Z.to_N) in EC. unfold byte_val in EC. rewrite N2Z.id in EC.
      apply (f_equal Byte.of_N) in EC. rewrite Byte.of_to_N in EC.
      injection EC as ->. reflexivity. }
  pose proof (int_from_bytes_le_range (slice frame 3 5)) as Hs.
  pose proof (length_slice frame 3 5) as Hls.
  pose proof (int_from_bytes_le_range
                (slice (slice frame 6 (6 + (byte_val b1 - 3))) 0 4)) as Ht.
  pose proof (length_slice (slice frame 6 (6 + (byte_val b1 - 3))) 0 4) as Hlt.
  pose proof (int_from_bytes_le_range
                (slice (slice frame 6 (6 + (byte_val b1 - 3))) 4 6)) as Hz.
  pose proof (length_slice (slice frame 6 (6 + (byte_val b1 - 3))) 4 6) as Hlz.
  pose proof (byte_val_range fl) as Hfl.
  replace (Z.of_nat (length (slice frame 3 5))) with 2 in Hs by lia.
  replace (Z.of_nat (length (slice (slice frame 6 (6 + (byte_val b1 - 3))) 0 4)))
    with 4 in Ht by lia.
  replace (Z.of_nat (length (slice (slice frame 6 (6 + (byte_val b1 - 3))) 4 6)))
    with 2 in Hz by lia.
  change (2 ^ 8) with 256. change (256 ^ 2) with (2 ^ 16) in Hs, Hz.
  change (256 ^ 4) with (2 ^ 32) in Ht. lia.
Qed.

End ProtocolProps.

(** ** Mbox-counter framer: frames, buffer and split input *)

Module CounterFramerProps.
Import MboxCounterFramer MboxCounterFramerAux MboxCounterFramerFacts.

Lemma sync_drop (stx : nat) (buf : list byte) :
  (if (0 <? stx)%nat then skipn stx buf else buf) = skipn stx buf.
Proof. destruct stx; reflexivity. Qed.

Lemma counter_scan_unfold (buf : list byte) :
  scan buf = match index_of PREAMBLE buf with
             | None => Some ([], [])
             | Some stx => pass (skipn stx buf)
             end.
Proof.
  unfold scan at 1. cbn [feed_loop].
  destruct (index_of PREAMBLE buf) as [stx|] eqn:Ei; [|reflexivity].
  cbv zeta. rewrite sync_drop. unfold pass.
  pose proof (index_of_lt _ _ _ Ei) as Hlt.
  destruct (length (skipn stx buf) <? 2)%nat eqn:E2; [reflexivity|].
  apply Nat.ltb_ge in E2.
  destruct (nth_error (skipn stx buf) 1) as [bl|]; [|reflexivity].
  cbv zeta. pose proof (byte_val_range bl) as Hr.
  destruct (4 + byte_val bl <=? 0)%Z.
  - apply feed_loop_scan. rewrite !length_skipn. lia.
  - destruct (Z.of_nat (length (skipn stx buf)) <? 4 + byte_val bl)%Z; [reflexivity|].
    rewrite counter_feed_loop_frames. f_equal.
    apply feed_loop_scan. rewrite !length_skipn. lia.
Qed.

Lemma index_of_head (x : byte) (buf : list byte) (i : nat) :
  index_of x buf = Some i → ∃ rest, skipn i buf = x :: rest.
Proof.
  revert i. induction buf as [|b rest IH]; intros i; cbn [index_of]; [discriminate|].
  destruct (Byte.eqb b x) eqn:E.
  - intros [= <-]. apply Byte.byte_dec_bl in E. subst b. exists rest. reflexivity.
  - destruct (index_of x rest) as [j|]; [|discriminate].
    intros [= <-]. cbn [skipn]. apply IH. reflexivity.
Qed.

Lemma index_of_app_l (x : byte) (buf data : list byte) (i : nat) :
  index_of x buf = Some i → index_of x (buf ++ data) = Some i.
Proof.
  revert i. induction buf as [|b rest IH]; intros i; cbn [index_of app]; [discriminate|].
  destruct (Byte.eqb b x); [auto|].
  destruct (index_of x rest) as [j|]; [|discriminate].
  intros [= <-]. rewrite (IH j eq_refl). reflexivity.
Qed.

Lemma index_of_app_r (x : byte) (noise data : list byte) :
  ¬ In x noise →
  index_of x (noise ++ data) = option_map (Nat.add (length noise)) (index_of x data).
Proof.
  induction noise as [|b noise IH]; intros Hn; cbn [app length].
  - destruct (index_of x data); reflexivity.
  - cbn [index_of]. destruct (Byte.eqb b x) eqn:E.
    + apply Byte.byte_dec_bl in E. exfalso. apply Hn. left. exact E.
    + rewrite IH by (intros H; apply Hn; right; exact H).
      destruct (index_of x data); reflexivity.
Qed.

Lemma prepend_nil (r : option (list (list byte) * list byte)) :
  option_map (prepend []) r = r.
Proof. destruct r as [[fs b]|]; reflexivity. Qed.

Lemma prepend_prepend (f g : list (list byte)) (r : option (list (list byte) * list byte)) :
  option_map (prepend f) (option_map (prepend g) r) = option_map (prepend (f ++ g)) r.
Proof.
  destruct r as [[fs b]|]; [|reflexivity]. cbn. unfold prepend. cbn.
  rewrite app_assoc. reflexivity.
Qed.

Lemma counter_scan_synced (rest : list byte) :
  scan (PREAMBLE :: rest) = pass (PREAMBLE :: rest).
Proof. rewrite counter_scan_unfold. reflexivity. Qed.

(** *** Frames and buffer *)

Lemma waiting_bound (buf : list byte) : waiting buf → (length buf ≤ 258)%nat.
Proof.
  destruct buf as [|b0 [|b1 rest]]; cbn [waiting length]; try lia.
  intros [_ H]. pose proof (byte_val_range b1). cbn [length] in H. lia.
Qed.

Lemma counter_scan_valid (n : nat) (buf : list byte) fs r :
  (length buf ≤ n)%nat → scan buf = Some (fs, r) →
  Forall valid_frame fs ∧ waiting r.
Proof.
  revert buf fs r. induction n as [|n IH]; intros buf fs r Hn; rewrite counter_scan_unfold.
  - destruct buf; [|cbn in Hn; lia]. cbn. intros [= <- <-]. split; [constructor|exact I].
  - destruct (index_of PREAMBLE buf) as [stx|] eqn:Ei.
    2:{ intros [= <- <-]. split; [constructor|exact I]. }
    destruct (index_of_head _ _ _ Ei) as [rest Hs].
    assert (length (skipn stx buf) ≤ S n)%nat as Hl by (rewrite length_skipn; lia).
    rewrite Hs in *. unfold pass.
    destruct rest as [|bl rest].
    { cbn. intros [= <- <-]. split; [constructor|]. cbn. auto. }
    cbn [length Nat.ltb Nat.leb nth_error]. cbv zeta.
    pose proof (byte_val_range bl) as Hr.
    destruct (4 + byte_val bl <=? 0)%Z eqn:E0; [lia|].
    destruct (Z.of_nat (S (S (length rest))) <? 4 + byte_val bl)%Z eqn:E1.
    { intros [= <- <-]. split; [constructor|]. cbn [waiting length].
      apply Z.ltb_lt in E1. auto. }
    apply Z.ltb_ge in E1.
    destruct (scan (skipn (Z.to_nat (4 + byte_val bl)) (PREAMBLE :: bl :: rest)))
      as [[fs' r']|] eqn:Es; [|discriminate].
    cbn. intros [= <- <-].
    apply IH in Es.
    2:{ rewrite length_skipn. cbn [length] in *. lia. }
    destruct Es as [Hv Hw]. split; [|exact Hw].
    constructor; [|exact Hv].
    replace (Z.to_nat (4 + byte_val bl)) with (S (S (Z.to_nat (2 + byte_val bl)))) by lia.
    cbn [firstn valid_frame length]. split; [reflexivity|].
    rewrite length_firstn. lia.
Qed.

(** Every frame that [feed] returns starts with the preamble and has the
    length its length byte announces, and the buffer that a framer keeps
    between calls is empty or an unfinished frame, so it never holds more
    than 258 bytes. *)
Theorem counter_feed_frames_and_buffer (buf data : list byte) fs r :
  waiting buf → feed buf data = Some (fs, r) →
  Forall valid_frame fs ∧ waiting r ∧ (length r ≤ 258)%nat.
Proof.
  intros Hw. unfold feed. destruct data as [|d data].
  - intros [= <- <-]. split; [constructor|]. split; [exact Hw|apply waiting_bound, Hw].
  - intros Hs. apply (counter_scan_valid _ _ _ _ (Nat.le_refl _)) in Hs.
    destruct Hs as [Hv Hr]. split; [exact Hv|]. split; [exact Hr|apply waiting_bound, Hr].
Qed.

Lemma counter_feed_frames_and_buffer_witness :
  Forall valid_frame [MboxCounterProtocol.response_1A78]
  ∧ waiting [x27] ∧ (length [x27] ≤ 258)%nat.
Proof.
  apply (counter_feed_frames_and_buffer new_framer
           ([xff] ++ MboxCounterProtocol.response_1A78 ++ [x27])).
  - exact I.
  - vm_compute. reflexivity.
Defined.

(** *** Input split over two calls *)

Lemma pass_app (s data : list byte) bl :
  nth_error s 1 = Some bl → (4 + byte_val bl ≤ Z.of_nat (length s))%Z →
  pass (s ++ data)
  = option_map (prepend [firstn (Z.to_nat (4 + byte_val bl)) s])
      (scan (skipn (Z.to_nat (4 + byte_val bl)) s ++ data)).
Proof.
  intros Hn Hl. unfold pass. pose proof (byte_val_range bl) as Hr.
  assert (1 < length s)%nat as H1 by (apply nth_error_Some; congruence).
  rewrite length_app.
  destruct (length s + length data <? 2)%nat eqn:E2; [apply Nat.ltb_lt in E2; lia|].
  rewrite nth_error_app1 by exact H1. rewrite Hn. cbv zeta.
  destruct (4 + byte_val bl <=? 0)%Z eqn:E0; [lia|].
  destruct (Z.of_nat (length s + length data) <? 4 + byte_val bl)%Z eqn:E1;
    [apply Z.ltb_lt in E1; lia|].
  rewrite firstn_app, skipn_app.
  replace (Z.to_nat (4 + byte_val bl) - length s)%nat with 0%nat by lia.
  cbn [firstn skipn]. rewrite app_nil_r. reflexivity.
Qed.

Lemma counter_scan_app (n : nat) (buf data : list byte) :
  (length buf ≤ n)%nat →
  scan (buf ++ data)
  = match scan buf with
    | Some (f1, r1) => option_map (prepend f1) (scan (r1 ++ data))
    | None => None
    end.
Proof.
  revert buf. induction n as [|n IH]; intros buf Hn.
  - destruct buf; [|cbn in Hn; lia]. cbn [app].
    change (scan []) with (Some (@nil (list byte), @nil byte)).
    cbn [app]. rewrite prepend_nil. reflexivity.
  - rewrite (counter_scan_unfold buf).
    destruct (index_of PREAMBLE buf) as [stx|] eqn:Ei.
    + rewrite (counter_scan_unfold (buf ++ data)), (index_of_app_l _ _ data _ Ei).
      pose proof (index_of_lt _ _ _ Ei) as Hlt.
      destruct (index_of_head _ _ _ Ei) as [rest Hs].
      rewrite skipn_app. replace (stx - length buf)%nat with 0%nat by lia.
      change (skipn 0 data) with data.
      assert (length (skipn stx buf) ≤ S n)%nat as Hl by (rewrite length_skipn; lia).
      rewrite Hs in *. clear Hs Ei Hlt.
      assert (∀ s, s = PREAMBLE :: rest → pass s = Some ([], s) →
                   pass (s ++ data)
                   = match pass s with
                     | Some (f1, r1) => option_map (prepend f1) (scan (r1 ++ data))
                     | None => None
                     end) as Hret.
      { intros s -> Hp. rewrite Hp, prepend_nil.
        symmetry. apply counter_scan_synced. }
      destruct rest as [|bl rest]; [apply Hret; reflexivity|].
      pose proof (byte_val_range bl) as Hr.
      destruct (Z.of_nat (length (PREAMBLE :: bl :: rest)) <? 4 + byte_val bl)%Z eqn:E1.
      { apply Hret; [reflexivity|]. unfold pass. cbn [length Nat.ltb Nat.leb nth_error].
        cbv zeta. destruct (4 + byte_val bl <=? 0)%Z eqn:E0; [lia|].
        cbn [length] in E1. rewrite E1. reflexivity. }
      apply Z.ltb_ge in E1.
      rewrite (pass_app (PREAMBLE :: bl :: rest) data bl eq_refl E1).
      pose proof (pass_app (PREAMBLE :: bl :: rest) [] bl eq_refl E1) as Hp0.
      rewrite !app_nil_r in Hp0. rewrite Hp0. clear Hp0.
      rewrite (IH (skipn (Z.to_nat (4 + byte_val bl)) (PREAMBLE :: bl :: rest))).
      2:{ rewrite length_skipn. cbn [length] in *. lia. }
      destruct (scan (skipn (Z.to_nat (4 + byte_val bl)) (PREAMBLE :: bl :: rest)))
        as [[f1 r1]|]; [|reflexivity].
      cbn [option_map]. unfold prepend at 2. cbn [fst snd].
      apply prepend_prepend.
    + rewrite prepend_nil. cbn [app].
      apply index_of_None in Ei.
      rewrite (counter_scan_unfold (buf ++ data)), (counter_scan_unfold data),
        (index_of_app_r _ _ _ Ei).
      destruct (index_of PREAMBLE data) as [i|]; [|reflexivity].
      cbn [option_map]. rewrite skipn_app.
      replace (length buf + i - length buf)%nat with i by lia.
      rewrite skipn_all2 by lia. reflexivity.
Qed.

(** Feeding [a] and then [b] returns, taken together, the frames that
    feeding [a ++ b] in one call returns, and leaves the same buffer:
    the framer does not depend on how the serial reads cut the stream. *)
Theorem counter_feed_split (buf a b : list byte) f1 r1 f2 r2 :
  feed buf a = Some (f1, r1) → feed r1 b = Some (f2, r2) →
  feed buf (a ++ b) = Some (f1 ++ f2, r2).
Proof.
  unfold feed. destruct a as [|a0 a].
  - intros [= <- <-]. cbn [app]. intros Hb. destruct b; exact Hb.
  - destruct b as [|b0 b].
    + intros Ha [= <- <-]. rewrite !app_nil_r. cbn [app]. exact Ha.
    + intros Ha Hb. cbn [app].
      change (buf ++ a0 :: a ++ b0 :: b) with (buf ++ (a0 :: a) ++ b0 :: b).
      rewrite app_assoc, (counter_scan_app _ _ _ (Nat.le_refl _)), Ha, Hb.
      reflexivity.
Qed.

Lemma counter_feed_split_witness :
  feed new_framer ([xff; x27; x0a; x08; x78; x1a; xcd; x28]
                   ++ [x1c; x29; x00; x01; x00; x05; x0d; x27])
  = Some ([] ++ [MboxCounterProtocol.response_1A78], [x27]).
Proof.
  apply (counter_feed_split new_framer [xff; x27; x0a; x08; x78; x1a; xcd; x28]
           [x1c; x29; x00; x01; x00; x05; x0d; x27] []
           [x27; x0a; x08; x78; x1a; xcd; x28]);
    vm_compute; reflexivity.
Defined.

End CounterFramerProps.

(** ** Mbox framer: payloads, buffer and split input *)

Module MboxFramerProps.
Import MboxFramer MboxFramerAux.
Import MboxCounterFramerFacts CounterFramerProps.

Example mbox_feed_two_frames :
  feed new_framer [xff; x02; x24; x41; x42; x03; x00; x02; x24; x03; x02; x24; x43]
  = Some ([[x41; x42]; []], [x02; x24; x43]).
Proof. vm_compute. reflexivity. Qed.

Example mbox_feed_bad_marker :
  feed new_framer [x02; x41; x02; x24; x42; x03] = Some ([[x42]], []).
Proof. vm_compute. reflexivity. Qed.

(** *** The loop terminates and does not depend on spare fuel *)

Lemma index_from_lt (x : byte) (start : nat) (buf : list byte) (i : nat) :
  index_from x start buf = Some i → (start ≤ i < length buf)%nat.
Proof.
  unfold index_from, index_of.
  destruct (MboxCounterFramer.index_of x (skipn start buf)) as [k|] eqn:Ek; [|discriminate].
  intros [= <-]. apply index_of_lt in Ek. rewrite length_skipn in Ek. lia.
Qed.

Lemma mbox_feed_loop_total (fuel : nat) (buf : list byte) (frames : list (list byte)) :
  (length buf < fuel)%nat → is_Some (feed_loop fuel buf frames).
Proof.
  revert buf frames. induction fuel as [|fuel IH]; intros buf frames Hlt; [lia|].
  cbn [feed_loop]. destruct (index_of STX buf) as [stx|]; [|eauto].
  pose proof (sync_length stx buf) as Hs.
  remember (if (0 <? stx)%nat then skipn stx buf else buf) as buf' eqn:Hb.
  cbv zeta.
  destruct (length buf' <? 3)%nat eqn:E3; [eauto|].
  apply Nat.ltb_ge in E3.
  destruct (nth_error buf' 1) as [b1|] eqn:En.
  2:{ apply nth_error_None in En. lia. }
  destruct (negb (Byte.eqb b1 DOLLAR)).
  - apply IH. rewrite length_skipn. lia.
  - destruct (index_from ETX 2 buf') as [etx|] eqn:Ee; [|eauto].
    apply IH. rewrite length_skipn. lia.
Qed.

Lemma mbox_feed_loop_mono (fuel fuel' : nat) (buf : list byte) (frames : list (list byte)) r :
  feed_loop fuel buf frames = Some r → (fuel ≤ fuel')%nat →
  feed_loop fuel' buf frames = Some r.
Proof.
  revert fuel' buf frames. induction fuel as [|fuel IH]; intros fuel' buf frames H Hle;
    [discriminate|].
  destruct fuel' as [|fuel']; [lia|].
  cbn [feed_loop] in *. destruct (index_of STX buf) as [stx|]; [|assumption].
  cbv zeta in *.
  remember (if (0 <? stx)%nat then skipn stx buf else buf) as buf' eqn:Hb.
  destruct (length buf' <? 3)%nat; [assumption|].
  destruct (nth_error buf' 1) as [b1|]; [|discriminate].
  destruct (negb (Byte.eqb b1 DOLLAR)); [apply IH; [assumption|lia]|].
  destruct (index_from ETX 2 buf') as [etx|]; [|assumption].
  apply IH; [assumption|lia].
Qed.

Lemma mbox_feed_loop_frames (fuel : nat) (buf : list byte) (acc : list (list byte)) :
  feed_loop fuel buf acc = option_map (prepend acc) (feed_loop fuel buf []).
Proof.
  revert buf acc. induction fuel as [|fuel IH]; intros buf acc; [reflexivity|].
  cbn [feed_loop]. destruct (index_of STX buf) as [stx|].
  2:{ cbn. unfold prepend, MboxCounterFramer.prepend. cbn. rewrite app_nil_r. reflexivity. }
  cbv zeta.
  remember (if (0 <? stx)%nat then skipn stx buf else buf) as buf' eqn:Hb.
  destruct (length buf' <? 3)%nat.
  { cbn. unfold prepend, MboxCounterFramer.prepend. cbn. rewrite app_nil_r. reflexivity. }
  destruct (nth_error buf' 1) as [b1|]; [|reflexivity].
  destruct (negb (Byte.eqb b1 DOLLAR)); [apply IH|].
  destruct (index_from ETX 2 buf') as [etx|].
  2:{ cbn. unfold prepend, MboxCounterFramer.prepend. cbn. rewrite app_nil_r. reflexivity. }
  rewrite IH. rewrite (IH _ ([] ++ _)).
  destruct (feed_loop fuel _ []) as [[fs b]|]; [|reflexivity].
  cbn. unfold prepend, MboxCounterFramer.prepend. cbn. rewrite <- app_assoc. reflexivity.
Qed.

Lemma mbox_scan_total (buf : list byte) : is_Some (scan buf).
Proof. apply mbox_feed_loop_total. lia. Qed.

Lemma mbox_feed_loop_scan (fuel : nat) (buf : list byte) :
  (length buf < fuel)%nat → feed_loop fuel buf [] = scan buf.
Proof.
  intros Hlt. destruct (mbox_scan_total buf) as [r Hr]. rewrite Hr.
  apply (mbox_feed_loop_mono (S (length buf))); [exact Hr|lia].
Qed.

Lemma mbox_scan_unfold (buf : list byte) :
  scan buf = match index_of STX buf with
             | None => Some ([], [])
             | Some stx => pass (skipn stx buf)
             end.
Proof.
  unfold scan at 1. cbn [feed_loop].
  destruct (index_of STX buf) as [stx|] eqn:Ei; [|reflexivity].
  cbv zeta. rewrite sync_drop. unfold pass.
  pose proof (index_of_lt _ _ _ Ei) as Hlt.
  destruct (length (skipn stx buf) <? 3)%nat eqn:E3; [reflexivity|].
  apply Nat.ltb_ge in E3.
  destruct (nth_error (skipn stx buf) 1) as [b1|]; [|reflexivity].
  destruct (negb (Byte.eqb b1 DOLLAR)).
  - apply mbox_feed_loop_scan. rewrite !length_skipn. lia.
  - destruct (index_from ETX 2 (skipn stx buf)) as [etx|] eqn:Ee; [|reflexivity].
    rewrite mbox_feed_loop_frames. f_equal.
    apply mbox_feed_loop_scan. rewrite !length_skipn. lia.
Qed.

Lemma mbox_scan_synced (rest : list byte) :
  scan (STX :: rest) = pass (STX :: rest).
Proof. rewrite mbox_scan_unfold. reflexivity. Qed.

(** *** Payloads and buffer *)

Lemma index_of_firstn (x : byte) (l : list byte) (k : nat) :
  MboxCounterFramer.index_of x l = Some k → ¬ In x (firstn k l).
Proof.
  revert k. induction l as [|b l IH]; intros k; cbn [MboxCounterFramer.index_of];
    [discriminate|].
  destruct (Byte.eqb b x) eqn:E.
  - intros [= <-]. cbn. tauto.
  - destruct (MboxCounterFramer.index_of x l) as [j|]; [|discriminate].
    intros [= <-]. cbn [firstn]. intros [Hin|Hin].
    + subst b. rewrite (Byte.byte_dec_lb eq_refl) in E. discriminate.
    + exact (IH j eq_refl Hin).
Qed.

Lemma slice_payload (s : list byte) (etx : nat) :
  index_from ETX 2 s = Some etx → ¬ In ETX (slice s 2 (Z.of_nat etx)).
Proof.
  unfold index_from, index_of, slice.
  destruct (MboxCounterFramer.index_of ETX (skipn 2 s)) as [k|] eqn:Ek; [|discriminate].
  intros [= <-]. change (Z.to_nat 2) with 2%nat.
  match goal with |- context [Z.to_nat ?e] => replace (Z.to_nat e) with k by lia end.
  apply index_of_firstn. exact Ek.
Qed.

Lemma mbox_scan_payloads (n : nat) (buf : list byte) fs r :
  (length buf ≤ n)%nat → scan buf = Some (fs, r) →
  Forall (λ p, ¬ In ETX p) fs ∧ waiting r.
Proof.
  revert buf fs r. induction n as [|n IH]; intros buf fs r Hn; rewrite mbox_scan_unfold.
  - destruct buf; [|cbn in Hn; lia]. cbn. intros [= <- <-]. split; [constructor|exact I].
  - destruct (index_of STX buf) as [stx|] eqn:Ei.
    2:{ intros [= <- <-]. split; [constructor|exact I]. }
    destruct (index_of_head _ _ _ Ei) as [rest Hs].
    assert (length (skipn stx buf) ≤ S n)%nat as Hl by (rewrite length_skipn; lia).
    rewrite Hs in *. unfold pass.
    destruct (length (STX :: rest) <? 3)%nat eqn:E3.
    { intros [= <- <-]. split; [constructor|]. cbn [waiting].
      apply Nat.ltb_lt in E3. auto. }
    apply Nat.ltb_ge in E3.
    destruct (nth_error (STX :: rest) 1) as [b1|] eqn:En; [|discriminate].
    destruct (negb (Byte.eqb b1 DOLLAR)) eqn:Ed.
    { intros Hsc. apply IH in Hsc; [exact Hsc|].
      rewrite length_skipn. cbn [length] in *. lia. }
    apply negb_false_iff, Byte.byte_dec_bl in Ed. subst b1.
    destruct (index_from ETX 2 (STX :: rest)) as [etx|] eqn:Ee.
    2:{ intros [= <- <-]. split; [constructor|]. cbn [waiting].
        split; [reflexivity|]. right. split; [exact En|].
        unfold index_from in Ee.
        destruct (index_of ETX (skipn 2 (STX :: rest))) eqn:Ek; [discriminate|].
        apply index_of_None in Ek. exact Ek. }
    pose proof (index_from_lt _ _ _ _ Ee) as Hlt.
    destruct (scan (skipn (etx + 1) (STX :: rest))) as [[fs' r']|] eqn:Es; [|discriminate].
    cbn. intros [= <- <-].
    apply IH in Es.
    2:{ rewrite length_skipn. cbn [length] in *. lia. }
    destruct Es as [Hv Hw]. split; [|exact Hw].
    constructor; [|exact Hv]. apply slice_payload. exact Ee.
Qed.

(** No payload that [feed] returns holds an ETX byte, and the buffer
    that a framer keeps between calls is empty or starts at STX with no
    complete frame in it: fewer than three bytes, or the [$] marker and
    no ETX after it. *)
Theorem mbox_feed_payloads_and_buffer (buf data : list byte) fs r :
  waiting buf → feed buf data = Some (fs, r) →
  Forall (λ p, ¬ In ETX p) fs ∧ waiting r.
Proof.
  intros Hw. unfold feed. destruct data as [|d data].
  - intros [= <- <-]. split; [constructor|exact Hw].
  - intros Hs. exact (mbox_scan_payloads _ _ _ _ (Nat.le_refl _) Hs).
Qed.

Lemma mbox_feed_payloads_and_buffer_witness :
  Forall (λ p, ¬ In ETX p) [[x41; x42]; []] ∧ waiting [x02; x24; x43].
Proof.
  apply (mbox_feed_payloads_and_buffer new_framer
           [xff; x02; x24; x41; x42; x03; x00; x02; x24; x03; x02; x24; x43]).
  - exact I.
  - vm_compute. reflexivity.
Defined.

(** *** A frame in a clean stream *)

Lemma index_from_payload (payload rest : list byte) :
  ¬ In ETX payload →
  index_from ETX 2 (STX :: DOLLAR :: payload ++ ETX :: rest)
  = Some (2 + length payload)%nat.
Proof.
  intros Hp. unfold index_from, index_of.
  change (skipn 2 (STX :: DOLLAR :: payload ++ ETX :: rest)) with (payload ++ ETX :: rest).
  rewrite (index_of_app _ _ _ Hp). reflexivity.
Qed.

Lemma mbox_scan_noise_frame (noise payload rest : list byte) :
  ¬ In STX noise → ¬ In ETX payload →
  scan (noise ++ STX :: DOLLAR :: payload ++ ETX :: rest)
  = option_map (prepend [payload]) (scan rest).
Proof.
  intros Hn Hp. rewrite mbox_scan_unfold. unfold index_of.
  rewrite (index_of_app _ _ _ Hn).
  rewrite skipn_app, Nat.sub_diag, skipn_all. cbn [app skipn].
  unfold pass. cbn [length]. rewrite length_app. cbn [length].
  destruct (S (S (length payload + S (length rest))) <? 3)%nat eqn:E3;
    [apply Nat.ltb_lt in E3; lia|].
  cbn [nth_error]. change (negb (Byte.eqb DOLLAR DOLLAR)) with false. cbv iota.
  rewrite (index_from_payload _ _ Hp).
  f_equal.
  - f_equal. unfold slice.
    change (Z.to_nat 2) with 2%nat.
    match goal with |- context [Z.to_nat ?e] =>
      replace (Z.to_nat e) with (length payload) by lia end.
    change (skipn 2 (STX :: DOLLAR :: payload ++ ETX :: rest))
      with (payload ++ ETX :: rest).
    rewrite firstn_app, Nat.sub_diag, firstn_all. cbn [firstn].
    rewrite app_nil_r. reflexivity.
  - f_equal. replace (2 + length payload + 1)%nat with (S (S (length payload + 1))) by lia.
    change (skipn (S (S (length payload + 1))) (STX :: DOLLAR :: payload ++ ETX :: rest))
      with (skipn (length payload + 1) (payload ++ ETX :: rest)).
    rewrite skipn_app, skipn_all2 by lia. cbn [app].
    replace (length payload + 1 - length payload)%nat with 1%nat by lia.
    reflexivity.
Qed.

(** A frame [STX $ payload ETX] whose payload holds no ETX, received by
    a framer with an empty buffer after noise that holds no STX, is
    returned as [payload], first among the results; what follows the
    frame is framed as if it had been fed on its own. *)
Theorem mbox_feed_frame_after_noise (noise payload rest : list byte) fs r :
  ¬ In STX noise → ¬ In ETX payload →
  feed new_framer rest = Some (fs, r) →
  feed new_framer (noise ++ STX :: DOLLAR :: payload ++ ETX :: rest)
  = Some (payload :: fs, r).
Proof.
  intros Hn Hp Hr. unfold feed, new_framer in *. cbn [app].
  assert (scan rest = Some (fs, r)) as Hs.
  { destruct rest; [|exact Hr]. injection Hr as <- <-. reflexivity. }
  destruct (noise ++ STX :: DOLLAR :: payload ++ ETX :: rest) eqn:Ed.
  { destruct noise; discriminate. }
  rewrite <- Ed, (mbox_scan_noise_frame _ _ _ Hn Hp), Hs. reflexivity.
Qed.

Lemma mbox_feed_frame_after_noise_witness :
  feed new_framer ([xff; x03] ++ STX :: DOLLAR :: [x41; x02] ++ ETX :: [x02; x24; x43])
  = Some ([x41; x02] :: [], [x02; x24; x43]).
Proof.
  apply (mbox_feed_frame_after_noise [xff; x03] [x41; x02] [x02; x24; x43]).
  - vm_compute. intros [H|[H|[]]]; discriminate.
  - vm_compute. intros [H|[H|[]]]; discriminate.
  - vm_compute. reflexivity.
Defined.

(** *** Input split over two calls *)

Lemma index_from_app (x : byte) (s data : list byte) (e : nat) :
  (2 ≤ length s)%nat → index_from x 2 s = Some e → index_from x 2 (s ++ data) = Some e.
Proof.
  unfold index_from, index_of. intros Hl.
  rewrite skipn_app. replace (2 - length s)%nat with 0%nat by lia.
  change (skipn 0 data) with data.
  destruct (MboxCounterFramer.index_of x (skipn 2 s)) as [k|] eqn:Ek; [|discriminate].
  rewrite (index_of_app_l _ _ data _ Ek). auto.
Qed.

Lemma slice_app (s data : list byte) (e : nat) :
  (e < length s)%nat → slice (s ++ data) 2 (Z.of_nat e) = slice s 2 (Z.of_nat e).
Proof.
  intros He. unfold slice. change (Z.to_nat 2) with 2%nat.
  rewrite skipn_app, firstn_app, length_skipn.
  replace (Z.to_nat (Z.of_nat e - 2) - (length s - 2))%nat with 0%nat by lia.
  cbn [firstn]. rewrite app_nil_r. reflexivity.
Qed.

Lemma mbox_pass_app (s data : list byte) :
  (3 ≤ length s)%nat →
  pass (s ++ data)
  = match nth_error s 1 with
    | None => None
    | Some b1 =>
        if negb (Byte.eqb b1 DOLLAR) then scan (skipn 1 s ++ data)
        else
          match index_from ETX 2 s with
          | None => pass (s ++ data)
          | Some etx_idx =>
              option_map (prepend [slice s 2 (Z.of_nat etx_idx)])
                         (scan (skipn (etx_idx + 1) s ++ data))
          end
    end.
Proof.
  intros Hl. unfold pass at 1. rewrite length_app.
  destruct (length s + length data <? 3)%nat eqn:E3; [apply Nat.ltb_lt in E3; lia|].
  rewrite nth_error_app1 by lia.
  destruct (nth_error s 1) as [b1|] eqn:En; [|reflexivity].
  destruct (negb (Byte.eqb b1 DOLLAR)) eqn:Ed.
  { rewrite skipn_app. replace (1 - length s)%nat with 0%nat by lia. reflexivity. }
  destruct (index_from ETX 2 s) as [e|] eqn:Ee.
  - pose proof (index_from_lt _ _ _ _ Ee) as Hlt.
    assert (2 ≤ length s)%nat as H2 by lia.
    rewrite (index_from_app _ _ data _ H2 Ee).
    rewrite slice_app by lia. rewrite skipn_app.
    replace (e + 1 - length s)%nat with 0%nat by lia. reflexivity.
  - unfold pass. rewrite length_app, E3, nth_error_app1, En, Ed by lia. reflexivity.
Qed.

Lemma mbox_scan_app (n : nat) (buf data : list byte) :
  (length buf ≤ n)%nat →
  scan (buf ++ data)
  = match scan buf with
    | Some (f1, r1) => option_map (prepend f1) (scan (r1 ++ data))
    | None => None
    end.
Proof.
  revert buf. induction n as [|n IH]; intros buf Hn.
  - destruct buf; [|cbn in Hn; lia]. cbn [app].
    change (scan []) with (Some (@nil (list byte), @nil byte)).
    cbn [app]. apply eq_sym, prepend_nil.
  - rewrite (mbox_scan_unfold buf).
    destruct (index_of STX buf) as [stx|] eqn:Ei.
    + rewrite (mbox_scan_unfold (buf ++ data)). unfold index_of in *.
      rewrite (index_of_app_l _ _ data _ Ei).
      pose proof (index_of_lt _ _ _ Ei) as Hlt.
      destruct (index_of_head _ _ _ Ei) as [rest Hs].
      rewrite skipn_app. replace (stx - length buf)%nat with 0%nat by lia.
      change (skipn 0 data) with data.
      assert (length (skipn stx buf) ≤ S n)%nat as Hl by (rewrite length_skipn; lia).
      rewrite Hs in *. clear Hs Ei Hlt.
      assert (pass (STX :: rest) = Some ([], STX :: rest) →
              pass ((STX :: rest) ++ data)
              = match pass (STX :: rest) with
                | Some (f1, r1) => option_map (prepend f1) (scan (r1 ++ data))
                | None => None
                end) as Hret.
      { intros Hp. rewrite Hp. unfold prepend. rewrite prepend_nil.
        symmetry. apply mbox_scan_synced. }
      destruct (length (STX :: rest) <? 3)%nat eqn:E3.
      { apply Hret. unfold pass. rewrite E3. reflexivity. }
      apply Nat.ltb_ge in E3.
      rewrite (mbox_pass_app _ data E3). unfold pass at 2.
      destruct (length (STX :: rest) <? 3)%nat eqn:E3'; [apply Nat.ltb_lt in E3'; lia|].
      destruct (nth_error (STX :: rest) 1) as [b1|] eqn:En; [|reflexivity].
      destruct (negb (Byte.eqb b1 DOLLAR)) eqn:Ed.
      { apply IH. rewrite length_skipn. cbn [length] in *. lia. }
      destruct (index_from ETX 2 (STX :: rest)) as [e|] eqn:Ee.
      2:{ unfold prepend. rewrite prepend_nil. symmetry. apply mbox_scan_synced. }
      pose proof (index_from_lt _ _ _ _ Ee) as Hlt.
      rewrite (IH (skipn (e + 1) (STX :: rest))).
      2:{ rewrite length_skipn. cbn [length] in *. lia. }
      destruct (scan (skipn (e + 1) (STX :: rest))) as [[f1 r1]|]; [|reflexivity].
      cbn [option_map]. unfold prepend, MboxCounterFramer.prepend at 2. cbn [fst snd].
      apply prepend_prepend.
    + unfold prepend. rewrite prepend_nil. cbn [app].
      unfold index_of in Ei. apply index_of_None in Ei.
      rewrite (mbox_scan_unfold (buf ++ data)), (mbox_scan_unfold data).
      unfold index_of. rewrite (index_of_app_r _ _ _ Ei).
      destruct (MboxCounterFramer.index_of STX data) as [i|]; [|reflexivity].
      cbn [option_map]. rewrite skipn_app.
      replace (length buf + i - length buf)%nat with i by lia.
      rewrite skipn_all2 by lia. reflexivity.
Qed.

(** Feeding [a] and then [b] returns, taken together, the payloads that
    feeding [a ++ b] in one call returns, and leaves the same buffer:
    the framer does not depend on how the serial reads cut the stream. *)
Theorem mbox_feed_split (buf a b : list byte) f1 r1 f2 r2 :
  feed buf a = Some (f1, r1) → feed r1 b = Some (f2, r2) →
  feed buf (a ++ b) = Some (f1 ++ f2, r2).
Proof.
  unfold feed. destruct a as [|a0 a].
  - intros [= <- <-]. cbn [app]. intros Hb. destruct b; exact Hb.
  - destruct b as [|b0 b].
    + intros Ha [= <- <-]. rewrite !app_nil_r. cbn [app]. exact Ha.
    + intros Ha Hb. cbn [app].
      change (buf ++ a0 :: a ++ b0 :: b) with (buf ++ (a0 :: a) ++ b0 :: b).
      rewrite app_assoc, (mbox_scan_app _ _ _ (Nat.le_refl _)), Ha, Hb.
      reflexivity.
Qed.

Lemma mbox_feed_split_witness :
  feed new_framer ([xff; x02; x24; x41] ++ [x42; x03; x02; x24; x43])
  = Some ([] ++ [[x41; x42]], [x02; x24; x43]).
Proof.
  apply (mbox_feed_split new_framer [xff; x02; x24; x41] [x42; x03; x02; x24; x43]
           [] [x02; x24; x41]);
    vm_compute; reflexivity.
Defined.

End MboxFramerProps.

(** ** Easy-serial framer: termination and payloads *)

Module EasyFramerProps.
Import EasySerialFramer EasySerialFramerFacts.

(** A framer built by the constructor returns from every [feed], with
    whatever the buffer holds by then: the constructor refuses an empty
    terminator, a non-empty one decodes to at least one byte, and each
    pass of the loop that cuts a payload then deletes at least one byte. *)
Theorem easy_constructed_feed_returns `{PyStr} (preamble : option string)
    (terminator : string) (f0 : framer) (buf data : list byte) :
  EasySerialFramer_init preamble terminator = Ok f0 →
  ∃ fs buf', feed (with_buf f0 buf) data = Some (fs, with_buf f0 buf').
Proof.
  intros Hinit. apply init_terminator_nonempty in Hinit.
  destruct (easy_feed_total (with_buf f0 buf) data Hinit) as [[fs f'] Hf].
  unfold feed in *. destruct data as [|d data].
  - injection Hf as <- <-. eauto.
  - cbn [_buf _preamble_bytes _terminator_bytes with_buf] in *.
    destruct (feed_loop _ _ _ _ _) as [[fs1 b1]|]; [|discriminate].
    cbn. eauto.
Qed.

Lemma easy_constructed_feed_returns_witness :
  ∃ fs buf', feed (with_buf dollar_framer [x24; x41]) [x42; x0a; x24]
             = Some (fs, with_buf dollar_framer buf').
Proof.
  apply (easy_constructed_feed_returns (H := ascii_str) (Some "$") "\n"
           dollar_framer [x24; x41] [x42; x0a; x24]).
  vm_compute. reflexivity.
Defined.

(** *** Payloads *)

Lemma starts_with_firstn (sub l : list byte) (n : nat) :
  starts_with sub (firstn n l) = true → starts_with sub l = true.
Proof.
  revert l n. induction sub as [|s sub IH]; intros l n; [reflexivity|].
  destruct n as [|n]; destruct l as [|b l]; cbn [firstn starts_with]; try discriminate.
  intros Hs. apply andb_prop in Hs. destruct Hs as [Hb Hs].
  rewrite Hb. cbn [andb]. exact (IH _ _ Hs).
Qed.

Lemma find0_firstn (sub l : list byte) (k : nat) :
  sub ≠ [] → find0 sub l = Some k → find0 sub (firstn k l) = None.
Proof.
  intros Hsub. revert k. induction l as [|b rest IH]; intros k; cbn [find0].
  - destruct sub; [congruence|]. cbn. discriminate.
  - destruct (starts_with sub (b :: rest)) eqn:E.
    + intros [= <-]. cbn [firstn]. destruct sub; [congruence|]. reflexivity.
    + destruct (find0 sub rest) as [j|] eqn:Ej; [|discriminate].
      intros [= <-]. cbn [firstn find0].
      destruct (starts_with sub (b :: firstn j rest)) eqn:E2.
      * apply (starts_with_firstn sub (b :: rest) (S j)) in E2. congruence.
      * rewrite (IH j eq_refl). reflexivity.
Qed.

Lemma find_slice (sub buf : list byte) (start ti : nat) :
  sub ≠ [] → find sub buf start = Some ti →
  find0 sub (slice buf (Z.of_nat start) (Z.of_nat ti)) = None.
Proof.
  intros Hsub. unfold find, slice.
  destruct (length buf <? start)%nat; [discriminate|].
  destruct (find0 sub (skipn start buf)) as [k|] eqn:Ek; [|discriminate].
  intros [= <-]. rewrite Nat2Z.id.
  replace (Z.to_nat (Z.of_nat (start + k) - Z.of_nat start)) with k by lia.
  exact (find0_firstn _ _ _ Hsub Ek).
Qed.

Lemma easy_feed_loop_payloads (fuel : nat) (pre : option (list byte))
    (term buf : list byte) frames fs buf' :
  term ≠ [] → Forall (λ p, find0 term p = None) frames →
  feed_loop fuel pre term buf frames = Some (fs, buf') →
  Forall (λ p, find0 term p = None) fs.
Proof.
  intros Ht. revert buf frames.
  induction fuel as [|fuel IH]; intros buf frames Hfr; [discriminate|].
  assert (∀ b start, cut_payload (feed_loop fuel pre term) term b start frames
                     = Some (fs, buf') →
                     Forall (λ p, find0 term p = None) fs) as Hcut.
  { intros b start. unfold cut_payload.
    destruct (find term b start) as [ti|] eqn:Ef.
    - apply IH. apply Forall_app. split; [exact Hfr|].
      constructor; [|constructor]. exact (find_slice _ _ _ _ Ht Ef).
    - intros [= <- <-]. exact Hfr. }
  cbn [feed_loop]. destruct pre as [p|]; [|apply Hcut].
  destruct (find p buf 0) as [idx|]; [apply Hcut|].
  cbv zeta. destruct (_ && _); intros [= <- <-]; exact Hfr.
Qed.

(** No payload that [feed] returns holds the terminator: each payload
    ends where the terminator first occurs after the preamble. *)
Theorem easy_feed_payloads_without_terminator (f : framer) (data : list byte) fs f' :
  _terminator_bytes f ≠ [] → feed f data = Some (fs, f') →
  Forall (λ p, find0 (_terminator_bytes f) p = None) fs.
Proof.
  intros Ht. unfold feed. destruct data as [|d data].
  - intros [= <- <-]. constructor.
  - destruct (feed_loop _ _ _ _ _) as [[fs1 b1]|] eqn:E; [|discriminate].
    cbn. intros [= <- <-].
    exact (easy_feed_loop_payloads _ _ _ _ _ _ _ Ht (List.Forall_nil _) E).
Qed.

Lemma easy_feed_payloads_without_terminator_witness :
  Forall (λ p, find0 [x0d; x0a] p = None) [[x41; x0d]; [x0a]].
Proof.
  apply (easy_feed_payloads_without_terminator (new_framer None [x0d; x0a])
           [x41; x0d; x0d; x0a; x0a; x0d; x0a; x42] [[x41; x0d]; [x0a]]
           (with_buf (new_framer None [x0d; x0a]) [x42])).
  - discriminate.
  - vm_compute. reflexivity.
Defined.

End EasyFramerProps.

(** ** Query templates: placeholder names, plain text, extra variables *)

Module QueryTemplateProps.
Import QueryTemplate QueryTemplateAux QueryTemplateFacts.

Lemma compile_loop_unfold `{PyStr} (t : string) parts names :
  compile_loop t parts names
  = match t with
    | EmptyString => Ok {| sql := String.concat "" parts; param_names := names |}
    | String ch rest =>
        if is_lbrace ch then
          match rest with
          | String ch1 rest1 =>
              if is_lbrace ch1 then compile_loop rest1 (parts ++ ["{"%string]) names
              else scan_placeholder compile_loop parts names rest EmptyString
          | EmptyString => Raise (QueryTemplateError "Unmatched '{' in query template")
          end
        else if is_rbrace ch then
          match rest with
          | String ch1 rest1 =>
              if is_rbrace ch1 then compile_loop rest1 (parts ++ ["}"%string]) names
              else Raise (QueryTemplateError "Single '}' in query template")
          | EmptyString => Raise (QueryTemplateError "Single '}' in query template")
          end
        else compile_loop rest (parts ++ [String ch EmptyString]) names
    end.
Proof.
  destruct t as [|ch rest]; [reflexivity|]. cbn [compile_loop].
  destruct (is_lbrace ch); [|reflexivity].
  destruct rest as [|ch1 rest1]; [reflexivity|].
  destruct (is_lbrace ch1); [reflexivity|].
  cbn [scan_placeholder]. destruct (is_rbrace ch1); [reflexivity|].
  generalize (snoc_char "" ch1). induction rest1 as [|a rest1 IHr]; intros inner;
    [reflexivity|].
  cbn [scan_placeholder]. destruct (is_rbrace a); [reflexivity|]. apply IHr.
Qed.

Lemma scan_placeholder_names `{PyStr} (k : nat) parts names c
    (Q : string → Prop) :
  (∀ t parts names, (String.length t ≤ k)%nat →
     compile_loop t parts names = Ok c →
     (∀ n, n ∈ names → Q n) → ∀ n, n ∈ param_names c → Q n) →
  (∀ n, n ≠ ""%string → str_isidentifier n = true → Q n) →
  ∀ s inner, (String.length s ≤ S k)%nat →
    scan_placeholder compile_loop parts names s inner = Ok c →
    (∀ n, n ∈ names → Q n) → ∀ n, n ∈ param_names c → Q n.
Proof.
  intros IH HQ. induction s as [|a s IHs]; intros inner Hl; [discriminate|].
  cbn [scan_placeholder String.length] in *.
  destruct (is_rbrace a).
  - cbv zeta. destruct (String.eqb (str_strip inner) "") eqn:Ee; [discriminate|].
    destruct (negb (str_isidentifier (str_strip inner))) eqn:Ei; [discriminate|].
    intros Hc Hn. assert (String.length s ≤ k)%nat as Hs by lia.
    apply (IH _ _ _ Hs Hc).
    intros n Hin. apply elem_of_union in Hin. destruct Hin as [Hin|Hin]; [|auto].
    apply elem_of_singleton in Hin. subst n. apply HQ.
    + intros E. rewrite E in Ee. discriminate.
    + apply negb_false_iff in Ei. exact Ei.
  - apply IHs. lia.
Qed.

Lemma compile_loop_names `{PyStr} (k : nat) (t : string) parts names c :
  (String.length t ≤ k)%nat →
  compile_loop t parts names = Ok c →
  (∀ n, n ∈ names → n ≠ ""%string ∧ str_isidentifier n = true) →
  ∀ n, n ∈ param_names c → n ≠ ""%string ∧ str_isidentifier n = true.
Proof.
  revert t parts names. induction k as [|k IH]; intros t parts names Hk;
    rewrite compile_loop_unfold.
  - destruct t; [|cbn in Hk; lia]. intros [= <-] Hn. exact Hn.
  - destruct t as [|ch rest]; [intros [= <-] Hn; exact Hn|].
    cbn [String.length] in Hk.
    destruct (is_lbrace ch).
    + destruct rest as [|ch1 rest1]; [discriminate|].
      destruct (is_lbrace ch1).
      { apply IH. cbn [String.length] in Hk. lia. }
      apply (scan_placeholder_names k parts names c
               (λ n, n ≠ ""%string ∧ str_isidentifier n = true)).
      * exact IH.
      * auto.
      * lia.
    + destruct (is_rbrace ch).
      * destruct rest as [|ch1 rest1]; [discriminate|].
        destruct (is_rbrace ch1); [|discriminate].
        apply IH. cbn [String.length] in Hk. lia.
      * apply IH. lia.
Qed.

(** Every placeholder name of a compiled template is a non-empty
    identifier: a template with any other placeholder is refused. *)
Theorem compiled_names_are_identifiers `{PyStr} (template : string) c n :
  compile_query_template template = Ok c → n ∈ param_names c →
  n ≠ ""%string ∧ str_isidentifier n = true.
Proof.
  intros Hc. apply (compile_loop_names _ _ _ _ _ (Nat.le_refl _) Hc).
  intros m Hm. apply elem_of_empty in Hm. destruct Hm.
Qed.

Lemma compiled_names_are_identifiers_witness :
  "w"%string ≠ ""%string ∧ AsciiStr.isidentifier "w" = true.
Proof.
  apply (compiled_names_are_identifiers (H := ascii_str)
           "INSERT INTO t (w) VALUES ({ w })"
           {| sql := "INSERT INTO t (w) VALUES (:w)"; param_names := {[ "w"%string ]} |}
           "w").
  - vm_compute. reflexivity.
  - cbn [param_names]. apply elem_of_singleton. reflexivity.
Defined.

(** *** Text without braces *)

Lemma string_app_assoc (a b c : string) : ((a ++ b) ++ c = a ++ (b ++ c))%string.
Proof.
  induction a as [|x a IH]; [reflexivity|].
  change (String x ((a ++ b) ++ c) = String x (a ++ (b ++ c)))%string.
  f_equal. exact IH.
Qed.

Lemma string_app_nil_r (a : string) : (a ++ "")%string = a.
Proof.
  induction a as [|x a IH]; [reflexivity|].
  change (String x (a ++ "") = String x a)%string. f_equal. exact IH.
Qed.

Lemma concat_snoc (parts : list string) (s : string) :
  String.concat "" (parts ++ [s]) = (String.concat "" parts ++ s)%string.
Proof.
  induction parts as [|x xs IH]; [reflexivity|].
  cbn [app]. destruct xs as [|y ys].
  - reflexivity.
  - change (String.concat "" (x :: (y :: ys) ++ [s]))
      with (x ++ "" ++ String.concat "" ((y :: ys) ++ [s]))%string.
    rewrite IH.
    change (String.concat "" (x :: y :: ys))
      with (x ++ "" ++ String.concat "" (y :: ys))%string.
    cbn [String.append]. rewrite string_app_assoc. reflexivity.
Qed.

Lemma compile_loop_plain `{PyStr} (t : string) parts names :
  Forall (λ ch, is_lbrace ch = false ∧ is_rbrace ch = false) (list_ascii_of_string t) →
  compile_loop t parts names
  = Ok {| sql := (String.concat "" parts ++ t)%string; param_names := names |}.
Proof.
  revert parts. induction t as [|ch rest IH]; intros parts Hp.
  - cbn. rewrite string_app_nil_r. reflexivity.
  - cbn [list_ascii_of_string] in Hp. apply Forall_cons in Hp.
    destruct Hp as [[Hl Hr] Hp].
    rewrite compile_loop_unfold, Hl, Hr, (IH _ Hp), concat_snoc, string_app_assoc.
    reflexivity.
Qed.

(** A template without braces compiles to itself and has no
    placeholder names. *)
Theorem compile_plain_text `{PyStr} (template : string) :
  Forall (λ ch, is_lbrace ch = false ∧ is_rbrace ch = false)
         (list_ascii_of_string template) →
  compile_query_template template = Ok {| sql := template; param_names := ∅ |}.
Proof. intros Hp. exact (compile_loop_plain template [] ∅ Hp). Qed.

Lemma compile_plain_text_witness :
  compile_query_template (H := ascii_str) "SELECT 1"
  = Ok {| sql := "SELECT 1"; param_names := ∅ |}.
Proof.
  apply (compile_plain_text (H := ascii_str) "SELECT 1").
  repeat constructor.
Defined.

(** *** Variables that the template does not name *)

Lemma collect_insert_other (variables : gmap string pyval) (l : list string) k v acc :
  k ∉ l →
  foldl (collect_step (<[k := v]> variables)) acc l
  = foldl (collect_step variables) acc l.
Proof.
  revert acc. induction l as [|x l IH]; intros acc Hk; [reflexivity|].
  cbn [foldl]. apply not_elem_of_cons in Hk. destruct Hk as [Hne Hk].
  rewrite (IH _ Hk). f_equal. unfold collect_step.
  rewrite lookup_insert_ne by exact Hne. reflexivity.
Qed.

(** A variable that the template does not name changes nothing: the
    SQL, the params and, when other names are missing, the error are the
    same with and without it. *)
Theorem build_query_ignores_other_variables `{PyStr} (template : string)
    (variables : gmap string pyval) c (k : string) (v : pyval) :
  compile_query_template template = Ok c → k ∉ param_names c →
  build_query template (<[k := v]> variables) = build_query template variables.
Proof.
  intros Hc Hk. rewrite !(build_query_unfold _ _ _ Hc). unfold collect.
  rewrite collect_insert_other; [reflexivity|].
  rewrite elem_of_elements. exact Hk.
Qed.

Lemma build_query_ignores_other_variables_witness :
  build_query (H := ascii_str) "INSERT INTO t (w) VALUES ({w})"
    (<["x" := VInt 1]> (<["w" := VInt 2]> ∅))
  = build_query (H := ascii_str) "INSERT INTO t (w) VALUES ({w})" (<["w" := VInt 2]> ∅).
Proof.
  apply (build_query_ignores_other_variables (H := ascii_str)
           "INSERT INTO t (w) VALUES ({w})" (<["w" := VInt 2]> ∅)
           {| sql := "INSERT INTO t (w) VALUES (:w)"; param_names := {[ "w"%string ]} |}
           "x" (VInt 1)).
  - vm_compute. reflexivity.
  - cbn [param_names]. intros Hin. apply elem_of_singleton in Hin. discriminate.
Defined.

End QueryTemplateProps.

(** ** Mbox transformer: variables, clamping and repeated records *)

Module TransformProps.
Import MboxConfig MboxLabel MboxTransform.

Lemma transform_cases (t : MboxTransformer) (id : Z) (rec : MboxLabelRecord) :
  ∃ adj err info,
    transform t id rec
    = ({| variables :=
            <[ "mbox_id"%string := VInt id ]>
            (<[ "on_error"%string := VBool err ]>
            (<[ "created_at"%string := VDatetime (dt rec) ]>
            (<[ "fish_name"%string := VStr (sFishType rec) ]>
            (<[ "fish_grade"%string := VStr (sSize rec) ]>
            (<[ "lot"%string := VStr "" ]>
            (<[ "n_weight"%string := VFloat (nWeight rec) ]>
            (<[ "r_weight"%string := VFloat adj ]>
            (<[ "sn"%string := VStr (sSNumber rec) ]>
            (<[ "error_info"%string := VStr info ]>
            (<[ "tare"%string := VFloat (tare (_cfg t)) ]> ∅))))))))));
          on_error := err; error_info := info; adj_r_weight := adj |},
       {| _cfg := _cfg t; _last_adj_r_weight := Some adj |})
    ∧ (zero_rule (_cfg t) rec = true → adj = nWeight rec ∧ err = true)
    ∧ (zero_rule (_cfg t) rec = false →
       adj = tare_adjusted (_cfg t) rec
       ∧ err = treat_duplicate_as_error (_cfg t)
               && match _last_adj_r_weight t with
                  | Some last => PrimFloat.eqb (tare_adjusted (_cfg t) rec) last
                  | None => false
                  end).
Proof.
  unfold transform, zero_rule. cbv zeta.
  destruct (treat_zero_as_error (_cfg t)
            && PrimFloat.eqb (tare_adjusted (_cfg t) rec) 0%float).
  { cbn [negb andb]. do 3 eexists. split; [reflexivity|].
    split; [auto|discriminate]. }
  cbn [negb andb].
  destruct (treat_duplicate_as_error (_cfg t)).
  2:{ do 3 eexists. split; [reflexivity|]. split; [discriminate|auto]. }
  destruct (_last_adj_r_weight t) as [last|].
  2:{ do 3 eexists. split; [reflexivity|]. split; [discriminate|auto]. }
  destruct (PrimFloat.eqb (tare_adjusted (_cfg t) rec) last);
    do 3 eexists; (split; [reflexivity|]); (split; [discriminate|auto]).
Qed.

(** The variables of every result have the same eleven names; among
    them [r_weight], [on_error] and [error_info] repeat the fields of
    the result, [mbox_id] is the argument of the call and [lot] is the
    empty string whatever the configuration holds; the transformer then
    remembers the weight it reported. *)
Theorem transform_variables (t : MboxTransformer) (id : Z) (rec : MboxLabelRecord) :
  let res := fst (transform t id rec) in
  dom (variables res)
  = ({[ "mbox_id"; "on_error"; "created_at"; "fish_name"; "fish_grade"; "lot";
        "n_weight"; "r_weight"; "sn"; "error_info"; "tare" ]} : gset string)
  ∧ variables res !! "mbox_id"%string = Some (VInt id)
  ∧ variables res !! "lot"%string = Some (VStr "")
  ∧ variables res !! "r_weight"%string = Some (VFloat (adj_r_weight res))
  ∧ variables res !! "on_error"%string = Some (VBool (on_error res))
  ∧ variables res !! "error_info"%string = Some (VStr (error_info res))
  ∧ _last_adj_r_weight (snd (transform t id rec)) = Some (adj_r_weight res).
Proof.
  destruct (transform_cases t id rec) as (adj & err & info & E & _).
  cbv zeta. rewrite E. cbn [fst snd variables adj_r_weight on_error error_info
                            _last_adj_r_weight].
  split; [|repeat split; reflexivity].
  rewrite !dom_insert_L, dom_empty_L. set_solver.
Qed.

(** Unless the zero rule replaces it by the net weight, the weight that
    [transform] reports is never below zero. *)
Theorem transform_weight_not_negative (t : MboxTransformer) (id : Z)
    (rec : MboxLabelRecord) :
  zero_rule (_cfg t) rec = false →
  PrimFloat.ltb (adj_r_weight (fst (transform t id rec))) 0%float = false.
Proof.
  intros Hz. destruct (transform_cases t id rec) as (adj & err & info & E & _ & Hn).
  rewrite E. cbn [fst adj_r_weight]. destruct (Hn Hz) as [-> _].
  unfold tare_adjusted. cbv zeta.
  destruct (PrimFloat.ltb (PrimFloat.sub (rWeight rec) (tare (_cfg t))) 0%float) eqn:El;
    [reflexivity|exact El].
Qed.

Lemma transform_weight_not_negative_witness :
  PrimFloat.ltb (adj_r_weight (fst (transform (new_transformer sample_cfg) 7 next_label)))
    0%float = false.
Proof.
  apply (transform_weight_not_negative (new_transformer sample_cfg) 7 next_label).
  vm_compute. reflexivity.
Defined.

(** With the duplicate rule enabled, a record that is transformed twice
    in a row is reported as an error the second time, provided its
    tare-adjusted weight is a number. *)
Theorem transform_same_record_twice (t : MboxTransformer) (id : Z)
    (rec : MboxLabelRecord) :
  treat_duplicate_as_error (_cfg t) = true →
  PrimFloat.eqb (tare_adjusted (_cfg t) rec) (tare_adjusted (_cfg t) rec) = true →
  on_error (fst (transform (snd (transform t id rec)) id rec)) = true.
Proof.
  intros Hd Hnum.
  destruct (transform_cases t id rec) as (adj & err & info & E & Hz & Hn).
  rewrite E. cbn [snd].
  set (t1 := {| _cfg := _cfg t; _last_adj_r_weight := Some adj |}).
  destruct (transform_cases t1 id rec) as (adj2 & err2 & info2 & E2 & Hz2 & Hn2).
  rewrite E2. cbn [fst on_error]. cbn [t1 _cfg _last_adj_r_weight] in Hz2, Hn2.
  destruct (zero_rule (_cfg t) rec) eqn:Hzr.
  - destruct (Hz2 eq_refl) as [_ ->]. reflexivity.
  - destruct (Hn2 eq_refl) as [_ ->]. destruct (Hn eq_refl) as [-> _].
    rewrite Hd, Hnum. reflexivity.
Qed.

Lemma transform_same_record_twice_witness :
  on_error (fst (transform (snd (transform (new_transformer sample_cfg) 7 next_label))
                   7 next_label)) = true.
Proof.
  apply (transform_same_record_twice (new_transformer sample_cfg) 7 next_label);
    vm_compute; reflexivity.
Defined.

End TransformProps.

(** ** Modbus register decoder: register count, integer values, scaling *)

Module ModbusProps.
Import ModbusTcp.
Local Open Scope Z_scope.

(** A 16-bit encoding reads one register and a 32-bit encoding two:
    with that many registers or more [_decode_registers] returns a
    value, with fewer it raises IndexError. *)
Theorem decode_registers_count (registers : list Z) (var : ModbusTcpVariableConfig) :
  let need := if is_u16 (encoding var) || is_s16 (encoding var) then 1%nat else 2%nat in
  ((need ≤ length registers)%nat → ∃ v, _decode_registers registers var = Ok v)
  ∧ ((length registers < need)%nat →
     _decode_registers registers var = Raise (IndexError "list index out of range")).
Proof.
  unfold _decode_registers. cbv zeta.
  destruct registers as [|r0 [|r1 rest]]; destruct (encoding var);
    cbn; (split; intros Hl; [try lia; eauto|try lia; try reflexivity]).
Qed.

(** *** Integer encodings *)

Lemma land_ffff (r : Z) : Z.land r 0xFFFF = r mod 65536.
Proof. change 0xFFFF with (Z.ones 16). rewrite Z.land_ones by lia. reflexivity. Qed.

Lemma land_ffffffff (r : Z) : Z.land r 0xFFFFFFFF = r mod 4294967296.
Proof. change 0xFFFFFFFF with (Z.ones 32). rewrite Z.land_ones by lia. reflexivity. Qed.

Lemma land_pow2_bit (a n : Z) :
  0 ≤ n → Z.land a (2 ^ n) = if Z.testbit a n then 2 ^ n else 0.
Proof.
  intros Hn. apply Z.bits_inj'. intros m Hm. rewrite Z.land_spec.
  destruct (Z.eq_dec n m) as [->|Hne].
  - destruct (Z.testbit a m); [rewrite andb_true_l; reflexivity|].
    rewrite Z.bits_0. reflexivity.
  - rewrite (Z.pow2_bits_false n m) by exact Hne. rewrite andb_false_r.
    destruct (Z.testbit a n); [rewrite Z.pow2_bits_false by exact Hne|rewrite Z.bits_0];
      reflexivity.
Qed.

Lemma sign_bit (a n : Z) :
  0 ≤ n → 0 ≤ a < 2 ^ (n + 1) →
  (Z.land a (2 ^ n) =? 0) = (a <? 2 ^ n).
Proof.
  intros Hn Ha. rewrite land_pow2_bit by exact Hn.
  assert (0 < 2 ^ n) as Hp by (apply Z.pow_pos_nonneg; lia).
  replace (2 ^ (n + 1)) with (2 * 2 ^ n) in Ha
    by (rewrite Z.pow_add_r by lia; change (2 ^ 1) with 2; lia).
  destruct (Z.testbit a n) eqn:Eb.
  - apply Z.testbit_true in Eb; [|exact Hn].
    destruct (Z.ltb_spec a (2 ^ n)) as [Hlt|Hge].
    + rewrite Z.div_small in Eb by lia. discriminate.
    + apply Z.eqb_neq. lia.
  - apply Z.testbit_false in Eb; [|exact Hn].
    destruct (Z.ltb_spec a (2 ^ n)) as [Hlt|Hge]; [reflexivity|].
    exfalso. assert (a / 2 ^ n = 1) as E1.
    { symmetry. apply (Z.div_unique a (2 ^ n) 1 (a - 2 ^ n)); lia. }
    rewrite E1 in Eb. discriminate.
Qed.

Lemma make_u32_abcd_value (h l : Z) :
  0 ≤ h < 65536 → 0 ≤ l < 65536 → make_u32_abcd h l = h * 65536 + l.
Proof.
  intros Hh Hl. unfold make_u32_abcd.
  assert (Z.land (Z.shiftl h 16) l = 0) as Hdis.
  { apply Z.bits_inj'. intros m Hm. rewrite Z.land_spec, Z.bits_0.
    destruct (Z.ltb_spec m 16) as [Hlt|Hge].
    - rewrite Z.shiftl_spec_low by exact Hlt. reflexivity.
    - rewrite andb_comm. replace (Z.testbit l m) with false; [reflexivity|].
      symmetry. destruct (Z.eq_dec l 0) as [->|Hnz]; [apply Z.bits_0|].
      apply Z.bits_above_log2; [lia|].
      apply Z.log2_lt_pow2; [lia|].
      apply Z.lt_le_trans with (2 ^ 16); [change (2 ^ 16) with 65536; lia|].
      apply Z.pow_le_mono_r; lia. }
  rewrite <- Z.lxor_lor by exact Hdis.
  rewrite <- Z.add_nocarry_lxor by exact Hdis.
  rewrite Z.shiftl_mul_pow2 by lia. change (2 ^ 16) with 65536.
  rewrite land_ffffffff. apply Z.mod_small. lia.
Qed.

Lemma mod_65536_range (r : Z) : 0 ≤ r mod 65536 < 65536.
Proof. apply Z.mod_pos_bound. lia. Qed.

Lemma list_index_0 (r0 : Z) (rest : list Z) : list_index (r0 :: rest) 0 = Ok r0.
Proof. reflexivity. Qed.

Lemma list_index_1 (r0 r1 : Z) (rest : list Z) :
  list_index (r0 :: r1 :: rest) 1 = Ok r1.
Proof. reflexivity. Qed.

(** What the unscaled integer encodings return: [u16] the register
    modulo 2^16, [s16] the number of the signed 16-bit range congruent
    to it, [u32_abcd] the two registers, each modulo 2^16, as high and
    low word, and [s32_abcd] the number of the signed 32-bit range
    congruent to that. Registers after those read are ignored. *)
Theorem decode_integer_values (r0 r1 : Z) (rest : list Z)
    (var : ModbusTcpVariableConfig) :
  _decode_registers (r0 :: rest) (with_encoding var U16) = Ok (NInt (r0 mod 65536))
  ∧ (∃ z, _decode_registers (r0 :: rest) (with_encoding var S16) = Ok (NInt z)
          ∧ -32768 ≤ z < 32768 ∧ (z - r0) mod 65536 = 0)
  ∧ _decode_registers (r0 :: r1 :: rest) (with_encoding var U32_ABCD)
    = Ok (NInt (r0 mod 65536 * 65536 + r1 mod 65536))
  ∧ (∃ z, _decode_registers (r0 :: r1 :: rest) (with_encoding var S32_ABCD) = Ok (NInt z)
          ∧ -2147483648 ≤ z < 2147483648
          ∧ (z - (r0 mod 65536 * 65536 + r1 mod 65536)) mod 4294967296 = 0).
Proof.
  pose proof (mod_65536_range r0) as H0. pose proof (mod_65536_range r1) as H1.
  split; [|split; [|split]].
  - unfold _decode_registers. rewrite list_index_0. cbn -[Z.land].
    rewrite land_ffff. reflexivity.
  - unfold _decode_registers. rewrite list_index_0. cbn -[Z.land Z.eqb].
    rewrite land_ffff.
    change 0x8000 with (2 ^ 15). rewrite (sign_bit _ 15) by (change (2 ^ (15 + 1)) with 65536; lia).
    change (2 ^ 15) with 32768.
    destruct (Z.ltb_spec (r0 mod 65536) 32768) as [Hlt|Hge]; eexists;
      (split; [reflexivity|]); (split; [lia|]).
    + rewrite Zminus_mod, Z.mod_mod, Z.sub_diag by lia. reflexivity.
    + replace (r0 mod 65536 - 65536 - r0) with (r0 mod 65536 - r0 + (-1) * 65536) by lia.
      rewrite Z.mod_add by lia.
      rewrite Zminus_mod, Z.mod_mod, Z.sub_diag by lia. reflexivity.
  - unfold _decode_registers. rewrite list_index_0, list_index_1.
    cbn -[Z.land make_u32_abcd]. rewrite !land_ffff.
    rewrite make_u32_abcd_value by assumption. reflexivity.
  - unfold _decode_registers. rewrite list_index_0, list_index_1.
    cbn -[Z.land Z.eqb make_u32_abcd]. rewrite !land_ffff.
    rewrite make_u32_abcd_value by assumption.
    change 0x80000000 with (2 ^ 31).
    rewrite (sign_bit _ 31) by (change (2 ^ (31 + 1)) with 4294967296; lia).
    change (2 ^ 31) with 2147483648.
    destruct (Z.ltb_spec (r0 mod 65536 * 65536 + r1 mod 65536) 2147483648) as [Hlt|Hge];
      eexists; (split; [reflexivity|]); (split; [lia|]).
    + rewrite Z.sub_diag. reflexivity.
    + match goal with |- (?a - ?c - ?a) mod _ = 0 =>
        replace (a - c - a) with (0 + (-1) * c) by lia end.
      rewrite Z.mod_add by lia. reflexivity.
Qed.

(** *** Scaling *)

(** Each scaled encoding returns [k * x + b] of the value [x] that the
    encoding without scaling returns for the same registers, and fails
    when that one fails. *)
Theorem scaled_is_scale_of_plain (registers : list Z) (var : ModbusTcpVariableConfig) :
  Forall (λ '(plain, with_scale),
            _decode_registers registers (with_encoding var with_scale)
            = match _decode_registers registers (with_encoding var plain) with
              | Ok x => Ok (apply_scale var x)
              | Raise e => Raise e
              end)
    [ (U16, U16_SCALED); (S16, S16_SCALED);
      (U32_ABCD, U32_SCALED_ABCD); (U32_CDAB, U32_SCALED_CDAB);
      (S32_ABCD, S32_SCALED_ABCD); (S32_CDAB, S32_SCALED_CDAB);
      (F32_ABCD, F32_SCALED_ABCD); (F32_CDAB, F32_SCALED_CDAB) ].
Proof.
  repeat constructor;
    unfold _decode_registers; cbn -[Z.land Z.eqb make_u32_abcd unpack_f32];
    destruct registers as [|r0 [|r1 rest]]; reflexivity.
Qed.

End ModbusProps.

(** ** Easy-serial payload parser *)

Module EasyParserProps.
Import EasySerialParser.

Example parse_three_fields :
  parse_payload_text "12; abc ;-7"
    (sample_settings [fld 0 "a" "int"; fld 1 "b" "string"; fld 2 "c" "INT"])
  = Ok (<["a" := VInt 12]> (<["b" := VStr "abc"]> (<["c" := VInt (-7)]> ∅))).
Proof. vm_compute. reflexivity. Qed.

Example parse_index_out :
  parse_payload_text "12;abc" (sample_settings [fld 0 "a" "int"; fld 2 "c" "int"])
  = Raise (IndexError "Variable 'c' refers to index 2, but only 2 fields present").
Proof. vm_compute. reflexivity. Qed.

Example parse_shared_index :
  parse_payload_text "12;abc" (sample_settings [fld 0 "a" "int"; fld 0 "b" "string"])
  = Ok (<["a" := VInt 12]> (<["b" := VInt 12]> ∅)).
Proof. vm_compute. reflexivity. Qed.

Example split_multi :
  str_split "a::b:::c" "::" = Ok ["a"; "b"; ":c"]%string.
Proof. vm_compute. reflexivity. Qed.

Lemma find_field_cfg_Some (fields : list EasySerialParsedFieldConfig) (idx : Z) g :
  _find_field_cfg fields idx = Some g →
  ∃ pre post, fields = pre ++ g :: post ∧ index g = idx
              ∧ Forall (λ f, index f ≠ idx) pre.
Proof.
  induction fields as [|f rest IH]; cbn [_find_field_cfg]; [discriminate|].
  destruct (index f =? idx)%Z eqn:E.
  - intros [= <-]. apply Z.eqb_eq in E. exists [], rest. auto.
  - intros Hg. destruct (IH Hg) as (pre & post & -> & Hi & Hpre).
    exists (f :: pre), post. split; [reflexivity|]. split; [exact Hi|].
    constructor; [apply Z.eqb_neq; exact E|exact Hpre].
Qed.

Lemma parse_fields_Ok `{PyStr} `{PyConv} (all_fields : list EasySerialParsedFieldConfig)
    (parts : list string) (todo : list EasySerialParsedFieldConfig) acc d :
  parse_fields all_fields parts todo acc = Ok d →
  Forall (λ f, (0 ≤ index f < Z.of_nat (length parts))%Z) todo
  ∧ dom d = dom acc ∪ list_to_set (map name todo)
  ∧ (∀ n, n ∉ map name todo → d !! n = acc !! n)
  ∧ (NoDup (map name todo) →
     ∀ f, f ∈ todo →
       ∃ part v, list_index parts (index f) = Ok part
         ∧ _coerce_value (str_strip part) (_find_field_cfg all_fields (index f)) = Ok v
         ∧ d !! name f = Some v).
Proof.
  revert acc. induction todo as [|f rest IH]; intros acc; cbn [parse_fields].
  - intros [= <-]. split; [constructor|]. split; [set_solver|].
    split; [reflexivity|]. intros _ f Hf. apply elem_of_nil in Hf. destruct Hf.
  - destruct ((index f <? 0)%Z || (Z.of_nat (length parts) <=? index f)%Z) eqn:Er;
      [discriminate|].
    apply orb_false_iff in Er. destruct Er as [E1 E2].
    apply Z.ltb_ge in E1. apply Z.leb_gt in E2.
    destruct (list_index parts (index f)) as [part|e] eqn:Ep; [|discriminate].
    cbn [rbind]. cbv zeta.
    destruct (_coerce_value (str_strip part) (_find_field_cfg all_fields (index f)))
      as [v|e] eqn:Ev; [|discriminate].
    cbn [rbind]. intros Hd. destruct (IH _ Hd) as (Hr & Hdom & Hout & Hval).
    split; [constructor; [lia|exact Hr]|].
    split; [rewrite Hdom, dom_insert_L; cbn [map]; set_solver|].
    split.
    + intros n Hn. cbn [map] in Hn. apply not_elem_of_cons in Hn.
      destruct Hn as [Hne Hn]. rewrite (Hout n Hn).
      apply lookup_insert_ne. congruence.
    + cbn [map]. intros Hnd g Hg. apply NoDup_cons in Hnd. destruct Hnd as [Hnf Hnd].
      apply elem_of_cons in Hg. destruct Hg as [->|Hg].
      * exists part, v. split; [exact Ep|]. split; [exact Ev|].
        rewrite (Hout _ Hnf). apply lookup_insert_eq.
      * exact (Hval Hnd g Hg).
Qed.

(** [parse_payload_text] returns a dict only when the index of every
    configured field lies within the parts of the split payload; the
    keys of the dict are then the names of the fields. *)
Theorem parse_payload_returns_inv `{PyStr} `{PyConv} (payload_text : string)
    (settings : EasySerialParserSettings) d :
  parse_payload_text payload_text settings = Ok d →
  ∃ parts, str_split payload_text (separator settings) = Ok parts
    ∧ Forall (λ f, (0 ≤ index f < Z.of_nat (length parts))%Z) (fields settings)
    ∧ dom d = list_to_set (map name (fields settings)).
Proof.
  unfold parse_payload_text.
  destruct (str_split payload_text (separator settings)) as [parts|e]; [|discriminate].
  cbn [rbind]. intros Hd. exists parts. split; [reflexivity|].
  destruct (parse_fields_Ok _ _ _ _ _ Hd) as (Hr & Hdom & _).
  split; [exact Hr|]. rewrite Hdom, dom_empty_L. set_solver.
Qed.

Lemma parse_payload_returns_inv_witness :
  ∃ parts, str_split "12; abc ;-7" ";" = Ok parts
    ∧ Forall (λ f, (0 ≤ index f < Z.of_nat (length parts))%Z)
        [fld 0 "a" "int"; fld 1 "b" "string"; fld 2 "c" "INT"]
    ∧ dom (<["a" := VInt 12]> (<["b" := VStr "abc"]> (<["c" := VInt (-7)]> ∅))
           : gmap string pyval)
      = list_to_set (map name [fld 0 "a" "int"; fld 1 "b" "string"; fld 2 "c" "INT"]).
Proof.
  apply (parse_payload_returns_inv (H := ascii_str) (H0 := sample_conv) "12; abc ;-7"
           (sample_settings [fld 0 "a" "int"; fld 1 "b" "string"; fld 2 "c" "INT"])).
  vm_compute. reflexivity.
Defined.

(** When the field names are distinct, the value under each name is
    the part at the field's index, stripped and converted with the type
    and format of the first field of the list that has this index,
    which need not be the field itself. *)
Theorem parse_payload_values `{PyStr} `{PyConv} (payload_text : string)
    (settings : EasySerialParserSettings) d parts f :
  parse_payload_text payload_text settings = Ok d →
  str_split payload_text (separator settings) = Ok parts →
  NoDup (map name (fields settings)) → f ∈ fields settings →
  ∃ g pre post part v,
    fields settings = pre ++ g :: post ∧ index g = index f
    ∧ Forall (λ f', index f' ≠ index f) pre
    ∧ list_index parts (index f) = Ok part
    ∧ _coerce_value (str_strip part) (Some g) = Ok v
    ∧ d !! name f = Some v.
Proof.
  unfold parse_payload_text. intros Hd Hs Hnd Hf. rewrite Hs in Hd. cbn [rbind] in Hd.
  destruct (parse_fields_Ok _ _ _ _ _ Hd) as (_ & _ & _ & Hval).
  destruct (Hval Hnd f Hf) as (part & v & Hp & Hv & Hl).
  destruct (_find_field_cfg (fields settings) (index f)) as [g|] eqn:Eg.
  - destruct (find_field_cfg_Some _ _ _ Eg) as (pre & post & Hfs & Hi & Hpre).
    exists g, pre, post, part, v. auto 10.
  - exfalso. clear -Eg Hf. induction (fields settings) as [|x l IH].
    + apply elem_of_nil in Hf. exact Hf.
    + cbn [_find_field_cfg] in Eg. destruct (index x =? index f)%Z eqn:E; [discriminate|].
      apply elem_of_cons in Hf. destruct Hf as [->|Hf]; [|exact (IH Hf Eg)].
      rewrite Z.eqb_refl in E. discriminate.
Qed.

Lemma parse_payload_values_witness :
  ∃ g pre post part v,
    [fld 0 "a" "int"; fld 0 "b" "string"] = pre ++ g :: post
    ∧ index g = index (fld 0 "b" "string")
    ∧ Forall (λ f', index f' ≠ index (fld 0 "b" "string")) pre
    ∧ list_index ["12"; "abc"]%string (index (fld 0 "b" "string")) = Ok part
    ∧ _coerce_value (H := sample_conv) (AsciiStr.strip part) (Some g) = Ok v
    ∧ (<["a" := VInt 12]> (<["b" := VInt 12]> ∅) : gmap string pyval)
      !! name (fld 0 "b" "string") = Some v.
Proof.
  apply (parse_payload_values (H := ascii_str) (H0 := sample_conv) "12;abc"
           (sample_settings [fld 0 "a" "int"; fld 0 "b" "string"])).
  - vm_compute. reflexivity.
  - vm_compute. reflexivity.
  - cbn. repeat constructor; set_solver.
  - cbn. set_solver.
Defined.

End EasyParserProps.

(** ** Mbox worker: counters of packs, writes and frames *)

Module MboxWorkerProps.
Import MboxConfig MboxLabel MboxTransform QueryTemplate MboxParser MboxWorker.
Import MboxWorkerAux MboxWorkerFacts.
Local Open Scope Z_scope.

Lemma metric_dict_inc (n n' : string) (v : Z) (m : gmap string Z) :
  metric n (dict_inc n' v m) = if String.eqb n n' then metric n m + v else metric n m.
Proof.
  unfold metric, dict_inc. destruct (String.eqb n n') eqn:E.
  - apply String.eqb_eq in E. subst n'. rewrite lookup_insert_eq. reflexivity.
  - apply String.eqb_neq in E. rewrite lookup_insert_ne by congruence. reflexivity.
Qed.

Lemma metric_insert (n n' : string) (v : Z) (m : gmap string Z) :
  metric n (<[ n' := v ]> m) = if String.eqb n n' then v else metric n m.
Proof.
  unfold metric. destruct (String.eqb n n') eqn:E.
  - apply String.eqb_eq in E. subst n'. rewrite lookup_insert_eq. reflexivity.
  - apply String.eqb_neq in E. rewrite lookup_insert_ne by congruence. reflexivity.
Qed.

Ltac eqb_literals :=
  repeat match goal with
         | |- context [String.eqb ?a ?b] =>
             let r := eval vm_compute in (String.eqb a b) in
             change (String.eqb a b) with r
         end;
  cbv iota.

Ltac tally_step :=
  unfold tally_of, _metric_inc, _set_error, _log_message;
  cbn [_metrics _extra_metrics db_write_calls set_metrics set_extra_metrics
       set_db_write_calls set_last_good_vars set_transformer set_pending_pack_ts
       set_counter_last_total set_pending_miss set_miss_deadline_ts set_provider];
  repeat (first [rewrite metric_dict_inc | rewrite metric_insert]; eqb_literals).

Lemma tally_log_message (w : MboxConnectionWorker) : tally_of (_log_message w) = tally_of w.
Proof. tally_step. reflexivity. Qed.

Lemma db_write_tally (writer : DBWriter) q params on_success w :
  tally_of (db_write writer q params on_success w)
  = tally_of
      (if write_raises writer (length (db_write_calls w))
       then _set_error (_metric_inc "db_write_fail_total" 1 false
                          (set_db_write_calls (db_write_calls w ++ [(q, params)]) w))
       else on_success (set_db_write_calls (db_write_calls w ++ [(q, params)]) w)).
Proof. unfold db_write. cbv zeta. destruct (write_raises writer _); reflexivity. Qed.

Lemma length_snoc_Z {A : Type} (l : list A) (x : A) :
  Z.of_nat (length (l ++ [x])) = Z.of_nat (length l) + 1.
Proof. rewrite length_app. cbn [length]. lia. Qed.

Ltac balanced_solve :=
  unfold balanced in *;
  cbn [packs_total packs_clean_total packs_miss_total db_writes_total
       db_write_fail_total write_calls frames_total parse_ok_total parse_fail_total] in *;
  rewrite ?length_snoc_Z; lia.

Lemma insert_miss_pack_balanced `{PyStr} (ts : string) (w : MboxConnectionWorker) :
  balanced (tally_of w) → balanced (tally_of (after (_insert_miss_pack ts w))).
Proof.
  intros Hb. unfold _insert_miss_pack.
  destruct (negb _); [exact Hb|].
  destruct (_db_writer w) as [writer|]; [|exact Hb].
  destruct (build_query_opt _ _) as [[q params]|e]; [|exact Hb].
  cbn [after returns]. rewrite db_write_tally.
  destruct (write_raises writer _); revert Hb; tally_step; intros Hb; balanced_solve.
Qed.

Lemma insert_miss_packs_balanced `{PyStr} (n i : nat) clock (w : MboxConnectionWorker) :
  balanced (tally_of w) → balanced (tally_of (after (insert_miss_packs n i clock w))).
Proof.
  revert i w. induction n as [|n IH]; intros i w Hb; [exact Hb|].
  cbn [insert_miss_packs].
  pose proof (insert_miss_pack_balanced (clock i) w Hb) as Hb1.
  destruct (raised (_insert_miss_pack (clock i) w)); [exact Hb1|].
  apply IH. exact Hb1.
Qed.

Lemma tick_miss_balanced `{PyStr} (now : float) clock (w : MboxConnectionWorker) :
  balanced (tally_of w) → balanced (tally_of (after (_tick_miss_insert now clock w))).
Proof.
  intros Hb. unfold _tick_miss_insert.
  destruct (_miss_deadline_ts w) as [d|]; [|exact Hb].
  destruct (PrimFloat.ltb now d); [exact Hb|]. cbv zeta.
  destruct (_pending_miss _ <=? 0); [exact Hb|].
  apply insert_miss_packs_balanced. exact Hb.
Qed.

Lemma tick_counter_tally (now : float) (w : MboxConnectionWorker) :
  tally_of (_tick_counter_logic now w) = tally_of w.
Proof.
  unfold _tick_counter_logic.
  destruct (_read_counter_total w) as [total|]; [|reflexivity].
  destruct (_counter_last_total w) as [last|]; [|reflexivity].
  cbv zeta. destruct (total - last <=? 0); [reflexivity|].
  change (_pending_pack_ts (set_counter_last_total (Some total)
            (_metric_inc "counter_increments_total" (total - last) true w)))
    with (_pending_pack_ts w).
  destruct (_pending_pack_ts w); tally_step; reflexivity.
Qed.

(** What [_handle_result] does to the counters: nothing (also when it
    raises), a failed write, or a written clean pack. *)
Lemma handle_result_tally `{PyStr} (res : MboxTransformResult) (w : MboxConnectionWorker) :
  let t := tally_of w in
  let o := _handle_result res w in
  tally_of (after o) = t
  ∨ (raised o = None
     ∧ tally_of (after o)
       = {| packs_total := packs_total t; packs_clean_total := packs_clean_total t;
            packs_miss_total := packs_miss_total t;
            db_writes_total := db_writes_total t;
            db_write_fail_total := db_write_fail_total t + 1;
            write_calls := write_calls t + 1;
            frames_total := frames_total t; parse_ok_total := parse_ok_total t;
            parse_fail_total := parse_fail_total t |})
  ∨ (raised o = None
     ∧ tally_of (after o)
       = {| packs_total := packs_total t + 1;
            packs_clean_total := packs_clean_total t + 1;
            packs_miss_total := packs_miss_total t;
            db_writes_total := db_writes_total t + 1;
            db_write_fail_total := db_write_fail_total t;
            write_calls := write_calls t + 1;
            frames_total := frames_total t; parse_ok_total := parse_ok_total t;
            parse_fail_total := parse_fail_total t |}).
Proof.
  cbv zeta. unfold _handle_result.
  destruct (negb _); [left; reflexivity|].
  destruct (is_empty_template _); [left; reflexivity|].
  destruct (_db_writer w) as [writer|]; [|left; reflexivity].
  destruct (build_query_opt _ _) as [[q params]|e]; [|left; reflexivity].
  cbn [after returns raised]. rewrite db_write_tally.
  destruct (write_raises writer _); [right; left|right; right];
    (split; [reflexivity|]); tally_step;
    cbn [packs_total packs_clean_total packs_miss_total db_writes_total
         db_write_fail_total write_calls frames_total parse_ok_total parse_fail_total];
    rewrite length_snoc_Z; reflexivity.
Qed.

Lemma on_frame_balanced `{PyStr} `{PyParse} (payload : list byte) (t : float) w :
  balanced (tally_of w) → balanced (tally_of (on_frame payload t w)).
Proof.
  intros Hb. unfold on_frame. cbv zeta.
  destruct (parse_label_frame payload _) as [rec|e].
  2:{ revert Hb. tally_step. intros Hb. balanced_solve. }
  destruct (transform _ _ rec) as [res tr].
  match goal with |- context [_handle_result res ?w0] =>
    pose proof (handle_result_tally res w0) as Ht;
    assert (balanced (tally_of w) →
            tally_of w0
            = {| packs_total := packs_total (tally_of w);
                 packs_clean_total := packs_clean_total (tally_of w);
                 packs_miss_total := packs_miss_total (tally_of w);
                 db_writes_total := db_writes_total (tally_of w);
                 db_write_fail_total := db_write_fail_total (tally_of w);
                 write_calls := write_calls (tally_of w);
                 frames_total := frames_total (tally_of w) + 1;
                 parse_ok_total := parse_ok_total (tally_of w) + 1;
                 parse_fail_total := parse_fail_total (tally_of w) |}) as Hw0
      by (intros _; tally_step; reflexivity);
    specialize (Hw0 Hb);
    set (o := _handle_result res w0) in *;
    set (t0 := tally_of w0) in *
  end.
  cbv zeta in Ht.
  assert (balanced (tally_of (after o)) ∧
          (raised o ≠ None → tally_of (after o) = t0)) as [Hbo Hraise].
  { destruct Ht as [Ht|[[Hr Ht]|[Hr Ht]]]; rewrite Ht.
    - split; [|reflexivity]. rewrite Hw0. balanced_solve.
    - split; [|congruence]. rewrite Hw0. balanced_solve.
    - split; [|congruence]. rewrite Hw0. balanced_solve. }
  destruct (raised o) as [e|] eqn:Er; [|exact Hbo].
  assert (tally_of (after o) = t0) as Ha by (apply Hraise; discriminate).
  revert Ha. generalize (after o). intros w1 Ha.
  assert (tally_of (_set_error (_metric_inc "parse_fail_total" 1 true w1))
          = {| packs_total := packs_total (tally_of w1);
               packs_clean_total := packs_clean_total (tally_of w1);
               packs_miss_total := packs_miss_total (tally_of w1);
               db_writes_total := db_writes_total (tally_of w1);
               db_write_fail_total := db_write_fail_total (tally_of w1);
               write_calls := write_calls (tally_of w1);
               frames_total := frames_total (tally_of w1);
               parse_ok_total := parse_ok_total (tally_of w1);
               parse_fail_total := parse_fail_total (tally_of w1) + 1 |}) as ->
    by (tally_step; reflexivity).
  rewrite Ha, Hw0. balanced_solve.
Qed.

Lemma step_balanced `{PyStr} `{PyParse} (e : event) (w : MboxConnectionWorker) :
  balanced (tally_of w) → balanced (tally_of (step e w)).
Proof.
  intros Hb. destruct e as [now|now clock|payload t|p]; cbn [step].
  - rewrite tick_counter_tally. exact Hb.
  - apply tick_miss_balanced. exact Hb.
  - apply on_frame_balanced. exact Hb.
  - exact Hb.
Qed.

Lemma reachable_balanced `{PyStr} `{PyParse} (w : MboxConnectionWorker) :
  reachable w → balanced (tally_of w).
Proof.
  induction 1 as [config db_writer provider|e w Hr IH].
  - unfold balanced, tally_of, metric.
    cbn [new_worker _metrics _extra_metrics db_write_calls packs_total
         packs_clean_total packs_miss_total db_writes_total db_write_fail_total
         write_calls frames_total parse_ok_total parse_fail_total].
    rewrite !lookup_empty. cbn [default length]. lia.
  - apply step_balanced. exact IH.
Qed.

Lemma reachable_run `{PyStr} `{PyParse} (events : list event) (w : MboxConnectionWorker) :
  reachable w → reachable (run events w).
Proof.
  revert w. induction events as [|e events IH]; intros w Hr; [exact Hr|].
  cbn [run foldl]. apply IH. constructor. exact Hr.
Qed.

(** In every state that the run loop reaches, each call of
    [db_writer.write] is counted once, in [db_writes_total] or in
    [db_write_fail_total]; every successful write is one pack, so
    [db_writes_total = packs_total], and every pack is a clean pack or a
    miss pack: [packs_total = packs_clean_total + packs_miss_total]. *)
Theorem reachable_pack_accounting `{PyStr} `{PyParse} (w : MboxConnectionWorker) :
  reachable w →
  metric "packs_total" (_extra_metrics w)
  = metric "packs_clean_total" (_extra_metrics w)
    + metric "packs_miss_total" (_extra_metrics w)
  ∧ metric "db_writes_total" (_metrics w) = metric "packs_total" (_extra_metrics w)
  ∧ metric "db_writes_total" (_metrics w) + metric "db_write_fail_total" (_metrics w)
    = Z.of_nat (length (db_write_calls w)).
Proof.
  intros Hr. apply reachable_balanced in Hr.
  destruct Hr as (H1 & H2 & H3 & _). auto.
Qed.

Lemma reachable_pack_accounting_witness :
  let w := run (H := ascii_str) (H0 := sample_parse) miss_scenario fresh_worker in
  metric "packs_total" (_extra_metrics w)
  = metric "packs_clean_total" (_extra_metrics w)
    + metric "packs_miss_total" (_extra_metrics w)
  ∧ metric "db_writes_total" (_metrics w) = metric "packs_total" (_extra_metrics w)
  ∧ metric "db_writes_total" (_metrics w) + metric "db_write_fail_total" (_metrics w)
    = Z.of_nat (length (db_write_calls w)).
Proof.
  apply (reachable_pack_accounting (H := ascii_str) (H0 := sample_parse)
           (run (H := ascii_str) (H0 := sample_parse) miss_scenario fresh_worker)).
  apply reachable_run. constructor.
Defined.

(** In every state that the run loop reaches, a frame is counted in
    [parse_ok_total], in [parse_fail_total], or in both: in both when
    the label parses and the query template then cannot be built. So
    neither counter exceeds [frames_total], their sum is at least
    [frames_total], and no more clean packs are written than labels
    parsed. *)
Theorem reachable_frame_accounting `{PyStr} `{PyParse} (w : MboxConnectionWorker) :
  reachable w →
  0 ≤ metric "parse_ok_total" (_extra_metrics w) ≤ metric "frames_total" (_extra_metrics w)
  ∧ 0 ≤ metric "parse_fail_total" (_extra_metrics w)
      ≤ metric "frames_total" (_extra_metrics w)
  ∧ metric "frames_total" (_extra_metrics w)
    ≤ metric "parse_ok_total" (_extra_metrics w)
      + metric "parse_fail_total" (_extra_metrics w)
  ∧ metric "packs_clean_total" (_extra_metrics w)
    ≤ metric "parse_ok_total" (_extra_metrics w).
Proof.
  intros Hr. apply reachable_balanced in Hr.
  destruct Hr as (_ & _ & _ & _ & _ & _ & H1 & H2 & H3 & H4). auto.
Qed.

Lemma reachable_frame_accounting_witness :
  let w := run (H := ascii_str) (H0 := sample_parse) clean_scenario fresh_worker in
  0 ≤ metric "parse_ok_total" (_extra_metrics w) ≤ metric "frames_total" (_extra_metrics w)
  ∧ 0 ≤ metric "parse_fail_total" (_extra_metrics w)
      ≤ metric "frames_total" (_extra_metrics w)
  ∧ metric "frames_total" (_extra_metrics w)
    ≤ metric "parse_ok_total" (_extra_metrics w)
      + metric "parse_fail_total" (_extra_metrics w)
  ∧ metric "packs_clean_total" (_extra_metrics w)
    ≤ metric "parse_ok_total" (_extra_metrics w).
Proof.
  apply (reachable_frame_accounting (H := ascii_str) (H0 := sample_parse)
           (run (H := ascii_str) (H0 := sample_parse) clean_scenario fresh_worker)).
  apply reachable_run. constructor.
Defined.

(** A frame that parses and whose query then fails to build is counted
    as parsed and as failed. *)
Example frame_counted_twice :
  let w := on_frame (H := ascii_str) (H0 := sample_parse) MboxParserSamples.label_13 1%float
             (new_worker (sample_connection "INSERT INTO t VALUES ({nope})")
                (Some ok_writer) None) in
  metric "frames_total" (_extra_metrics w) = 1
  ∧ metric "parse_ok_total" (_extra_metrics w) = 1
  ∧ metric "parse_fail_total" (_extra_metrics w) = 1.
Proof. vm_compute. repeat split; reflexivity. Qed.

(** *** The stored counter total *)

Ltac view_step :=
  unfold counter_view, _metric_inc, _set_error, _log_message;
  cbn [_metrics _extra_metrics db_write_calls _counter_last_total
       set_metrics set_extra_metrics
       set_db_write_calls set_last_good_vars set_transformer set_pending_pack_ts
       set_counter_last_total set_pending_miss set_miss_deadline_ts set_provider];
  repeat (first [rewrite metric_dict_inc | rewrite metric_insert]; eqb_literals).

Lemma db_write_view (writer : DBWriter) q params on_success w :
  (∀ w0, counter_view (on_success w0) = counter_view w0) →
  counter_view (db_write writer q params on_success w) = counter_view w.
Proof.
  intros Hs. unfold db_write. cbv zeta. destruct (write_raises writer _).
  - view_step. reflexivity.
  - rewrite Hs. reflexivity.
Qed.

Lemma insert_miss_pack_view `{PyStr} (ts : string) (w : MboxConnectionWorker) :
  counter_view (after (_insert_miss_pack ts w)) = counter_view w.
Proof.
  unfold _insert_miss_pack.
  destruct (negb _); [reflexivity|].
  destruct (_db_writer w) as [writer|]; [|reflexivity].
  destruct (build_query_opt _ _) as [[q params]|e]; [|reflexivity].
  cbn [after returns]. rewrite db_write_view.
  - view_step. reflexivity.
  - intros w0. view_step. reflexivity.
Qed.

Lemma insert_miss_packs_view `{PyStr} (n i : nat) clock (w : MboxConnectionWorker) :
  counter_view (after (insert_miss_packs n i clock w)) = counter_view w.
Proof.
  revert i w. induction n as [|n IH]; intros i w; [reflexivity|].
  cbn [insert_miss_packs].
  pose proof (insert_miss_pack_view (clock i) w) as H1.
  destruct (raised (_insert_miss_pack (clock i) w)); [exact H1|].
  rewrite IH. exact H1.
Qed.

Lemma tick_miss_view `{PyStr} (now : float) clock (w : MboxConnectionWorker) :
  counter_view (after (_tick_miss_insert now clock w)) = counter_view w.
Proof.
  unfold _tick_miss_insert.
  destruct (_miss_deadline_ts w) as [d|]; [|reflexivity].
  destruct (PrimFloat.ltb now d); [reflexivity|]. cbv zeta.
  destruct (_pending_miss _ <=? 0); [reflexivity|].
  rewrite insert_miss_packs_view. reflexivity.
Qed.

Lemma handle_result_view `{PyStr} (res : MboxTransformResult) (w : MboxConnectionWorker) :
  counter_view (after (_handle_result res w)) = counter_view w.
Proof.
  unfold _handle_result.
  destruct (negb _); [reflexivity|].
  destruct (is_empty_template _); [reflexivity|].
  destruct (_db_writer w) as [writer|]; [|reflexivity].
  destruct (build_query_opt _ _) as [[q params]|e]; [|reflexivity].
  cbn [after returns]. rewrite db_write_view.
  - view_step. reflexivity.
  - intros w0. view_step. reflexivity.
Qed.

Lemma on_frame_view `{PyStr} `{PyParse} (payload : list byte) (t : float) w :
  counter_view (on_frame payload t w) = counter_view w.
Proof.
  unfold on_frame. cbv zeta.
  destruct (parse_label_frame payload _) as [rec|e]; [|view_step; reflexivity].
  destruct (transform _ _ rec) as [res tr].
  match goal with |- context [_handle_result res ?w0] =>
    pose proof (handle_result_view res w0) as Hv;
    assert (counter_view w0 = counter_view w) as Hw0 by (view_step; reflexivity);
    destruct (raised (_handle_result res w0))
  end.
  - rewrite <- Hw0, <- Hv. generalize (after (_handle_result res
      (set_pending_pack_ts
         (Some (PrimFloat.add t (counter_clean_timeout
            (_mbox_cfg (set_transformer tr
               (_metric_inc "parse_ok_total" 1 true
                  (_metric_inc "frames_total" 1 true w)))))))
         (set_transformer tr
            (_metric_inc "parse_ok_total" 1 true
               (_metric_inc "frames_total" 1 true w)))))).
    intros w1. view_step. reflexivity.
  - rewrite Hv. exact Hw0.
Qed.

Lemma step_view `{PyStr} `{PyParse} (e : event) (w : MboxConnectionWorker) (last : Z) :
  _counter_last_total w = Some last →
  ∃ last', _counter_last_total (step e w) = Some last' ∧ last ≤ last'
    ∧ metric "counter_increments_total" (_extra_metrics (step e w))
      = metric "counter_increments_total" (_extra_metrics w) + (last' - last).
Proof.
  intros Hl.
  assert (∀ w', counter_view w' = counter_view w →
            ∃ last', _counter_last_total w' = Some last' ∧ last ≤ last'
              ∧ metric "counter_increments_total" (_extra_metrics w')
                = metric "counter_increments_total" (_extra_metrics w) + (last' - last))
    as Hsame.
  { intros w' Hv. unfold counter_view in Hv. injection Hv as Hv1 Hv2.
    exists last. rewrite Hv1, Hv2, Hl. split; [reflexivity|]. split; lia. }
  destruct e as [now|now clock|payload t|p]; cbn [step].
  - unfold _tick_counter_logic.
    destruct (_read_counter_total w) as [total|]; [|apply Hsame; reflexivity].
    rewrite Hl. cbv zeta.
    destruct (total - last <=? 0) eqn:E; [apply Hsame; reflexivity|].
    apply Z.leb_gt in E. exists total.
    change (_pending_pack_ts (set_counter_last_total (Some total)
              (_metric_inc "counter_increments_total" (total - last) true w)))
      with (_pending_pack_ts w).
    destruct (_pending_pack_ts w); (split; [reflexivity|]); (split; [lia|]);
      view_step; reflexivity.
  - apply Hsame. apply tick_miss_view.
  - apply Hsame. apply on_frame_view.
  - apply Hsame. reflexivity.
Qed.

(** Once the worker has stored a counter total, no run of the loop
    lowers it: a total at or below the stored one is ignored, and
    [counter_increments_total] grows by exactly as much as the stored
    total does. *)
Theorem counter_total_only_grows `{PyStr} `{PyParse} (events : list event)
    (w : MboxConnectionWorker) (last : Z) :
  _counter_last_total w = Some last →
  ∃ last', _counter_last_total (run events w) = Some last' ∧ last ≤ last'
    ∧ metric "counter_increments_total" (_extra_metrics (run events w))
      = metric "counter_increments_total" (_extra_metrics w) + (last' - last).
Proof.
  revert w last. induction events as [|e events IH]; intros w last Hl.
  - exists last. cbn [run foldl]. split; [exact Hl|]. split; lia.
  - cbn [run foldl]. destruct (step_view e w last Hl) as (l1 & H1 & Hle1 & Hm1).
    destruct (IH (step e w) l1 H1) as (l2 & H2 & Hle2 & Hm2).
    exists l2. split; [exact H2|]. split; [lia|].
    unfold run in Hm2. rewrite Hm2, Hm1. lia.
Qed.

Lemma counter_total_only_grows_witness :
  let w := run (H := ascii_str) (H0 := sample_parse)
             [ProviderChange (counter_at 5); TickCounter 0%float] fresh_worker in
  let events := [ ProviderChange (counter_at 3); TickCounter 1%float;
                  ProviderChange (counter_at 8); TickCounter 2%float ] in
  ∃ last', _counter_last_total (run (H := ascii_str) (H0 := sample_parse) events w)
           = Some last' ∧ 5 ≤ last'
    ∧ metric "counter_increments_total"
        (_extra_metrics (run (H := ascii_str) (H0 := sample_parse) events w))
      = metric "counter_increments_total" (_extra_metrics w) + (last' - 5).
Proof.
  apply (counter_total_only_grows (H := ascii_str) (H0 := sample_parse)
           [ ProviderChange (counter_at 3); TickCounter 1%float;
             ProviderChange (counter_at 8); TickCounter 2%float ]
           (run (H := ascii_str) (H0 := sample_parse)
              [ProviderChange (counter_at 5); TickCounter 0%float] fresh_worker) 5).
  vm_compute. reflexivity.
Defined.

(** *** Misses beyond the insert limit *)

(** When more increments are pending than one tick may insert, a due
    [tick_miss] lowers [pending_miss] by [max(miss_insert_limit, 1)]
    and clears the deadline; what is left is not inserted by any later
    [tick_miss], whatever the time: it waits until [tick_counter] sets a
    new deadline. *)
Theorem miss_leftover_waits `{PyStr} (now d : float) (clock : nat → string)
    (w : MboxConnectionWorker) :
  _miss_deadline_ts w = Some d → PrimFloat.ltb now d = false →
  Z.max (miss_insert_limit (_mbox_cfg w)) 1 < _pending_miss w →
  let w' := after (_tick_miss_insert now clock w) in
  _pending_miss w' = _pending_miss w - Z.max (miss_insert_limit (_mbox_cfg w)) 1
  ∧ 0 < _pending_miss w'
  ∧ _miss_deadline_ts w' = None
  ∧ ∀ now' clock', _tick_miss_insert now' clock' w' = returns w'.
Proof.
  intros Hd Hlt Hp. cbv zeta.
  assert (_miss_deadline_ts (after (_tick_miss_insert now clock w)) = None
          ∧ _pending_miss (after (_tick_miss_insert now clock w))
            = _pending_miss w - Z.max (miss_insert_limit (_mbox_cfg w)) 1) as [Hdl Hpm].
  { unfold _tick_miss_insert. rewrite Hd, Hlt. cbv zeta.
    change (_pending_miss (set_miss_deadline_ts None w)) with (_pending_miss w).
    change (_mbox_cfg (set_miss_deadline_ts None w)) with (_mbox_cfg w).
    destruct (_pending_miss w <=? 0) eqn:E; [apply Z.leb_le in E; lia|].
    match goal with |- context [insert_miss_packs ?n ?i ?c ?w0] =>
      pose proof (insert_miss_packs_only_effects n i c w0) as Ho
    end.
    destruct Ho as (_ & _ & _ & _ & _ & _ & Hdl & Hpm & _).
    cbn [_miss_deadline_ts _pending_miss set_pending_miss set_miss_deadline_ts]
      in Hdl, Hpm.
    split; [exact Hdl|]. rewrite Hpm. lia. }
  split; [exact Hpm|]. split; [rewrite Hpm; lia|]. split; [exact Hdl|].
  intros now' clock'. apply tick_miss_not_due. left. exact Hdl.
Qed.

Lemma miss_leftover_waits_witness :
  let w := due_worker miss_template in
  let w' := after (_tick_miss_insert (H := ascii_str) 11%float sample_clock w) in
  _pending_miss w' = _pending_miss w - Z.max (miss_insert_limit (_mbox_cfg w)) 1
  ∧ 0 < _pending_miss w'
  ∧ _miss_deadline_ts w' = None
  ∧ ∀ now' clock', _tick_miss_insert (H := ascii_str) now' clock' w' = returns w'.
Proof.
  apply (miss_leftover_waits (H := ascii_str) 11%float 10%float sample_clock
           (due_worker miss_template)).
  - reflexivity.
  - vm_compute. reflexivity.
  - vm_compute. reflexivity.
Defined.

End MboxWorkerProps.

(** ** Mbox-counter worker: polling a device *)

Module CounterWorkerProps.
Import MboxCounterFramer MboxCounterFramerAux MboxCounterFramerFacts CounterFramerProps.
Import MboxCounterWorker.
Local Open Scope Z_scope.

Example poll_reference_device :
  option_map (λ r, (get_total (fst r) 1, snd r))
    (_poll_device device_1A78 true
       [[]; [xff; x27; x0a; x08; x78]; []; [x1a; xcd; x28; x1c; x29; x00; x01; x00; x05; x0d]]
       new_worker)
  = Some (Some 2694184, None).
Proof. vm_compute. reflexivity. Qed.

Example poll_other_serial_times_out :
  option_map (λ r, (get_total (fst r) 1, snd r))
    (_poll_device {| device_id := 1; name := "c"; serial := 5; enabled := true |} true
       [MboxCounterProtocol.response_1A78] new_worker)
  = Some (None, Some (TimeoutError "no response frame before timeout")).
Proof. vm_compute. reflexivity. Qed.

(** *** A frame that [parse_response_frame] accepts *)


(** *** The framer on a stream that ends with a frame *)





(** *** Polling *)





(** *** What a poll may change in the totals *)

Lemma handle_frames_totals (dev : MboxCounterDeviceConfig) (frames : list (list byte)) w :
  match handle_frames dev frames w with
  | Found w' =>
      ∃ F parsed, In F frames
        ∧ MboxCounterProtocol.parse_response_frame F = Ok parsed
        ∧ MboxCounterProtocol.serial parsed = serial dev
        ∧ _totals w' = <[ device_id dev := MboxCounterProtocol.total_count parsed ]>
                         (_totals w)
  | NotFound w' | Escaped _ w' => _totals w' = _totals w
  end.
Proof.
  revert w. induction frames as [|fr rest IH]; intros w; cbn [handle_frames];
    [reflexivity|].
  assert (∀ w0, _totals w0 = _totals w →
            match handle_frames dev rest w0 with
            | Found w' =>
                ∃ F parsed, In F (fr :: rest)
                  ∧ MboxCounterProtocol.parse_response_frame F = Ok parsed
                  ∧ MboxCounterProtocol.serial parsed = serial dev
                  ∧ _totals w' = <[ device_id dev :=
                                    MboxCounterProtocol.total_count parsed ]> (_totals w)
            | NotFound w' | Escaped _ w' => _totals w' = _totals w
            end) as Hrest.
  { intros w0 Hw0. specialize (IH w0). destruct (handle_frames dev rest w0).
    - destruct IH as (F & parsed & Hin & Hp & Hs & Ht). exists F, parsed.
      split; [right; exact Hin|]. rewrite <- Hw0. auto.
    - congruence.
    - congruence. }
  destruct (MboxCounterProtocol.parse_response_frame fr) as [parsed|e] eqn:Ep.
  - destruct (negb (MboxCounterProtocol.serial parsed =? serial dev)) eqn:Es.
    + apply Hrest. reflexivity.
    + apply negb_false_iff, Z.eqb_eq in Es. exists fr, parsed.
      split; [left; reflexivity|]. auto.
  - destruct e; try reflexivity;
      apply Hrest; destruct (ModbusTcp.str_contains _ _); reflexivity.
Qed.

Lemma poll_loop_totals (dev : MboxCounterDeviceConfig) (chunks : list (list byte)) w w' r :
  poll_loop dev chunks w = Some (w', r) →
  match r with
  | Some _ => _totals w' = _totals w
  | None =>
      ∃ F parsed, MboxCounterProtocol.parse_response_frame F = Ok parsed
        ∧ MboxCounterProtocol.serial parsed = serial dev
        ∧ _totals w' = <[ device_id dev := MboxCounterProtocol.total_count parsed ]>
                         (_totals w)
  end.
Proof.
  revert w. induction chunks as [|chunk rest IH]; intros w; cbn [poll_loop].
  - intros [= <- <-]. reflexivity.
  - destruct chunk as [|c0 chunk]; [apply IH|].
    destruct (feed (_framer w) (c0 :: chunk)) as [[frames buf]|]; [|discriminate].
    pose proof (handle_frames_totals dev frames (set_framer buf w)) as Hh.
    destruct (handle_frames dev frames (set_framer buf w)) as [w1|w1|e w1].
    + intros [= <- <-]. destruct Hh as (F & parsed & _ & Hp & Hs & Ht).
      exists F, parsed. auto.
    + intros Hl. specialize (IH w1 Hl). cbn [_totals set_framer] in Hh.
      rewrite Hh in IH. exact IH.
    + intros [= <- <-]. exact Hh.
Qed.

(** [_poll_device] touches the cached totals only at the id of the
    polled device, and only when it returns: the value stored is then
    the total of a frame that [parse_response_frame] accepted and that
    carries the serial of the device. When it raises (timeout, closed
    port, bad serial) the totals are as before. *)
Theorem poll_device_totals (dev : MboxCounterDeviceConfig) (port_open : bool)
    (chunks : list (list byte)) (w w' : MboxCounterConnectionWorker) r :
  _poll_device dev port_open chunks w = Some (w', r) →
  (∀ id, id ≠ device_id dev → get_total w' id = get_total w id)
  ∧ match r with
    | Some _ => _totals w' = _totals w
    | None =>
        ∃ F parsed, MboxCounterProtocol.parse_response_frame F = Ok parsed
          ∧ MboxCounterProtocol.serial parsed = serial dev
          ∧ get_total w' (device_id dev)
            = Some (MboxCounterProtocol.total_count parsed)
    end.
Proof.
  unfold _poll_device.
  destruct (MboxCounterProtocol.build_read_request (serial dev)) as [req|e].
  2:{ intros [= <- <-]. split; reflexivity. }
  cbv zeta. destruct (negb port_open).
  { intros [= <- <-]. split; reflexivity. }
  intros Hl. apply poll_loop_totals in Hl.
  cbn [_totals set_written inc_extra set_extra_metrics] in Hl.
  unfold get_total. destruct r as [e|].
  - rewrite Hl. split; reflexivity.
  - destruct Hl as (F & parsed & Hp & Hs & Ht). rewrite Ht. split.
    + intros id Hid. apply lookup_insert_ne. congruence.
    + exists F, parsed. split; [exact Hp|]. split; [exact Hs|]. apply lookup_insert_eq.
Qed.

Lemma poll_device_totals_witness :
  (∀ id, id ≠ device_id device_1A78 →
     get_total (set_totals {[ 1 := 2694184 ]}
                  (set_written [MboxCounterProtocol.request_1A78]
                     (set_metrics {[ "messages_total"%string := 1;
                                     "consecutive_errors"%string := 0 ]}
                        (set_extra_metrics {[ "requests_total"%string := 1;
                                              "responses_total"%string := 1 ]}
                           new_worker)))) id
     = get_total new_worker id)
  ∧ ∃ F parsed, MboxCounterProtocol.parse_response_frame F = Ok parsed
      ∧ MboxCounterProtocol.serial parsed = serial device_1A78
      ∧ get_total (set_totals {[ 1 := 2694184 ]}
                     (set_written [MboxCounterProtocol.request_1A78]
                        (set_metrics {[ "messages_total"%string := 1;
                                        "consecutive_errors"%string := 0 ]}
                           (set_extra_metrics {[ "requests_total"%string := 1;
                                                 "responses_total"%string := 1 ]}
                              new_worker)))) (device_id device_1A78)
        = Some (MboxCounterProtocol.total_count parsed).
Proof.
  apply (poll_device_totals device_1A78 true [MboxCounterProtocol.response_1A78]
           new_worker _ None).
  vm_compute. reflexivity.
Defined.

(** *** A device that does not answer *)

Lemma poll_loop_silent (dev : MboxCounterDeviceConfig) (chunks : list (list byte)) w :
  Forall (λ c, c = []) chunks →
  poll_loop dev chunks w
  = Some (inc_extra "timeouts_total" w,
          Some (TimeoutError "no response frame before timeout")).
Proof.
  induction 1 as [|c rest -> _ IH]; [reflexivity|]. cbn [poll_loop]. exact IH.
Qed.

(** A poll of an enabled device during which nothing arrives on the
    open port ends in the TimeoutError, which [_poll_once] catches: the
    request is written and counted, the timeout is counted, and so are
    a parse failure and an error, although no frame failed to parse;
    the totals and the framer are left as they were. *)
Theorem poll_silent_device (dev : MboxCounterDeviceConfig) (chunks : list (list byte))
    (w : MboxCounterConnectionWorker) :
  enabled dev = true → 0 ≤ serial dev ≤ 65535 → Forall (λ c, c = []) chunks →
  ∃ w' req,
    poll_guarded dev true chunks w = Some w'
    ∧ MboxCounterProtocol.build_read_request (serial dev) = Ok req
    ∧ written w' = written w ++ [req]
    ∧ _totals w' = _totals w ∧ _framer w' = _framer w
    ∧ Forall (λ name, MboxWorkerAux.metric name (_extra_metrics w')
                      = MboxWorkerAux.metric name (_extra_metrics w) + 1)
        ["requests_total"; "timeouts_total"; "parse_fail_total"]%string
    ∧ MboxWorkerAux.metric "responses_total" (_extra_metrics w')
      = MboxWorkerAux.metric "responses_total" (_extra_metrics w)
    ∧ MboxWorkerAux.metric "errors_total" (_metrics w')
      = MboxWorkerAux.metric "errors_total" (_metrics w) + 1.
Proof.
  intros He Hr Hc. unfold poll_guarded, _poll_device. rewrite He. cbn [negb].
  destruct (ProtocolProps.build_read_request_in_range (serial dev) Hr)
    as (lo & hi & h & Hreq & _).
  rewrite Hreq. cbv zeta. rewrite (poll_loop_silent dev chunks _ Hc).
  eexists. eexists. split; [reflexivity|]. split; [reflexivity|].
  split; [reflexivity|]. split; [reflexivity|]. split; [reflexivity|].
  unfold inc_extra, _set_error.
  cbn [_extra_metrics _metrics set_extra_metrics set_metrics set_written].
  split; [|split].
  - repeat constructor;
      repeat (rewrite MboxWorkerProps.metric_dict_inc;
              repeat match goal with
                     | |- context [String.eqb ?a ?b] =>
                         let r := eval vm_compute in (String.eqb a b) in
                         change (String.eqb a b) with r
                     end; cbv iota);
      reflexivity.
  - repeat (rewrite MboxWorkerProps.metric_dict_inc;
            repeat match goal with
                   | |- context [String.eqb ?a ?b] =>
                       let r := eval vm_compute in (String.eqb a b) in
                       change (String.eqb a b) with r
                   end; cbv iota).
    reflexivity.
  - repeat (rewrite MboxWorkerProps.metric_dict_inc;
            repeat match goal with
                   | |- context [String.eqb ?a ?b] =>
                       let r := eval vm_compute in (String.eqb a b) in
                       change (String.eqb a b) with r
                   end; cbv iota).
    reflexivity.
Qed.

Lemma poll_silent_device_witness :
  ∃ w' req,
    poll_guarded device_1A78 true [[]; []] new_worker = Some w'
    ∧ MboxCounterProtocol.build_read_request (serial device_1A78) = Ok req
    ∧ written w' = written new_worker ++ [req]
    ∧ _totals w' = _totals new_worker ∧ _framer w' = _framer new_worker
    ∧ Forall (λ name, MboxWorkerAux.metric name (_extra_metrics w')
                      = MboxWorkerAux.metric name (_extra_metrics new_worker) + 1)
        ["requests_total"; "timeouts_total"; "parse_fail_total"]%string
    ∧ MboxWorkerAux.metric "responses_total" (_extra_metrics w')
      = MboxWorkerAux.metric "responses_total" (_extra_metrics new_worker)
    ∧ MboxWorkerAux.metric "errors_total" (_metrics w')
      = MboxWorkerAux.metric "errors_total" (_metrics new_worker) + 1.
Proof.
  apply (poll_silent_device device_1A78 [[]; []] new_worker).
  - reflexivity.
  - vm_compute. split; discriminate.
  - repeat constructor.
Defined.

End CounterWorkerProps.

(** ** Settings manager: ids and names of the connections *)

Module SettingsProps.
Import SettingsManager.
Local Open Scope Z_scope.

Example upsert_assigns_id :
  upsert_connection {| id := None; name := "b"; fields := tt |}
    [ {| id := Some 4; name := "a"; fields := tt |} ]
  = inr ({| id := Some 5; name := "b"; fields := tt |},
         [ {| id := Some 4; name := "a"; fields := tt |};
           {| id := Some 5; name := "b"; fields := tt |} ]).
Proof. vm_compute. reflexivity. Qed.

Example upsert_name_taken :
  upsert_connection {| id := None; name := "a"; fields := tt |}
    [ {| id := Some 4; name := "a"; fields := tt |} ]
  = inl (ConnectionNameAlreadyExistsError
           "Connection with name 'a' already exists (id=4)").
Proof. vm_compute. reflexivity. Qed.

Section Facts.
Context {T : Type}.
Implicit Types (c conn : LoggerConnectionConfig T) (conns : list (LoggerConnectionConfig T)).

Lemma id_eqb_eq (a b : option Z) : id_eqb a b = true ↔ a = b.
Proof.
  destruct a as [x|], b as [y|]; cbn; split; try congruence; try discriminate.
  - intros E. apply Z.eqb_eq in E. congruence.
  - intros [= ->]. apply Z.eqb_refl.
Qed.

Lemma id_eqb_neq (a b : option Z) : id_eqb a b = false ↔ a ≠ b.
Proof.
  rewrite <- id_eqb_eq. destruct (id_eqb a b); split; congruence.
Qed.

Lemma get_connection_Some conns z c :
  get_connection conns z = Some c → In c conns ∧ id c = Some z.
Proof.
  induction conns as [|e rest IH]; cbn [get_connection]; [discriminate|].
  destruct (id_eqb (id e) (Some z)) eqn:E.
  - intros [= <-]. apply id_eqb_eq in E. split; [left; reflexivity|exact E].
  - intros H. destruct (IH H) as [Hin Hid]. split; [right; exact Hin|exact Hid].
Qed.

Lemma get_connection_None conns z :
  get_connection conns z = None ↔ ¬ In (Some z) (map id conns).
Proof.
  induction conns as [|e rest IH]; cbn [get_connection map]; [split; [intros _ []|reflexivity]|].
  destruct (id_eqb (id e) (Some z)) eqn:E.
  - apply id_eqb_eq in E. split; [discriminate|]. intros H. exfalso. apply H. left. exact E.
  - apply id_eqb_neq in E. rewrite IH. split.
    + intros H [H1|H1]; [congruence|auto].
    + intros H H1. apply H. right. exact H1.
Qed.

Lemma get_connection_app conns conns2 z :
  get_connection (conns ++ conns2) z
  = match get_connection conns z with
    | Some c => Some c
    | None => get_connection conns2 z
    end.
Proof.
  induction conns as [|e rest IH]; cbn [get_connection app]; [reflexivity|].
  destruct (id_eqb (id e) (Some z)); [reflexivity|exact IH].
Qed.

Lemma name_conflict_None conn conns :
  name_conflict conn conns = None →
  ∀ e, In e conns → name e = name conn → id e = id conn.
Proof.
  induction conns as [|x rest IH]; cbn [name_conflict]; [intros _ e []|].
  destruct (String.eqb (name x) (name conn) && negb (id_eqb (id x) (id conn))) eqn:E;
    [discriminate|].
  intros Hn e [<-|Hin] Hname.
  - apply andb_false_iff in E. destruct E as [E|E].
    + apply String.eqb_neq in E. congruence.
    + apply negb_false_iff, id_eqb_eq in E. exact E.
  - exact (IH Hn e Hin Hname).
Qed.

Lemma name_conflict_Some conn conns e :
  name_conflict conn conns = Some e →
  In e conns ∧ name e = name conn ∧ id e ≠ id conn.
Proof.
  induction conns as [|x rest IH]; cbn [name_conflict]; [discriminate|].
  destruct (String.eqb (name x) (name conn) && negb (id_eqb (id x) (id conn))) eqn:E.
  - intros [= <-]. apply andb_prop in E. destruct E as [E1 E2].
    apply String.eqb_eq in E1. apply negb_true_iff, id_eqb_neq in E2.
    split; [left; reflexivity|]. split; assumption.
  - intros H. destruct (IH H) as (Hin & Hn & Hi). split; [right; exact Hin|]. auto.
Qed.

Lemma max_id_bound c rest e :
  In e (c :: rest) → default 0 (id e) ≤ max_id c rest.
Proof.
  revert c. induction rest as [|x rest IH]; intros c [<-|Hin]; cbn [max_id].
  - lia.
  - destruct Hin.
  - lia.
  - specialize (IH x Hin). lia.
Qed.

Lemma new_id_fresh conns :
  ¬ In (Some (_assign_new_connection_id conns)) (map id conns).
Proof.
  intros Hin. apply in_map_iff in Hin. destruct Hin as (e & He & Hin).
  destruct conns as [|c rest]; [destruct Hin|].
  pose proof (max_id_bound c rest e Hin) as Hb. rewrite He in Hb.
  unfold _assign_new_connection_id in Hb. cbn in Hb. lia.
Qed.

Lemma replace_first_Some conn conns conns' :
  replace_first conn conns = Some conns' →
  ∃ pre e post, conns = pre ++ e :: post ∧ conns' = pre ++ conn :: post
    ∧ id e = id conn ∧ ¬ In (id conn) (map id pre).
Proof.
  revert conns'. induction conns as [|x rest IH]; intros conns'; cbn [replace_first];
    [discriminate|].
  destruct (id_eqb (id x) (id conn)) eqn:E.
  - intros [= <-]. apply id_eqb_eq in E. exists [], x, rest. auto.
  - destruct (replace_first conn rest) as [r|]; [|discriminate].
    intros [= <-]. destruct (IH r eq_refl) as (pre & e & post & -> & -> & Hid & Hpre).
    exists (x :: pre), e, post. split; [reflexivity|]. split; [reflexivity|].
    split; [exact Hid|]. apply id_eqb_neq in E. intros [H|H]; [congruence|auto].
Qed.

Lemma replace_first_None conn conns :
  replace_first conn conns = None → ¬ In (id conn) (map id conns).
Proof.
  induction conns as [|x rest IH]; cbn [replace_first map]; [intros _ []|].
  destruct (id_eqb (id x) (id conn)) eqn:E; [discriminate|].
  destruct (replace_first conn rest); [discriminate|].
  intros _ [H|H]; [apply id_eqb_neq in E; congruence|exact (IH eq_refl H)].
Qed.

Lemma well_formed_snoc conns c :
  well_formed conns → is_Some (id c) →
  ¬ In (id c) (map id conns) → ¬ In (name c) (map name conns) →
  well_formed (conns ++ [c]).
Proof.
  intros (Hs & Hi & Hn) Hc Hid Hname. split; [|split].
  - apply Forall_app. split; [exact Hs|]. constructor; [exact Hc|constructor].
  - rewrite map_app. apply NoDup_app. split; [exact Hi|]. split.
    + intros x Hx Hx'. cbn in Hx'. apply list_elem_of_singleton in Hx'. subst x.
      apply Hid. apply list_elem_of_In. exact Hx.
    + cbn. apply NoDup_singleton.
  - rewrite map_app. apply NoDup_app. split; [exact Hn|]. split.
    + intros x Hx Hx'. cbn in Hx'. apply list_elem_of_singleton in Hx'. subst x.
      apply Hname. apply list_elem_of_In. exact Hx.
    + cbn. apply NoDup_singleton.
Qed.

Lemma well_formed_replace conn (pre post : list (LoggerConnectionConfig T)) e :
  well_formed (pre ++ e :: post) → id e = id conn →
  (∀ x, In x (pre ++ e :: post) → name x = name conn → id x = id conn) →
  well_formed (pre ++ conn :: post).
Proof.
  intros (Hs & Hi & Hn) Hid Hname. split; [|split].
  - apply Forall_app in Hs. destruct Hs as [Hpre Hpost].
    apply Forall_cons in Hpost. destruct Hpost as [He Hpost].
    apply Forall_app. split; [exact Hpre|]. constructor; [|exact Hpost].
    rewrite <- Hid. exact He.
  - rewrite map_app in *. cbn [map] in *. rewrite <- Hid. exact Hi.
  - rewrite map_app in *. cbn [map] in *.
    apply NoDup_app in Hn. destruct Hn as (Hn1 & Hn2 & Hn3).
    apply NoDup_cons in Hn3. destruct Hn3 as [Hn3 Hn4].
    apply NoDup_app in Hi. destruct Hi as (Hi1 & Hi2 & Hi3).
    apply NoDup_cons in Hi3. destruct Hi3 as [Hi3 Hi4].
    assert (∀ x, In x pre ∨ In x post → name x ≠ name conn) as Hfresh.
    { intros x Hx Hnx.
      assert (id x = id e) as Hxe.
      { rewrite Hid. apply Hname; [|exact Hnx]. apply in_or_app.
        destruct Hx as [Hx|Hx]; [left; exact Hx|right; right; exact Hx]. }
      destruct Hx as [Hx|Hx].
      - apply (Hi2 (id x)).
        + apply list_elem_of_In, in_map. exact Hx.
        + rewrite Hxe. left.
      - apply Hi3. rewrite <- Hxe. apply list_elem_of_In, in_map. exact Hx. }
    apply NoDup_app. split; [exact Hn1|]. split.
    + intros n Hin1 Hin2. apply list_elem_of_In in Hin1.
      apply elem_of_cons in Hin2. destruct Hin2 as [->|Hin2].
      * apply in_map_iff in Hin1. destruct Hin1 as (x & Hx & Hin1).
        exact (Hfresh x (or_introl Hin1) Hx).
      * apply (Hn2 n); [apply list_elem_of_In; exact Hin1|]. right. exact Hin2.
    + apply NoDup_cons. split; [|exact Hn4].
      intros Hin. apply list_elem_of_In, in_map_iff in Hin.
      destruct Hin as (x & Hx & Hin). exact (Hfresh x (or_intror Hin) Hx).
Qed.

Lemma get_connection_replace conn (pre post : list (LoggerConnectionConfig T)) e z :
  id e = id conn → id conn = Some z → ¬ In (id conn) (map id pre) →
  get_connection (pre ++ conn :: post) z = Some conn
  ∧ ∀ z', z' ≠ z →
      get_connection (pre ++ conn :: post) z' = get_connection (pre ++ e :: post) z'.
Proof.
  intros He Hz Hpre. split.
  - rewrite get_connection_app.
    assert (get_connection pre z = None) as ->
      by (apply get_connection_None; rewrite <- Hz; exact Hpre).
    cbn [get_connection]. rewrite Hz. cbn [id_eqb]. rewrite Z.eqb_refl. reflexivity.
  - intros z' Hne. rewrite !get_connection_app.
    destruct (get_connection pre z'); [reflexivity|].
    cbn [get_connection]. rewrite He, Hz. cbn [id_eqb].
    destruct (Z.eqb_spec z z'); [congruence|reflexivity].
Qed.

Lemma get_connection_snoc conns c z :
  id c = Some z → ¬ In (id c) (map id conns) →
  get_connection conns z = None
  ∧ get_connection (conns ++ [c]) z = Some c
  ∧ ∀ z', z' ≠ z → get_connection (conns ++ [c]) z' = get_connection conns z'.
Proof.
  intros Hz Hfresh.
  assert (get_connection conns z = None) as Hnone
    by (apply get_connection_None; rewrite <- Hz; exact Hfresh).
  split; [exact Hnone|]. split.
  - rewrite get_connection_app, Hnone. cbn [get_connection].
    rewrite Hz. cbn [id_eqb]. rewrite Z.eqb_refl. reflexivity.
  - intros z' Hne. rewrite get_connection_app.
    destruct (get_connection conns z'); [reflexivity|].
    cbn [get_connection]. rewrite Hz. cbn [id_eqb].
    destruct (Z.eqb_spec z z'); [congruence|reflexivity].
Qed.

(** [upsert_connection] on a list with set, distinct ids and distinct
    names: it refuses the connection exactly when another connection
    has its name; otherwise the list saved again has set, distinct ids
    and distinct names, the connection returned keeps name and fields
    and has an id (a new one, unused so far, if it came without),
    [get_connection] finds it under that id, and the connections under
    the other ids are as before. *)
Theorem upsert_connection_outcomes conn conns :
  well_formed conns →
  match upsert_connection conn conns with
  | inl _ => ∃ e, In e conns ∧ name e = name conn ∧ id e ≠ id conn
  | inr (conn', conns') =>
      (∀ e, In e conns → name e = name conn → id e = id conn)
      ∧ well_formed conns'
      ∧ name conn' = name conn ∧ fields conn' = fields conn
      ∧ ∃ z, id conn' = Some z
          ∧ match id conn with
            | None => get_connection conns z = None
            | Some i => i = z
            end
          ∧ get_connection conns' z = Some conn'
          ∧ ∀ z', z' ≠ z → get_connection conns' z' = get_connection conns z'
  end.
Proof.
  intros Hwf. unfold upsert_connection.
  destruct (name_conflict conn conns) as [e|] eqn:Ec.
  { exists e. exact (name_conflict_Some _ _ _ Ec). }
  pose proof (name_conflict_None _ _ Ec) as Hname.
  destruct (id conn) as [i|] eqn:Ei.
  - assert (∀ x, In x conns → name x = name conn → id x = id conn) as Hname'
      by (intros x Hx Hn; rewrite Ei; exact (Hname x Hx Hn)).
    destruct (replace_first conn conns) as [conns'|] eqn:Er.
    + destruct (replace_first_Some _ _ _ Er) as (pre & e & post & -> & -> & He & Hpre).
      split; [exact Hname|]. split; [exact (well_formed_replace _ _ _ _ Hwf He Hname')|].
      split; [reflexivity|]. split; [reflexivity|].
      exists i. split; [exact Ei|]. split; [reflexivity|].
      exact (get_connection_replace conn pre post e i He Ei Hpre).
    + pose proof (replace_first_None _ _ Er) as Hfresh.
      split; [exact Hname|]. split.
      { apply well_formed_snoc; [exact Hwf|rewrite Ei; eauto|exact Hfresh|].
        intros Hin. apply in_map_iff in Hin. destruct Hin as (x & Hx & Hin).
        apply Hfresh. rewrite <- (Hname' x Hin Hx). apply in_map. exact Hin. }
      split; [reflexivity|]. split; [reflexivity|].
      exists i. split; [exact Ei|]. split; [reflexivity|].
      destruct (get_connection_snoc conns conn i Ei Hfresh) as (_ & H2 & H3).
      split; assumption.
  - cbv zeta.
    set (c := {| id := Some (_assign_new_connection_id conns); name := name conn;
                 fields := fields conn |}).
    assert (¬ In (id c) (map id conns)) as Hfresh by apply new_id_fresh.
    split; [exact Hname|]. split.
    { apply well_formed_snoc; [exact Hwf|cbn; eauto|exact Hfresh|].
      cbn [name c]. intros Hin. apply in_map_iff in Hin. destruct Hin as (x & Hx & Hin).
      destruct Hwf as (Hs & _ & _). rewrite Forall_forall in Hs.
      destruct (Hs x ltac:(apply list_elem_of_In; exact Hin)) as [zx Hzx].
      rewrite (Hname x Hin Hx) in Hzx. discriminate. }
    split; [reflexivity|]. split; [reflexivity|].
    exists (_assign_new_connection_id conns). split; [reflexivity|].
    exact (get_connection_snoc conns c _ eq_refl Hfresh).
Qed.

Lemma filter_length_eq {A : Type} (f : A → bool) (l : list A) :
  length (List.filter f l) = length l → List.filter f l = l.
Proof.
  induction l as [|x l IH]; [reflexivity|]. cbn [List.filter].
  destruct (f x); cbn [length].
  - intros [= H]. rewrite (IH H). reflexivity.
  - intros H. pose proof (List.filter_length_le f l). lia.
Qed.

Lemma delete_connection_filter (z : Z) conns :
  snd (delete_connection z conns)
  = List.filter (fun c => negb (id_eqb (id c) (Some z))) conns
  ∧ (fst (delete_connection z conns) = true ↔ In (Some z) (map id conns)).
Proof.
  unfold delete_connection. cbv zeta.
  set (f := fun c : LoggerConnectionConfig T => negb (id_eqb (id c) (Some z))).
  destruct (length (List.filter f conns) =? length conns)%nat eqn:E; cbn [negb fst snd].
  - apply Nat.eqb_eq, filter_length_eq in E. split; [symmetry; exact E|].
    split; [discriminate|]. intros Hin. exfalso.
    apply in_map_iff in Hin. destruct Hin as (x & Hx & Hin).
    rewrite <- E in Hin. apply List.filter_In in Hin. destruct Hin as [_ Hf].
    unfold f in Hf. rewrite Hx in Hf. cbn in Hf. rewrite Z.eqb_refl in Hf. discriminate.
  - split; [reflexivity|]. split; [|reflexivity]. intros _.
    apply Nat.eqb_neq in E.
    destruct (in_dec (fun a b : option Z => decide (a = b)) (Some z) (map id conns))
      as [Hin|Hnin]; [exact Hin|].
    exfalso. apply E. f_equal. clear E.
    induction conns as [|x rest IH]; [reflexivity|]. cbn [List.filter].
    cbn [map] in Hnin.
    assert (f x = true) as ->.
    { unfold f. apply negb_true_iff, id_eqb_neq. intros Hx. apply Hnin. left. exact Hx. }
    f_equal. apply IH. intros H. apply Hnin. right. exact H.
Qed.

Lemma well_formed_filter (f : LoggerConnectionConfig T → bool) conns :
  well_formed conns → well_formed (List.filter f conns).
Proof.
  intros (Hs & Hi & Hn).
  assert (∀ {B : Type} (g : LoggerConnectionConfig T → B) l,
            NoDup (map g l) → NoDup (map g (List.filter f l))) as Hnd.
  { intros B g l. induction l as [|x l IH]; [intros _; constructor|].
    cbn [map List.filter]. intros Hx. apply NoDup_cons in Hx. destruct Hx as [Hx Hl].
    destruct (f x); [|exact (IH Hl)].
    cbn [map]. apply NoDup_cons. split; [|exact (IH Hl)].
    intros Hin. apply Hx. apply list_elem_of_In in Hin. apply list_elem_of_In.
    apply in_map_iff in Hin. destruct Hin as (y & Hy & Hin).
    apply List.filter_In in Hin. destruct Hin as [Hin _].
    rewrite <- Hy. apply in_map. exact Hin. }
  split; [|split; apply Hnd; assumption].
  rewrite Forall_forall in *. intros x Hx. apply Hs.
  apply list_elem_of_In in Hx. apply List.filter_In in Hx. destruct Hx as [Hx _].
  apply list_elem_of_In. exact Hx.
Qed.

(** [delete_connection] returns True exactly when a connection has the
    id; afterwards [get_connection] finds nothing under the id and
    finds the other connections as before, and ids and names of the
    list are still set and distinct. *)
Theorem delete_connection_outcomes (z : Z) conns :
  well_formed conns →
  let '(deleted, conns') := delete_connection z conns in
  (deleted = true ↔ is_Some (get_connection conns z))
  ∧ get_connection conns' z = None
  ∧ (∀ z', z' ≠ z → get_connection conns' z' = get_connection conns z')
  ∧ well_formed conns'.
Proof.
  intros Hwf. destruct (delete_connection_filter z conns) as [Hsnd Hfst].
  destruct (delete_connection z conns) as [deleted conns']. cbn [fst snd] in *.
  subst conns'. split; [|split; [|split]].
  - rewrite Hfst. destruct (get_connection conns z) as [c|] eqn:Eg.
    + split; [eauto|]. intros _. apply get_connection_Some in Eg.
      destruct Eg as [Hin Hid]. rewrite <- Hid. apply in_map. exact Hin.
    + apply get_connection_None in Eg. split; [contradiction|].
      intros [c Hc]. discriminate.
  - apply get_connection_None. intros Hin. apply in_map_iff in Hin.
    destruct Hin as (x & Hx & Hin). apply List.filter_In in Hin.
    destruct Hin as [_ Hf]. rewrite Hx in Hf. cbn in Hf. rewrite Z.eqb_refl in Hf.
    discriminate.
  - intros z' Hne. clear Hwf Hfst. induction conns as [|x rest IH]; [reflexivity|].
    cbn [List.filter get_connection].
    destruct (id_eqb (id x) (Some z)) eqn:E; cbn [negb].
    + apply id_eqb_eq in E. rewrite E. cbn [id_eqb].
      destruct (Z.eqb_spec z z'); [congruence|exact IH].
    + cbn [get_connection]. rewrite IH. reflexivity.
  - apply well_formed_filter. exact Hwf.
Qed.

End Facts.

Lemma upsert_connection_outcomes_witness :
  match upsert_connection {| id := None; name := "b"; fields := tt |}
          [ {| id := Some 4; name := "a"; fields := tt |} ] with
  | inl _ => ∃ e, In e [ {| id := Some 4; name := "a"; fields := tt |} ]
                  ∧ name e = "b"%string ∧ id e ≠ None
  | inr (conn', conns') =>
      (∀ e, In e [ {| id := Some 4; name := "a"; fields := tt |} ] →
            name e = "b"%string → id e = None)
      ∧ well_formed conns'
      ∧ name conn' = "b"%string ∧ fields conn' = tt
      ∧ ∃ z, id conn' = Some z
          ∧ get_connection [ {| id := Some 4; name := "a"; fields := tt |} ] z = None
          ∧ get_connection conns' z = Some conn'
          ∧ ∀ z', z' ≠ z →
              get_connection conns' z'
              = get_connection [ {| id := Some 4; name := "a"; fields := tt |} ] z'
  end.
Proof.
  apply (upsert_connection_outcomes {| id := None; name := "b"; fields := tt |}
           [ {| id := Some 4; name := "a"; fields := tt |} ]).
  split; [repeat constructor; eauto|].
  split; cbn; apply NoDup_singleton.
Defined.

Lemma delete_connection_outcomes_witness :
  let '(deleted, conns') :=
    delete_connection 4 [ {| id := Some 4; name := "a"; fields := tt |};
                          {| id := Some 5; name := "b"; fields := tt |} ] in
  (deleted = true
   ↔ is_Some (get_connection [ {| id := Some 4; name := "a"; fields := tt |};
                               {| id := Some 5; name := "b"; fields := tt |} ] 4))
  ∧ get_connection conns' 4 = None
  ∧ (∀ z', z' ≠ 4 →
       get_connection conns' z'
       = get_connection [ {| id := Some 4; name := "a"; fields := tt |};
                          {| id := Some 5; name := "b"; fields := tt |} ] z')
  ∧ well_formed conns'.
Proof.
  apply (delete_connection_outcomes 4
           [ {| id := Some 4; name := "a"; fields := tt |};
             {| id := Some 5; name := "b"; fields := tt |} ]).
  split; [repeat constructor; eauto|].
  split; cbn; apply NoDup_cons; (split; [|apply NoDup_singleton]);
    intros H; apply list_elem_of_singleton in H; discriminate.
Defined.

End SettingsProps.
